(** * niauth-js: SRP handshake, codec and login controller

    A shallow embedding of [lib/Utils.js], [lib/Base64.js], [lib/SRP.js]
    and [index.js], followed by the properties of the design document
    that are stated about them, and by further properties of the code
    itself: round trips of the codecs, error behaviour, the structure
    of the SRP values and what the operations do to the module's
    variables.

    Conventions.
    - A JavaScript string is the list of its UTF-16 code units.
    - A JavaScript number that the code only ever uses as an integer is
      [Num z]; [NaN] is kept because [parseInt] produces it.
    - A [BigInteger] of the jsbn package is an integer of [Z]; the jsbn
      operations are modelled by their arithmetic contract.
    - A [throw] is the [Throw] constructor of [result]; a promise
      settles as [Ok] (resolved) or [Throw] (rejected).
    - The arguments of the SRP operations are typed, so their guards
      ('invalid argument') have nothing left to reject, except on a field
      of a role that is still [undefined].
    - What the code draws or receives enters as an argument: the random
      numbers, the cookie string, the network and the XML parser. *)

From Stdlib Require Import ZArith List Lia Bool Ascii String.
From stdpp Require Import gmap.
Import ListNotations.

Local Open Scope Z_scope.

(** ** JavaScript values *)

Abbreviation jsstring := (list Z).

Definition code (c : ascii) : Z := Z.of_N (N_of_ascii c).

(** The code units of a literal. *)
Definition str (s : string) : jsstring := map code (list_ascii_of_string s).

Inductive jsnum : Type :=
| NaN
| Num (z : Z).

Abbreviation jsarray := (list jsnum).

(** The values the code throws, named as in the error taxonomy of the
    design document; [message] gives the text thrown by the source where
    it is a constant. [TypeError] is the runtime's own exception for a
    property read on [undefined]. *)
Inductive error : Type :=
| InvalidArgumentError
| TruncationError
| LengthMismatchError
| FormatError
| MissingParamsError
| IndexError
| PrecheckFailedError
| IncompleteServerInfoError
| AlreadyLoggedInError
| AuthenticationFailedError
| UnknownStatusError
| UnknownElementError
| LookupError
| NetworkError
| TypeError.

Definition message (e : error) : string :=
  match e with
  | InvalidArgumentError => "invalid argument"
  | TruncationError => "attmpted to truncate to "
  | LengthMismatchError => "strings not same length"
  | FormatError => "not a valid params string"
  | MissingParamsError => "didn't get everything we needed from server"
  | IndexError => "invalid prime index"
  | PrecheckFailedError => "precondition fail"
  | IncompleteServerInfoError => "serverInfo needs "
  | AlreadyLoggedInError => "Already logged in as "
  | AuthenticationFailedError => "Login failed!"
  | UnknownStatusError => "Unknown/unhandled status code from NIAuth ("
  | UnknownElementError => "Unknown element type, got "
  | LookupError => ""
  | NetworkError => ""
  | TypeError => "TypeError"
  end.

Inductive result (A : Type) : Type :=
| Ok (a : A)
| Throw (e : error).
Arguments Ok {A} a.
Arguments Throw {A} e.

Definition rbind {A B} (m : result A) (f : A -> result B) : result B :=
  match m with
  | Ok a => f a
  | Throw e => Throw e
  end.

Declare Scope result_scope.
Delimit Scope result_scope with result.
Notation "'let*' x := m 'in' k" := (rbind m (fun x => k))
  (at level 10, x name, m at level 100, k at level 200) : result_scope.

(** ** String and number primitives of the host *)

Module JS.

Definition len {A} (l : list A) : Z := Z.of_nat (length l).

(** [s.substr(start, length)]. *)
Definition substr (s : jsstring) (start length : Z) : jsstring :=
  let size := len s in
  let st := if start <? 0 then Z.max (size + start) 0 else Z.min start size in
  let ln := Z.min (Z.max length 0) (size - st) in
  take (Z.to_nat ln) (drop (Z.to_nat st) s).

(** [s.substr(start)]. *)
Definition substrFrom (s : jsstring) (start : Z) : jsstring :=
  substr s start (len s).

(** [l.slice(start, end)]. *)
Definition slice {A} (l : list A) (start end_ : Z) : list A :=
  let size := len l in
  let k := if start <? 0 then Z.max (size + start) 0 else Z.min start size in
  let e := if end_ <? 0 then Z.max (size + end_) 0 else Z.min end_ size in
  take (Z.to_nat (e - k)) (drop (Z.to_nat k) l).

(** [l.slice(start)]. *)
Definition sliceFrom {A} (l : list A) (start : Z) : list A :=
  slice l start (len l).

Fixpoint isPrefix (p s : jsstring) : bool :=
  match p, s with
  | [], _ => true
  | _ :: _, [] => false
  | a :: p', b :: s' => (a =? b) && isPrefix p' s'
  end.

Fixpoint indexOfFrom (s pat : jsstring) (i : Z) : Z :=
  match s with
  | [] => if isPrefix pat [] then i else -1
  | _ :: s' => if isPrefix pat s then i else indexOfFrom s' pat (i + 1)
  end.

(** [s.indexOf(pat)]. *)
Definition indexOf (s pat : jsstring) : Z := indexOfFrom s pat 0.

Fixpoint splitAux (sep : Z) (s cur : jsstring) : list jsstring :=
  match s with
  | [] => [rev cur]
  | c :: s' =>
      if c =? sep then rev cur :: splitAux sep s' []
      else splitAux sep s' (c :: cur)
  end.

(** [s.split(sep)] for a separator of one code unit. *)
Definition split (s : jsstring) (sep : Z) : list jsstring := splitAux sep s [].

(** [String.fromCharCode(i)]: one code unit, the argument taken modulo
    2^16. *)
Definition fromCharCode (i : Z) : jsstring := [i mod 65536].

(** White space and line terminators, as [parseInt] skips them. *)
Definition isWhiteSpace (c : Z) : bool :=
  existsb (Z.eqb c)
    [9; 10; 11; 12; 13; 32; 160; 5760; 8192; 8193; 8194; 8195; 8196; 8197;
     8198; 8199; 8200; 8201; 8202; 8232; 8233; 8239; 8287; 12288; 65279].

Fixpoint trimLeft (s : jsstring) : jsstring :=
  match s with
  | [] => []
  | c :: s' => if isWhiteSpace c then trimLeft s' else s
  end.

(** The value of a character as a digit, for radices up to 36. *)
Definition digitValue (c : Z) : option Z :=
  if (48 <=? c) && (c <=? 57) then Some (c - 48)
  else if (97 <=? c) && (c <=? 122) then Some (c - 87)
  else if (65 <=? c) && (c <=? 90) then Some (c - 55)
  else None.

(** The longest prefix of digits of the radix, as a number; [None] when
    that prefix is empty. *)
Fixpoint parseDigits (radix : Z) (s : jsstring) (acc : option Z) : option Z :=
  match s with
  | [] => acc
  | c :: s' =>
      match digitValue c with
      | Some d =>
          if d <? radix
          then parseDigits radix s' (Some (default 0 acc * radix + d))
          else acc
      | None => acc
      end
  end.

Definition hasHexPrefix (s : jsstring) : bool :=
  match s with
  | 48 :: x :: _ => (x =? 120) || (x =? 88)
  | _ => false
  end.

(** [parseInt(s, radix)]; radix [0] stands for an absent radix. The
    result is exact: the rounding of integers beyond 2^53 is not
    modelled. *)
Definition parseInt (s : jsstring) (radix : Z) : jsnum :=
  let s1 := trimLeft s in
  let '(sign, s2) :=
    match s1 with
    | 45 :: r => (-1, r)
    | 43 :: r => (1, r)
    | _ => (1, s1)
    end in
  if (radix =? 0) || ((2 <=? radix) && (radix <=? 36)) then
    let stripPrefix := (radix =? 0) || (radix =? 16) in
    let '(R, s3) :=
      if stripPrefix && hasHexPrefix s2 then (16, drop 2 s2)
      else (if radix =? 0 then 10 else radix, s2) in
    match parseDigits R s3 None with
    | None => NaN
    | Some v => Num (sign * v)
    end
  else NaN.

Definition hexDigit (d : Z) : Z := if d <? 10 then 48 + d else 87 + d.

Fixpoint toHexAux (fuel : nat) (n : Z) (acc : jsstring) : jsstring :=
  match fuel with
  | O => acc
  | S fuel' =>
      let acc' := hexDigit (n mod 16) :: acc in
      if n / 16 =? 0 then acc' else toHexAux fuel' (n / 16) acc'
  end.

Definition toHex (n : Z) : jsstring := toHexAux (S (Z.to_nat (Z.log2 n))) n [].

(** [n.toString(16)] for an integral number. *)
Definition toString16 (n : jsnum) : jsstring :=
  match n with
  | NaN => str "NaN"
  | Num z => if z <? 0 then 45 :: toHex (- z) else toHex z
  end.

(** The conversion applied to the operands of the bit operators. *)
Definition ToInt32 (n : jsnum) : Z :=
  match n with
  | NaN => 0
  | Num z => (z + 2 ^ 31) mod 2 ^ 32 - 2 ^ 31
  end.

(** [x & y] and [x ^ y]. *)
Definition bitand (x y : jsnum) : jsnum := Num (Z.land (ToInt32 x) (ToInt32 y)).
Definition bitxor (x y : jsnum) : jsnum := Num (Z.lxor (ToInt32 x) (ToInt32 y)).

(** [x != 0] on numbers: [NaN] differs from everything. *)
Definition neqZero (x : jsnum) : bool :=
  match x with
  | NaN => true
  | Num z => negb (z =? 0)
  end.

End JS.

(** ** The jsbn package

    [BigInteger] is an external dependency; its operations are taken by
    their contract. [add], [subtract], [multiply] and [compareTo] are the
    operations of [Z]; [mod] with a positive modulus is [Z.modulo]. *)

Module BigInteger.

Definition hexValue (c : Z) : option Z :=
  match JS.digitValue c with
  | Some d => if d <? 16 then Some d else None
  | None => None
  end.

(** The constructor skips what is not a digit, and a minus sign makes
    the number negative when no digit stands to its left. *)
Fixpoint leadingMinus (s : jsstring) : bool :=
  match s with
  | [] => false
  | c :: s' =>
      if c =? 45 then true
      else match hexValue c with
           | Some _ => false
           | None => leadingMinus s'
           end
  end.

Definition magnitude16 (s : jsstring) : Z :=
  fold_left
    (fun acc c => match hexValue c with Some d => acc * 16 + d | None => acc end)
    s 0.

(** [new BigInteger(s, 16)]. Letters beyond [f] are outside the radix
    and are skipped here. *)
Definition fromString16 (s : jsstring) : Z :=
  if leadingMinus s then - magnitude16 s else magnitude16 s.

Fixpoint modPowPos (g : Z) (e : positive) (m : Z) : Z :=
  match e with
  | xH => g mod m
  | xO e' => let r := modPowPos g e' m in (r * r) mod m
  | xI e' => let r := modPowPos g e' m in ((r * r) mod m * g) mod m
  end.

(** [g.modPow(e, m)]. The method of the package begins with
    [i = e.bitLength(); r = 1; if (i <= 0) return r]: the exponents
    whose bit length is 0, which are 0 and -1, give 1, and that 1 is
    not reduced by [m] (so it is 1 also when [m] is 1). A positive
    exponent gives the power reduced by [m], here by repeated squaring.
    An exponent below -1 is outside what the package supports: its loop
    reads the two's-complement words of the exponent as a magnitude, so
    the outcome depends on the word size of the build and the loop need
    not end. No operation of the protocol hands over such an exponent
    (the secrets are draws of 512 bits, u and x are digests); the value
    1 stands there, and every statement below that is about the value
    of a power assumes an exponent that is not negative. *)
Definition modPow (g e m : Z) : Z :=
  match e with
  | Z0 => 1
  | Zpos p => modPowPos g p m
  | Zneg _ => 1
  end.

(** [n.bitLength()]: the bits of the shortest two's-complement
    representation, the sign bit left out. *)
Definition bitLength (n : Z) : Z :=
  let m := if n <? 0 then - n - 1 else n in
  if m =? 0 then 0 else Z.log2 m + 1.

Definition toInt8 (b : Z) : Z := if 128 <=? b then b - 256 else b.

(** [n.toByteArray()]: the shortest big-endian two's-complement
    representation, each byte a signed value between -128 and 127. *)
Definition toByteArray (n : Z) : jsarray :=
  let count := Z.to_nat (bitLength n / 8 + 1) in
  map (fun i => Num (toInt8 (Z.shiftr n (8 * Z.of_nat i) mod 256)))
    (rev (seq 0 count)).

End BigInteger.

(** ** lib/Base64.js

    Both functions are wrappers around the host's [Buffer]. The decoder
    of the host is lenient: it reads the standard and the URL-safe
    alphabet, skips every other character and stops at the first
    padding character. *)

Module Base64.

Definition alphabet : jsstring :=
  str "ABCDEFGHIJKLMNOPQRSTUVWXYZabcdefghijklmnopqrstuvwxyz0123456789+/".

Definition sextetChar (v : Z) : Z := nth (Z.to_nat v) alphabet 61.

Definition byteOf (n : jsnum) : Z := JS.ToInt32 n mod 256.

Fixpoint encodeBytes (l : list Z) : jsstring :=
  match l with
  | [] => []
  | [a] =>
      [sextetChar (a / 4); sextetChar (a mod 4 * 16); 61; 61]
  | [a; b] =>
      [sextetChar (a / 4); sextetChar (a mod 4 * 16 + b / 16);
       sextetChar (b mod 16 * 4); 61]
  | a :: b :: c :: rest =>
      sextetChar (a / 4) :: sextetChar (a mod 4 * 16 + b / 16)
        :: sextetChar (b mod 16 * 4 + c / 64) :: sextetChar (c mod 64)
        :: encodeBytes rest
  end.

(** [(new Buffer(arr)).toString('base64')]: every element is taken
    modulo 256. *)
Definition encode (arr : jsarray) : jsstring := encodeBytes (map byteOf arr).

Definition sextetValue (c : Z) : option Z :=
  if (65 <=? c) && (c <=? 90) then Some (c - 65)
  else if (97 <=? c) && (c <=? 122) then Some (c - 71)
  else if (48 <=? c) && (c <=? 57) then Some (c + 4)
  else if (c =? 43) || (c =? 45) then Some 62
  else if (c =? 47) || (c =? 95) then Some 63
  else None.

Fixpoint sextets (s : jsstring) : list Z :=
  match s with
  | [] => []
  | c :: s' =>
      if c =? 61 then []
      else match sextetValue c with
           | Some v => v :: sextets s'
           | None => sextets s'
           end
  end.

Fixpoint decodeSextets (l : list Z) : list Z :=
  match l with
  | a :: b :: c :: d :: rest =>
      (a * 4 + b / 16) :: (b mod 16 * 16 + c / 4) :: (c mod 4 * 64 + d)
        :: decodeSextets rest
  | [a; b; c] => [a * 4 + b / 16; b mod 16 * 16 + c / 4]
  | [a; b] => [a * 4 + b / 16]
  | _ => []
  end.

(** [new Buffer(str, 'base64')], copied element by element into an
    array. *)
Definition decode (s : jsstring) : jsarray := map Num (decodeSextets (sextets s)).

End Base64.

(** ** lib/Utils.js *)

Module Utils.

Fixpoint hashStringToByteArray_loop (fuel : nat) (s : jsstring) (i : Z)
    (ar : jsarray) : jsarray :=
  match fuel with
  | O => ar
  | S fuel' =>
      if i <? JS.len s
      then hashStringToByteArray_loop fuel' s (i + 2)
             (ar ++ [JS.parseInt (JS.substr s i 2) 16])
      else ar
  end.

(** Transform a "hash string" into a byte array. The loop advances by
    two characters, so the length of the string bounds its iterations. *)
Definition hashStringToByteArray (s : jsstring) : jsarray :=
  hashStringToByteArray_loop (length s) s 0 [].

(** Transform a byte array into a "hash string". *)
Definition byteArrayToHashString (ar : jsarray) : jsstring :=
  fold_left
    (fun hs b =>
       hs ++ JS.substrFrom (str "00" ++ JS.toString16 (JS.bitand b (Num 255))) (-2))
    ar [].

(** jsbn's bigint doesn't give all the bytes we expect all the time... *)
Definition bigIntegerToBytes (bi : Z) (byteCount : Z) : result jsarray :=
  let bytes := BigInteger.toByteArray bi in
  if JS.len bytes =? byteCount then Ok bytes
  else if JS.len bytes <? byteCount then
    (* left-pad with zeroes *)
    let paddingBytes := byteCount - JS.len bytes in
    let na := repeat (Num 0) (Z.to_nat paddingBytes) in
    Ok (na ++ bytes)
  else
    (* trim leading zeroes *)
    let leaders := JS.slice bytes 0 (JS.len bytes - byteCount) in
    if existsb JS.neqZero leaders then Throw TruncationError
    else Ok (JS.sliceFrom bytes (JS.len bytes - byteCount)).

Definition b64tohex (b64str : jsstring) : jsstring :=
  let decoded := Base64.decode b64str in
  fold_left
    (fun decodedhex b => decodedhex ++ JS.substrFrom (str "00" ++ JS.toString16 b) (-2))
    decoded [].

Definition hexStringToBase64 (s : jsstring) : jsstring :=
  Base64.encode (hashStringToByteArray s).

Fixpoint byteStringToByteArray_loop (n : nat) (i : Z) (ar : list jsstring)
    : list jsstring :=
  match n with
  | O => ar
  | S n' => byteStringToByteArray_loop n' (i + 1) (ar ++ [JS.fromCharCode i])
  end.

(** The loop runs once for every index below [str.length] and pushes
    [String.fromCharCode(i)]. *)
Definition byteStringToByteArray (s : jsstring) : list jsstring :=
  byteStringToByteArray_loop (length s) 0 [].

Definition bigIntToBase64 (ba : Z) (len : Z) : result jsstring :=
  (let* bytes := bigIntegerToBytes ba len in
   Ok (Base64.encode (map (fun b => JS.bitand b (Num 255)) bytes)))%result.

Fixpoint xorHashStrings_loop (fuel : nat) (a b : jsstring) (i : Z)
    (res : jsstring) : jsstring :=
  match fuel with
  | O => res
  | S fuel' =>
      if i <? JS.len a then
        let ac := JS.parseInt (JS.substr a i 4) 16 in
        let bc := JS.parseInt (JS.substr b i 4) 16 in
        xorHashStrings_loop fuel' a b (i + 4)
          (res ++ JS.substrFrom (str "0000" ++ JS.toString16 (JS.bitxor ac bc)) (-4))
      else res
  end.

(** XOR two hash strings, four characters (16 bits) at a time. *)
Definition xorHashStrings (a b : jsstring) : result jsstring :=
  if negb (JS.len a =? JS.len b) then Throw LengthMismatchError
  else Ok (xorHashStrings_loop (length a) a b 0 []).

Definition makeUrlBase64 (regularBase64Str : jsstring) : jsstring :=
  fold_left
    (fun newStr c =>
       if c =? 43 then newStr ++ str "-"
       else if c =? 47 then newStr ++ str "_"
       else newStr ++ [c])
    regularBase64Str [].

(** An assignment [ret[name] = value] on a plain object: the assignment
    to the name [__proto__] of a string creates no property. *)
Definition assign (ret : gmap jsstring jsstring) (name value : jsstring)
    : gmap jsstring jsstring :=
  if bool_decide (name = str "__proto__") then ret else <[name := value]> ret.

Fixpoint splitParamsString_loop (params : list jsstring)
    (ret : gmap jsstring jsstring) : result (gmap jsstring jsstring) :=
  match params with
  | [] => Ok ret
  | p :: params' =>
      let equals := JS.indexOf p (str "=") in
      if equals =? -1 then Throw FormatError
      else
        let name := JS.substr p 0 equals in
        let value := JS.substrFrom p (equals + 1) in
        splitParamsString_loop params' (assign ret name value)
  end.

Definition splitParamsString (s : jsstring) : result (gmap jsstring jsstring) :=
  splitParamsString_loop (JS.split s 44) ∅.

End Utils.

(** ** lib/SRP.js *)

(** [SHA1] takes an array of bytes or a string. *)
Inductive hashInput : Type :=
| HashBytes (bytes : jsarray)
| HashString (s : jsstring).

(** The SRP operations the client and server roles invoke, recorded in
    call order by the roles below. *)
Inductive op : Type :=
| Op_a | Op_A | Op_u | Op_k | Op_x | Op_Sc | Op_K | Op_Mc.

(** A computation together with the log of the operations it invoked. *)
Definition traced (A : Type) : Type := (list op * result A)%type.

Definition tbind {A B} (m : traced A) (f : A -> traced B) : traced B :=
  match m with
  | (l, Ok a) => let '(l', r) := f a in (l ++ l', r)
  | (l, Throw e) => (l, Throw e)
  end.

Definition call {A} (o : op) (r : result A) : traced A := ([o], r).
Definition tthrow {A} (e : error) : traced A := ([], Throw e).
Definition tret {A} (a : A) : traced A := ([], Ok a).

Declare Scope traced_scope.
Delimit Scope traced_scope with traced.
Notation "'let!' x := m 'in' k" := (tbind m (fun x => k))
  (at level 10, x name, m at level 100, k at level 200) : traced_scope.

(** The guard of an SRP operation on an argument that may be
    [undefined]: [areBigIntegers], [isArray]. *)
Definition arg {A} (o : option A) : result A :=
  match o with
  | Some a => Ok a
  | None => Throw InvalidArgumentError
  end.

(** [s || ''] *)
Definition orEmpty (s : option jsstring) : jsstring := default [] s.

Record ServerInfo : Type := mkServerInfo {
  si_modulus : option Z;
  si_generator : option Z;
  si_salt : option jsarray;
  si_serverPublicKey : option Z;
  si_loginToken : option jsstring
}.

Record ClientParams : Type := mkClientParams {
  clientPublicKey : Z;
  clientProof : jsstring
}.

Record Entry : Type := mkEntry {
  entry_n : jsarray;
  entry_g : jsarray;
  entry_v : jsarray;
  entry_s : jsarray
}.

Module Client.
Record t : Type := mk {
  username : option jsstring;
  password : option jsstring;
  modulus : option Z;
  generator : option Z;
  salt : option jsarray;
  serverPublicKey : option Z;
  sharedKey : option jsarray
}.

(** [new Client()] *)
Definition new : t := mk None None None None None None None.
End Client.

Module Server.
Record t : Type := mk {
  lookupFunc : jsstring -> result Entry;
  modulus : option Z;
  generator : option Z;
  salt : option jsarray;
  serverPrivateKey : option Z;
  serverPublicKey : option Z;
  verifier : option Z;
  sharedKey : option jsarray
}.

(** [new Server(lookupFunc)] *)
Definition new (lookupFunc : jsstring -> result Entry) : t :=
  mk lookupFunc None None None None None None None.
End Server.

Module SRP.
Section WithDigest.

(** Modelled from the spec: [lib/SHA1.js] is not among the sources at
    hand. The design document gives it as a digest function from byte
    sequences to byte sequences (20 bytes for the standard hash), and
    the tests of the repository show that the function returns the
    digest as a lowercase hexadecimal string. *)
Variable digest : hashInput -> list Z.

Definition SHA1 (m : hashInput) : jsstring :=
  Utils.byteArrayToHashString (map Num (digest m)).

(** MGF1 mask generation function with SHA1 hash. *)
Definition MGF1SHA1 (byteArray : jsarray) : jsstring :=
  let C1 := byteArray ++ [Num 0; Num 0; Num 0; Num 0] in
  let C2 := byteArray ++ [Num 0; Num 0; Num 0; Num 1] in
  SHA1 (HashBytes C1) ++ SHA1 (HashBytes C2).

(** g^a % N *)
Definition A (N g a : Z) : Z := BigInteger.modPow g a N.

(** u = SHA(A+B) *)
Definition u (A B : Z) : result Z :=
  (let* Ab := Utils.bigIntegerToBytes A 128 in
   let* Bb := Utils.bigIntegerToBytes B 128 in
   let ABb := Ab ++ Bb in
   Ok (BigInteger.fromString16 (SHA1 (HashBytes ABb))))%result.

(** k = SHA(N + PAD(g)) *)
Definition k (N g : Z) : result Z :=
  (let* Nb := Utils.bigIntegerToBytes N 128 in
   let* gb := Utils.bigIntegerToBytes g 128 in
   let Ngb := Nb ++ gb in
   Ok (BigInteger.fromString16 (SHA1 (HashBytes Ngb))))%result.

(** k * v + g^b *)
Definition B (N g v b : Z) : result Z :=
  (let* kk := k N g in
   Ok ((kk * v + BigInteger.modPow g b N) mod N))%result.

(** x = SHA(salt + SHA(username + ":" + password)) *)
Definition x (salt : jsarray) (username password : option jsstring) : Z :=
  let username := orEmpty username in
  let password := orEmpty password in
  let concat1 := username ++ str ":" ++ password in
  let concat2 := salt ++ Utils.hashStringToByteArray (SHA1 (HashString concat1)) in
  BigInteger.fromString16 (SHA1 (HashBytes concat2)).

(** The client side value of "S". *)
Definition Sc (N g B k x a u : Z) : Z :=
  BigInteger.modPow (B + (k * (N - BigInteger.modPow g x N)) mod N) (a + u * x) N.

(** The server side value of "S". *)
Definition Ss (N A v u b : Z) : Z :=
  BigInteger.modPow (A * BigInteger.modPow v u N) b N.

(** "K", the strong session key. *)
Definition K (S : Z) : result jsarray :=
  (let* Sb := Utils.bigIntegerToBytes S 128 in
   Ok (Utils.hashStringToByteArray (MGF1SHA1 Sb)))%result.

(** "M", the client's proof of "K". *)
Definition Mc (N g : Z) (username : option jsstring) (salt : jsarray)
    (A B : Z) (K : jsarray) : result jsstring :=
  (let username := orEmpty username in
   let* Nb := Utils.bigIntegerToBytes N 128 in
   let* gb := Utils.bigIntegerToBytes g 1 in
   let shaN := SHA1 (HashBytes Nb) in
   let shag := SHA1 (HashBytes gb) in
   let* xored := Utils.xorHashStrings shaN shag in
   let ret := Utils.hashStringToByteArray xored in
   let shau := Utils.hashStringToByteArray (SHA1 (HashString username)) in
   let* Ab := Utils.bigIntegerToBytes A 128 in
   let* Bb := Utils.bigIntegerToBytes B 128 in
   Ok (SHA1 (HashBytes (ret ++ shau ++ salt ++ Ab ++ Bb ++ K))))%result.

(** "M", the server's proof of "K". *)
Definition Ms (A : Z) (M : jsstring) (K : jsarray) : result jsstring :=
  (let M := Utils.hashStringToByteArray M in
   let* Ab := Utils.bigIntegerToBytes A 128 in
   Ok (SHA1 (HashBytes (Ab ++ M ++ K))))%result.

(** "V", the password verifier. *)
Definition v (N g x : Z) : Z := BigInteger.modPow g x N.

(** *** The client role *)

(** Set the identity information (username and password). *)
Definition setIdentity (this : Client.t) (username password : option jsstring)
    : Client.t :=
  Client.mk username password (Client.modulus this) (Client.generator this)
    (Client.salt this) (Client.serverPublicKey this) (Client.sharedKey this).

(** Configure the client for the modulus, generator, salt, and server's
    public key. *)
Definition setServerInfo (this : Client.t) (serverInfo : ServerInfo)
    : result Client.t :=
  match si_modulus serverInfo, si_generator serverInfo,
        si_salt serverInfo, si_serverPublicKey serverInfo with
  | Some N, Some g, Some s, Some B =>
      Ok (Client.mk (Client.username this) (Client.password this)
            (Some N) (Some g) (Some s) (Some B) (Client.sharedKey this))
  | _, _, _, _ => Throw IncompleteServerInfoError
  end.

(** Compute the client's public key (A) and proof (M) from the server
    info. [rnd] is the value the random number generator hands to
    [SRP.a()]. *)
Definition generatePublicKeyAndProof (this : Client.t) (rnd : Z)
    : traced (Client.t * ClientParams) :=
  match Client.serverPublicKey this, Client.modulus this with
  | Some B, Some N =>
      if B mod N =? 0 then tthrow PrecheckFailedError
      else
        (let! a := call Op_a (Ok rnd) in
         let! A := call Op_A (let* g := arg (Client.generator this) in
                              Ok (A N g a))%result in
         let! u := call Op_u (u A B) in
         if u =? 0 then tthrow PrecheckFailedError
         else
           let! k := call Op_k (let* g := arg (Client.generator this) in
                                k N g)%result in
           if k =? 0 then tthrow PrecheckFailedError
           else
             let! x := call Op_x
                         (let* s := arg (Client.salt this) in
                          Ok (x s (Client.username this) (Client.password this)))%result in
             let! S := call Op_Sc (let* g := arg (Client.generator this) in
                                   Ok (Sc N g B k x a u))%result in
             let! K := call Op_K (K S) in
             let! M := call Op_Mc
                         (let* g := arg (Client.generator this) in
                          let* s := arg (Client.salt this) in
                          Mc N g (Client.username this) s A B K)%result in
             tret (Client.mk (Client.username this) (Client.password this)
                     (Client.modulus this) (Client.generator this)
                     (Client.salt this) (Client.serverPublicKey this) (Some K),
                   mkClientParams A M))%traced
  | _, _ => tthrow TypeError
  end.

(** *** The server role *)

(** Begin a new login session. [rnd] is the value handed to [SRP.b()]. *)
Definition startLogin (this : Server.t) (username : jsstring) (rnd : Z)
    : result (Server.t * ServerInfo) :=
  (let* entry := Server.lookupFunc this username in
   let N := BigInteger.fromString16 (Utils.byteArrayToHashString (entry_n entry)) in
   let g := BigInteger.fromString16 (Utils.byteArrayToHashString (entry_g entry)) in
   let v := BigInteger.fromString16 (Utils.byteArrayToHashString (entry_v entry)) in
   let s := entry_s entry in
   let b := rnd in
   let* B := B N g v b in
   Ok (Server.mk (Server.lookupFunc this) (Some N) (Some g) (Some s) (Some b)
         (Some B) (Some v) (Server.sharedKey this),
       mkServerInfo (Some N) (Some g) (Some s) (Some B) None))%result.

(** Finish a login session. *)
Definition finishLogin (this : Server.t) (clientParams : ClientParams)
    : result (Server.t * jsstring) :=
  (let A := clientPublicKey clientParams in
   let Mc := clientProof clientParams in
   let* u := (let* B := arg (Server.serverPublicKey this) in u A B) in
   if u =? 0 then Throw PrecheckFailedError
   else
     let* S := (let* N := arg (Server.modulus this) in
                let* v := arg (Server.verifier this) in
                let* b := arg (Server.serverPrivateKey this) in
                Ok (Ss N A v u b)) in
     let* K := K S in
     let* M := Ms A Mc K in
     Ok (Server.mk (Server.lookupFunc this) (Server.modulus this)
           (Server.generator this) (Server.salt this)
           (Server.serverPrivateKey this) (Server.serverPublicKey this)
           (Server.verifier this) (Some K),
         M))%result.

End WithDigest.
End SRP.

(** ** index.js *)

Record PrimeGroup : Type := mkPrimeGroup {
  n : Z;
  g : Z
}.

(** These are the 1024-bit primes and generators, stored as base64 and
    turned into a hex string in order to become BigIntegers. *)
Definition primes : list PrimeGroup :=
  map (fun prime : jsstring * jsstring =>
         mkPrimeGroup
           (BigInteger.fromString16 (Utils.b64tohex (fst prime)))
           (BigInteger.fromString16 (Utils.b64tohex (snd prime))))
    [ (str "ieJUvpnjDnS8CjQLseVMV6+bLPH2bNQLFVj1nVgSrCdErkLGUGhosubcgk6I7XoqM417RFquVMZvqgXMwggvoJyvy003qXK1bukOLlW1cRW6KLCzRBljPsMG6WeNbKqAatVX1MDHtc/d35B4q2ZJ/UXDzFCE2H/MbbJH7yylr2c=",
       str "Cw==");
      (str "1XFmKuymyyba31KcEoWXHJco2eqggRxU9/ojMPPAkMaMRGw9WxIgEpfZGsxBOlY/ZciBaFWhbZd6gYK3AEYYEiW1N+noFDjBQyonPk3ZguElv9DgB8bv/bw9+U9o8DK1ScjJkrejEvoP2r9Bn6nANPd52l05digkV68v26fzb0c=",
       str "EQ==");
      (str "iJWQ/xNLgaQM8A3XgQ4jmr4yOw4EQ8pcjQ2pJENouY9KfM5kjOGJdiOLnVYZqzDM6bk7wIVCBoO883dnWo4iXVvjsP1EPZ8fs9D2/u1bXtfcq7+ZWgvWGAmaiv9k2SAU8tq4W4ftseMg+CD1qtpGXylIxjWiR4GteZdgbFAS8Mc=",
       str "BQ==");
      (str "5axg064+LI3qRPuYNbgpjlEqoFLpA6VMdJfHs4kJGo74Cl2o4E5JXwkceD26WxT6PzwhHZeqpDbJOgFHZ32OqLibrkDrLnL2pw3GDmoQ6lIPOLgUJjCmkrN35S+dXsFxMzXOLsZwz8JwojmjF+DwnRKCv+Uf49V378xvX7pg4hc=",
       str "BQ==");
      (str "oOFpUEn0CdvWkCF3heD/etjalOiuis53GgbgIaNbh6JTKiFgs5qN1PuKXBIGhtQ9tmxj+JiZAUMzV5AylidbB1YN/l1DMq/7YZoD1nySkDwF0YS3aJMt+Q4S5PzHuoDazCI//ZzCL8nDG565Aunbgx+kQgr37dsYSdDY8rdOOVc=",
       str "BQ==") ].

(** [document.cookie.search('_appwebSessionId_') != -1]: the pattern has
    no special character, so the search is for the substring. *)
Definition hasSessionCookie (cookie : jsstring) : bool :=
  negb (JS.indexOf cookie (str "_appwebSessionId_") =? -1).

Definition isLineTerminator (c : Z) : bool :=
  (c =? 10) || (c =? 13) || (c =? 8232) || (c =? 8233).

Fixpoint takeLine (s : jsstring) : jsstring :=
  match s with
  | [] => []
  | c :: s' => if isLineTerminator c then [] else c :: takeLine s'
  end.

(** The first capture of the pattern "Logged in as: " followed by the
    rest of the line; without a match the capture is read from [null]. *)
Definition getUserNameFromLoggedInString (s : jsstring) : result jsstring :=
  let i := JS.indexOf s (str "Logged in as: ") in
  if i =? -1 then Throw TypeError
  else Ok (takeLine (JS.substrFrom s (i + 14))).

(** An element of the parsed document: its tag (absent on text nodes),
    its text content and its children. *)
#[local] Unset Elimination Schemes.
Inductive XmlNode : Type :=
| mkXmlNode (tagName : option jsstring) (textContent : jsstring)
    (childNodes : list XmlNode).
#[local] Set Elimination Schemes.

Definition tagName (x : XmlNode) : option jsstring :=
  match x with mkXmlNode t _ _ => t end.
Definition getText (x : XmlNode) : jsstring :=
  match x with mkXmlNode _ t _ => t end.
Definition childNodes (x : XmlNode) : list XmlNode :=
  match x with mkXmlNode _ _ c => c end.

Definition tagIs (x : XmlNode) (name : string) : bool :=
  bool_decide (tagName x = Some (str name)).

Record Permission : Type := mkPermission {
  name : jsstring;
  builtin : bool;
  id : jsnum
}.

Definition Permission_new (xmlNode : XmlNode) : Permission :=
  fold_left
    (fun this cnode =>
       if tagIs cnode "Name" then mkPermission (getText cnode) (builtin this) (id this)
       else if tagIs cnode "BuiltIn" then
         mkPermission (name this) (negb (bool_decide (getText cnode = []))) (id this)
       else if tagIs cnode "ID" then
         mkPermission (name this) (builtin this) (JS.parseInt (getText cnode) 0)
       else this)
    (childNodes xmlNode)
    (mkPermission [] false (Num (-1))).

(** [permissions[p.name] = p]; as for strings, the name [__proto__]
    creates no property. *)
Definition assignPermission (permissions : gmap jsstring Permission) (p : Permission)
    : gmap jsstring Permission :=
  if bool_decide (name p = str "__proto__") then permissions
  else <[name p := p]> permissions.

Definition _parsePermissions (root : XmlNode) : result (gmap jsstring Permission) :=
  if negb (tagIs root "Permissions") then Throw UnknownElementError
  else
    Ok (fold_left
          (fun permissions cnode =>
             if tagIs cnode "Permission"
             then assignPermission permissions (Permission_new cnode)
             else permissions)
          (childNodes root) ∅).

(** The module's variables. *)
Record AuthState : Type := mkAuthState {
  srpClient : Client.t;
  loggedInUser : jsstring;
  cachedPermissions : option (gmap jsstring Permission);
  _loggedInUser : option jsstring
}.

(** The state at load time. *)
Definition initialState : AuthState :=
  mkAuthState Client.new [] None (Some []).

Definition set_srpClient (c : Client.t) (st : AuthState) : AuthState :=
  mkAuthState c (loggedInUser st) (cachedPermissions st) (_loggedInUser st).
Definition set_cachedPermissions (p : gmap jsstring Permission) (st : AuthState)
    : AuthState :=
  mkAuthState (srpClient st) (loggedInUser st) (Some p) (_loggedInUser st).
Definition set_loggedInUser (u : option jsstring) (st : AuthState) : AuthState :=
  mkAuthState (srpClient st) (loggedInUser st) (cachedPermissions st) u.

(** This splits up a parameters string (the copy of index.js). *)
Definition splitParamsString := Utils.splitParamsString.

(** [x > y] and [l[i]] on numbers. *)
Definition gt (x : jsnum) (y : Z) : bool :=
  match x with
  | NaN => false
  | Num z => y <? z
  end.

Definition index {A} (l : list A) (i : jsnum) : option A :=
  match i with
  | NaN => None
  | Num z => if z <? 0 then None else nth_error l (Z.to_nat z)
  end.

(** Decode the SRP parameters from the server. The argument is the
    value of the header, [None] when the header is absent. A field named
    [hasOwnProperty] in the header shadows the method the function
    calls, and the call of a string is a type error. *)
Definition decodeServerParamsString (s : option jsstring) : result ServerInfo :=
  match s with
  | None | Some [] => Ok (mkServerInfo None None None None None)
  | Some s =>
      (let* params := splitParamsString s in
       match params !! str "hasOwnProperty" with
       | Some _ => Throw TypeError
       | None =>
       match params !! str "N", params !! str "s", params !! str "B",
             params !! str "ss" with
       | Some pN, Some ps, Some pB, Some pss =>
           let N := JS.parseInt pN 10 in
           let s := Base64.decode ps in
           let B := BigInteger.fromString16 (Utils.b64tohex pB) in
           if gt N (JS.len primes) then Throw IndexError
           else
             match index primes N with
             | None => Throw TypeError
             | Some group =>
                 Ok (mkServerInfo (Some (n group)) (Some (g group)) (Some s)
                       (Some B) (Some pss))
             end
       | _, _, _, _ => Throw MissingParamsError
       end
       end)%result
  end.

Record Request : Type := mkRequest {
  url : jsstring;
  method : jsstring;
  requestHeaders : list (jsstring * jsstring);
  body : option jsstring
}.

Record Response : Type := mkResponse {
  status : Z;
  header : jsstring -> option jsstring;
  text : jsstring
}.

(** What a promise of the module resolves with. *)
Inductive jsret : Type :=
| JTrue
| JFalse
| JUndefined.

(** [a == b] for a string and a value that may be [undefined]. *)
Definition looseEq (a : jsstring) (b : option jsstring) : bool :=
  bool_decide (Some a = b).

Section Controller.

Variable digest : hashInput -> list Z.

(** The package [xml-parse-from-string], which may throw. *)
Variable parseXML : jsstring -> result XmlNode.

(** The network: a promise of [fetch] settles with a response ([Ok])
    or is rejected ([Throw]). *)
Variable fetch : Request -> result Response.

(** Retrieve the user permissions for a user. *)
Definition getAggregateUserPermissions (username : option jsstring)
    : result (gmap jsstring Permission) :=
  (let* response :=
     fetch (mkRequest
              (str "/LVWSAuthSvc/GetAggregateUserPermissions?username="
                 ++ orEmpty username)
              (str "GET") [(str "Accept", str "text/xml")] None) in
   let* doc := parseXML (text response) in
   _parsePermissions doc)%result.

Definition updatePermissionsCache (st : AuthState) : result jsret * AuthState :=
  match getAggregateUserPermissions (Some (loggedInUser st)) with
  | Throw e => (Throw e, st)
  | Ok permissions => (Ok JTrue, set_cachedPermissions permissions st)
  end.

(** Synchronize the client state with the server state: resolves with
    [true] if logged in, [false] if logged out. *)
Definition updateFromSession (st : AuthState) (cookie : jsstring)
    : result jsret * AuthState :=
  if negb (hasSessionCookie cookie) then (Ok JFalse, st)
  else
    match fetch (mkRequest (str "/Login") (str "GET") [] None) with
    | Throw e => (Throw e, st)
    | Ok response =>
        if status response =? 200 then
          match getUserNameFromLoggedInString (text response) with
          | Throw e => (Throw e, st)
          | Ok user => (Ok JTrue, set_loggedInUser (Some user) st)
          end
        else (Ok JFalse, st)
    end.

(** The first [then] of [login]: the handler of the answer to the
    initial request. It yields the promise of the next response. *)
Definition login_onInitialResponse (st : AuthState) (username : option jsstring)
    (rnd : Z) (response : Response) : result Response * AuthState :=
  if status response =? 200 then
    match getUserNameFromLoggedInString (text response) with
    | Throw e => (Throw e, st)
    | Ok user =>
        let st := set_loggedInUser (Some user) st in
        if looseEq user username then
          (fetch (mkRequest
                    (str "/LVWSAuthSvc/GetAggregateUserPermissions?username="
                       ++ orEmpty username)
                    (str "GET") [(str "Accept", str "text/xml")] None),
           st)
        else (Throw AlreadyLoggedInError, st)
    end
  else if status response =? 403 then
    let serverParams := header response (str "X-NI-AUTH-PARAMS") in
    match decodeServerParamsString serverParams with
    | Throw e => (Throw e, st)
    | Ok serverInfo =>
        match SRP.setServerInfo (srpClient st) serverInfo with
        | Throw e => (Throw e, st)
        | Ok c =>
            let st := set_srpClient c st in
            match snd (SRP.generatePublicKeyAndProof digest c rnd) with
            | Throw e => (Throw e, st)
            | Ok (c, clientParams) =>
                let st := set_srpClient c st in
                match Utils.bigIntToBase64 (clientPublicKey clientParams) 128 with
                | Throw e => (Throw e, st)
                | Ok a64 =>
                    let data :=
                      str "A=" ++ Utils.makeUrlBase64 a64
                        ++ str "&M="
                        ++ Utils.makeUrlBase64
                             (Utils.hexStringToBase64 (clientProof clientParams))
                        ++ str "&ss="
                        ++ default (str "undefined") (si_loginToken serverInfo) in
                    (fetch (mkRequest (str "/Login") (str "POST")
                              [(str "Content-Type",
                                str "application/x-www-form-urlencoded")]
                              (Some data)),
                     st)
                end
            end
        end
    end
  else (Throw UnknownStatusError, st).

(** The second [then] of [login]: the handler of the answer to the
    proof (or to the permission request). *)
Definition login_onFinalResponse (st : AuthState) (username : option jsstring)
    (response : Response) : result jsret * AuthState :=
  if status response =? 200 then
    let st := set_loggedInUser username st in
    match (let* doc := parseXML (text response) in _parsePermissions doc)%result with
    | Throw e => (Throw e, st)
    | Ok newPermissions => (Ok JTrue, set_cachedPermissions newPermissions st)
    end
  else if status response =? 403 then (Throw AuthenticationFailedError, st)
  else (Ok JUndefined, st).

(** Log in to NIAuth. *)
Definition login (st : AuthState) (username password : option jsstring) (rnd : Z)
    : result jsret * AuthState :=
  let st := set_srpClient (SRP.setIdentity (srpClient st) username password) st in
  match fetch (mkRequest (str "/Login?username=" ++ orEmpty username)
                 (str "GET") [] None) with
  | Throw e => (Throw e, st)
  | Ok response =>
      match login_onInitialResponse st username rnd response with
      | (Throw e, st) => (Throw e, st)
      | (Ok response, st) => login_onFinalResponse st username response
      end
  end.

(** Logs out of NI Auth. [cookie] is [document.cookie]. *)
Definition logout (st : AuthState) (cookie : jsstring) : result jsret * AuthState :=
  if negb (hasSessionCookie cookie) then
    (Ok JTrue, set_loggedInUser (Some []) st)
  else
    match fetch (mkRequest (str "/Logout") (str "GET") [] None) with
    | Throw e => (Throw e, st)
    | Ok response =>
        if status response =? 200 then (Ok JTrue, set_loggedInUser (Some []) st)
        else (Ok JFalse, st)
    end.

End Controller.

(** Does the currently logged-in user have permission for something?
    A cached permission named [hasOwnProperty] shadows the method, and
    the call of an object is a type error. *)
Definition hasPermission (st : AuthState) (permName : jsstring) : result bool :=
  match cachedPermissions st with
  | None => Ok false
  | Some permissions =>
      match permissions !! str "hasOwnProperty" with
      | Some _ => Throw TypeError
      | None => Ok (bool_decide (is_Some (permissions !! permName)))
      end
  end.

Definition getUserName (st : AuthState) : option jsstring := _loggedInUser st.

(** ** The standard 160-bit hash

    Modelled from the spec: [lib/SHA1.js] is not among the sources at
    hand; the design document names it the standard 160-bit
    cryptographic hash, and the tests of the repository fix its value on
    the bytes of "abc" and its treatment of negative byte values (a byte
    is taken modulo 256). It serves as the instance of [digest] on which
    the concrete runs below are evaluated. The bytes hashed for a string
    are its code units modulo 256. *)

Module Sha1.

Definition w32 (x : Z) : Z := x mod 4294967296.

Definition rotl (c x : Z) : Z :=
  w32 (Z.lor (Z.shiftl x c) (Z.shiftr x (32 - c))).

Definition be (count : nat) (x : Z) : list Z :=
  map (fun i => Z.shiftr x (8 * Z.of_nat i) mod 256) (rev (seq 0 count)).

Definition pad (msg : list Z) : list Z :=
  let l := JS.len msg in
  msg ++ [128] ++ repeat 0 (Z.to_nat ((55 - l) mod 64)) ++ be 8 (8 * l).

Fixpoint words (bs : list Z) : list Z :=
  match bs with
  | a :: b :: c :: d :: rest => (((a * 256 + b) * 256 + c) * 256 + d) :: words rest
  | _ => []
  end.

(** The message schedule, most recent word first. *)
Fixpoint schedule (count : nat) (ws : list Z) : list Z :=
  match count with
  | O => ws
  | S count' =>
      let w :=
        rotl 1 (Z.lxor (Z.lxor (nth 2 ws 0) (nth 7 ws 0))
                  (Z.lxor (nth 13 ws 0) (nth 15 ws 0))) in
      schedule count' (w :: ws)
  end.

Definition f (t b c d : Z) : Z :=
  if t <? 20 then Z.lor (Z.land b c) (Z.land (4294967295 - b) d)
  else if t <? 40 then Z.lxor (Z.lxor b c) d
  else if t <? 60 then Z.lor (Z.lor (Z.land b c) (Z.land b d)) (Z.land c d)
  else Z.lxor (Z.lxor b c) d.

Definition kt (t : Z) : Z :=
  if t <? 20 then 1518500249
  else if t <? 40 then 1859775393
  else if t <? 60 then 2400959708
  else 3395469782.

Definition round (st : Z * Z * Z * Z * Z) (tw : nat * Z) : Z * Z * Z * Z * Z :=
  let '(a, b, c, d, e) := st in
  let t := Z.of_nat (fst tw) in
  (w32 (rotl 5 a + f t b c d + e + kt t + snd tw), a, rotl 30 b, c, d).

Definition compress (h : Z * Z * Z * Z * Z) (block : list Z) : Z * Z * Z * Z * Z :=
  let W := rev (schedule 64 (rev block)) in
  let '(a, b, c, d, e) := fold_left round (combine (seq 0 80) W) h in
  let '(h0, h1, h2, h3, h4) := h in
  (w32 (h0 + a), w32 (h1 + b), w32 (h2 + c), w32 (h3 + d), w32 (h4 + e)).

Fixpoint blocks (fuel : nat) (ws : list Z) (h : Z * Z * Z * Z * Z)
    : Z * Z * Z * Z * Z :=
  match fuel with
  | O => h
  | S fuel' =>
      match ws with
      | [] => h
      | _ => blocks fuel' (drop 16 ws) (compress h (take 16 ws))
      end
  end.

Definition hash (msg : list Z) : list Z :=
  let ws := words (pad msg) in
  let '(h0, h1, h2, h3, h4) :=
    blocks (length ws) ws
      (1732584193, 4023233417, 2562383102, 271733878, 3285377520) in
  be 4 h0 ++ be 4 h1 ++ be 4 h2 ++ be 4 h3 ++ be 4 h4.

Definition digest (m : hashInput) : list Z :=
  match m with
  | HashBytes bytes => hash (map Base64.byteOf bytes)
  | HashString s => hash (map (fun c => c mod 256) s)
  end.

End Sha1.

(** ** Concrete inputs for the runs evaluated below *)

Definition demoSalt : jsarray := [Num 1; Num 2; Num 3; Num 4].

(** The record of the user "alice" with the password "secret" over the
    group (23, 5), and a verifier store that holds this record alone. *)
Definition demoEntry : Entry :=
  let x := SRP.x Sha1.digest demoSalt (Some (str "alice")) (Some (str "secret")) in
  mkEntry [Num 23] [Num 5] (BigInteger.toByteArray (SRP.v 23 5 x)) demoSalt.

Definition demoLookup (username : jsstring) : result Entry :=
  if JS.isPrefix (str "alice") username && (JS.len username =? 5)
  then Ok demoEntry
  else Throw LookupError.

Definition demoClient (B : Z) : Client.t :=
  Client.mk (Some (str "alice")) (Some (str "secret")) (Some 23) (Some 5)
    (Some demoSalt) (Some B) None.

(** The same client over another group. *)
Definition clientOver (N g B : Z) : Client.t :=
  Client.mk (Some (str "alice")) (Some (str "secret")) (Some N) (Some g)
    (Some demoSalt) (Some B) None.

Definition demoPermissions : gmap jsstring Permission :=
  {[ str "Reboot" := mkPermission (str "Reboot") true (Num 7) ]}.

Definition demoState : AuthState :=
  mkAuthState Client.new [] (Some demoPermissions) (Some (str "alice")).

Definition noNetwork (r : Request) : result Response := Throw NetworkError.

Definition respond (code : Z) (r : Request) : result Response :=
  Ok (mkResponse code (fun _ => None) []).

Definition noXML (s : jsstring) : result XmlNode := Throw TypeError.

(** The modulus has exactly 1024 bits. *)
Definition is1024bit (p : PrimeGroup) : bool :=
  (2 ^ 1023 <=? n p) && (n p <? 2 ^ 1024).

(** The value of an array read as unsigned big-endian bytes, every
    element taken modulo 256 as the hash string does. *)
Definition unsignedValue (bytes : jsarray) : Z :=
  fold_left (fun acc b => acc * 256 + Base64.byteOf b) bytes 0.

(** The byte of [n] at position [i], counted from the least significant,
    as [toByteArray] gives it. *)
Definition byteAt (n : Z) (i : nat) : jsnum :=
  Num (BigInteger.toInt8 (Z.shiftr n (8 * Z.of_nat i) mod 256)).

(** The [count] bytes of [n] from position [lo] upwards, most
    significant first. *)
Definition bytesFrom (n : Z) (lo count : nat) : jsarray :=
  map (byteAt n) (rev (seq lo count)).

(** The two characters a byte contributes to a hash string. *)
Definition hexPair (b : jsnum) : jsstring :=
  [JS.hexDigit (Base64.byteOf b / 16); JS.hexDigit (Base64.byteOf b mod 16)].

(** A server that answers every GET with a challenge over the third
    group and every POST with the status 500. *)
Definition demoChallenge : Response :=
  mkResponse 403
    (fun h => if JS.isPrefix (str "X-NI-AUTH-PARAMS") h
              then Some (str "N=2,s=AQIDBA==,B=AQ==,ss=tok")
              else None)
    [].

Definition demoNetwork (r : Request) : result Response :=
  if JS.isPrefix (str "GET") (method r) then Ok demoChallenge
  else Ok (mkResponse 500 (fun _ => None) []).

(** A challenge over the first group whose B is 2^1024: the base64 of
    129 bytes, the first of them 1 and the others 0. *)
Definition oversizedChallenge : jsstring :=
  str "N=0,s=AQIDBA==,B=AQAA" ++ concat (repeat (str "AAAA") 42) ++ str ",ss=tok".

(** The parameter string of the tests of [splitParamsString]. *)
Definition testParamsString : jsstring :=
  str "N=4,s=K7YIn92KQeT9NfyZx7AYjw==,B=5axg064+LI3qRPuYDbJOgFHZ32OqLibrkDrLnL2pw3GDmoQ6lIPOLgUJjCmkrN35S+dXsFxMzXOLsZwz8JwojmjF+DwnRKCv+Uf49V378xvX7pg4hc=".

(** The order in which the client invokes the SRP operations. *)
Definition handshakeOrder : list op :=
  [Op_a; Op_A; Op_u; Op_k; Op_x; Op_Sc; Op_K; Op_Mc].

(** The client after [this.sharedKey = K]. *)
Definition withSharedKey (c : Client.t) (K : jsarray) : Client.t :=
  Client.mk (Client.username c) (Client.password c) (Client.modulus c)
    (Client.generator c) (Client.salt c) (Client.serverPublicKey c) (Some K).

(** ** Auxiliary notions for the further properties *)

#[global] Instance jsnum_eq_dec : EqDecision jsnum.
Proof. solve_decision. Defined.

(** The array with every element taken modulo 256 ([b & 0xFF]). *)
Definition maskBytes (ar : jsarray) : jsarray :=
  map (fun b => Num (Base64.byteOf b)) ar.

(** A digit or a letter from [a] to [f]. *)
Definition isLowerHex (c : Z) : bool :=
  ((48 <=? c) && (c <=? 57)) || ((97 <=? c) && (c <=? 102)).

(** What [makeUrlBase64] puts for a character. *)
Definition urlChar (c : Z) : Z :=
  if c =? 43 then 45 else if c =? 47 then 95 else c.

(** The segments joined by a separator ([Array.prototype.join]). *)
Fixpoint joinWith (sep : Z) (segs : list jsstring) : jsstring :=
  match segs with
  | [] => []
  | x :: rest =>
      match rest with
      | [] => x
      | _ :: _ => x ++ sep :: joinWith sep rest
      end
  end.

(** A parameters string written from name-value pairs:
    name=value,name=value,... *)
Definition joinParams (pairs : list (jsstring * jsstring)) : jsstring :=
  joinWith 44 (map (fun kv => kv.1 ++ 61 :: kv.2) pairs).

(** The server with the session key stored. *)
Definition serverWithSharedKey (srv : Server.t) (K : jsarray) : Server.t :=
  Server.mk (Server.lookupFunc srv) (Server.modulus srv) (Server.generator srv)
    (Server.salt srv) (Server.serverPrivateKey srv) (Server.serverPublicKey srv)
    (Server.verifier srv) (Some K).

(** A server that holds a session over the group (23, 5). *)
Definition demoServer (b B v : Z) : Server.t :=
  Server.mk demoLookup (Some 23) (Some 5) (Some demoSalt) (Some b) (Some B)
    (Some v) None.

(** The server info of a response without challenge. *)
Definition emptyServerInfo : ServerInfo := mkServerInfo None None None None None.

(** The registry fits the fixed widths of the protocol: a modulus of at
    most 128 bytes and a generator of one byte. *)
Definition fitsWidths (p : PrimeGroup) : bool :=
  (0 <? n p) && (n p <? 256 ^ 128) && (0 <=? g p) && (g p <? 256).

(** The state after [login] has stored the identity. *)
Definition withIdentity (st : AuthState) (username password : option jsstring)
    : AuthState :=
  set_srpClient (SRP.setIdentity (srpClient st) username password) st.

(** The first request of [login]. *)
Definition loginRequest (username : option jsstring) : Request :=
  mkRequest (str "/Login?username=" ++ orEmpty username) (str "GET") [] None.

(** The request for the permissions of a user. *)
Definition permissionsRequest (username : option jsstring) : Request :=
  mkRequest
    (str "/LVWSAuthSvc/GetAggregateUserPermissions?username=" ++ orEmpty username)
    (str "GET") [(str "Accept", str "text/xml")] None.

(** A server on which a session of alice is open: every request is
    answered with the status 200 and the text of the logged-in user. *)
Definition sessionNetwork (r : Request) : result Response :=
  Ok (mkResponse 200 (fun _ => None) (str "Logged in as: alice")).

(** The child elements of a permissions document that carry the
    permission of a given name. *)
Definition permissionNode (root : XmlNode) (permName : jsstring) (c : XmlNode) : Prop :=
  In c (childNodes root) /\ tagIs c "Permission" = true
  /\ name (Permission_new c) = permName.

(** A permissions document with the single permission Reboot. *)
Definition permissionsDoc : XmlNode :=
  mkXmlNode (Some (str "Permissions")) []
    [mkXmlNode (Some (str "Permission")) []
       [mkXmlNode (Some (str "Name")) (str "Reboot") [];
        mkXmlNode (Some (str "BuiltIn")) (str "true") [];
        mkXmlNode (Some (str "ID")) (str "7") []]].

Definition demoXML (s : jsstring) : result XmlNode := Ok permissionsDoc.

(** A permissions document whose only permission is named as the
    method that [hasPermission] calls. *)
Definition shadowDoc : XmlNode :=
  mkXmlNode (Some (str "Permissions")) []
    [mkXmlNode (Some (str "Permission")) []
       [mkXmlNode (Some (str "Name")) (str "hasOwnProperty") []]].

(** The element-wise exclusive or of two byte arrays. *)
Fixpoint xorBytes (a b : jsarray) : jsarray :=
  match a, b with
  | x :: a', y :: b' =>
      Num (Z.lxor (Base64.byteOf x) (Base64.byteOf y)) :: xorBytes a' b'
  | _, _ => []
  end.

(** The values of the hexadecimal digits. *)
Definition hexDigits : list Z := map Z.of_nat (seq 0 16).

(** The request that carries the client's public key and proof. *)
Definition proofRequest (clientParams : ClientParams) (a64 : jsstring)
    (serverInfo : ServerInfo) : Request :=
  mkRequest (str "/Login") (str "POST")
    [(str "Content-Type", str "application/x-www-form-urlencoded")]
    (Some
       (str "A=" ++ Utils.makeUrlBase64 a64 ++ str "&M="
          ++ Utils.makeUrlBase64 (Utils.hexStringToBase64 (clientProof clientParams))
          ++ str "&ss=" ++ default (str "undefined") (si_loginToken serverInfo))).

(** A server that answers every GET with a challenge over the third
    group and refuses every proof. *)
Definition rejectingNetwork (r : Request) : result Response :=
  if JS.isPrefix (str "GET") (method r) then Ok demoChallenge
  else Ok (mkResponse 403 (fun _ => None) []).

(** * Properties *)

(** Linear arithmetic with division and remainder by constants. *)
Ltac zdiv := Z.to_euclidean_division_equations; lia.

(** ** The tests of the repository *)

Example SHA1_abc :
  SRP.SHA1 Sha1.digest (HashBytes [Num 97; Num 98; Num 99])
  = str "a9993e364706816aba3e25717850c26c9cd0d89d".
Proof. vm_compute. reflexivity. Qed.

Example SHA1_negative_values :
  SRP.SHA1 Sha1.digest (HashBytes [Num 0; Num 0; Num 0; Num 0; Num 255])
  = str "836adc5637c4320983016c50c1c3625f9f92ce1a"
  /\ SRP.SHA1 Sha1.digest (HashBytes [Num 0; Num 0; Num 0; Num 0; Num (-1)])
     = str "836adc5637c4320983016c50c1c3625f9f92ce1a"
  /\ SRP.SHA1 Sha1.digest (HashBytes [Num (-1); Num 0; Num 0; Num 0; Num 0])
     = str "88f3c8e6e819aa83da1ce48353b2bddaad759fb9".
Proof.
  split; [vm_compute; reflexivity|].
  split; vm_compute; reflexivity.
Qed.

Example splitParamsString_test :
  exists params,
    Utils.splitParamsString testParamsString = Ok params
    /\ params !! str "N" = Some (str "4")
    /\ params !! str "s" = Some (str "K7YIn92KQeT9NfyZx7AYjw==")
    /\ params !! str "B"
       = Some (str "5axg064+LI3qRPuYDbJOgFHZ32OqLibrkDrLnL2pw3GDmoQ6lIPOLgUJjCmkrN35S+dXsFxMzXOLsZwz8JwojmjF+DwnRKCv+Uf49V378xvX7pg4hc=").
Proof.
  let r := eval vm_compute in (Utils.splitParamsString testParamsString) in
  match r with Ok ?params => exists params end.
  split; [vm_compute; reflexivity|].
  split; [vm_compute; reflexivity|].
  split; vm_compute; reflexivity.
Qed.

(** ** Utils.byteStringToByteArray *)

Lemma byteStringToByteArray_loop_spec (count : nat) (i : Z) (ar : list jsstring) :
  Utils.byteStringToByteArray_loop count i ar
  = ar ++ map (fun j => JS.fromCharCode (i + Z.of_nat j)) (seq 0 count).
Proof.
  revert i ar. induction count as [|count IH]; intros i ar.
  - simpl. now rewrite app_nil_r.
  - cbn [Utils.byteStringToByteArray_loop]. rewrite IH.
    rewrite <- app_assoc. f_equal.
    cbn [seq map app]. rewrite Z.add_0_r. f_equal.
    rewrite <- seq_shift, map_map.
    apply map_ext. intros j. f_equal. lia.
Qed.

(** C10. The result of [byteStringToByteArray] is, for a string of length
    n, the array of [String.fromCharCode(0)] ... [String.fromCharCode(n-1)]:
    it is built from the indices and the length alone, and no character
    of the input enters it. *)
Theorem byteStringToByteArray_indices (s : jsstring) :
  Utils.byteStringToByteArray s
  = map (fun j => JS.fromCharCode (Z.of_nat j)) (seq 0 (length s)).
Proof.
  unfold Utils.byteStringToByteArray.
  rewrite byteStringToByteArray_loop_spec. reflexivity.
Qed.

Corollary byteStringToByteArray_length_only (s1 s2 : jsstring) :
  length s1 = length s2 ->
  Utils.byteStringToByteArray s1 = Utils.byteStringToByteArray s2.
Proof.
  intros H. unfold Utils.byteStringToByteArray.
  now rewrite !byteStringToByteArray_loop_spec, H.
Qed.

Example byteStringToByteArray_AB :
  Utils.byteStringToByteArray (str "AB") = [[0]; [1]]
  /\ Utils.byteStringToByteArray (str "AB") <> [str "A"; str "B"].
Proof. split; [reflexivity | discriminate]. Qed.

(** ** The prime group registry *)

Lemma primes_generators : map g primes = [11; 17; 5; 5; 5].
Proof. vm_compute. reflexivity. Qed.

Lemma primes_1024bit : forallb is1024bit primes = true.
Proof. vm_compute. reflexivity. Qed.

(** The generator of the second group is 17, which is none of 5, 11
    and 13. *)
Lemma primes_generator_17_counterexample :
  ~ Forall (fun p => g p = 5 \/ g p = 11 \/ g p = 13) primes.
Proof.
  intros H.
  assert (Hg : Forall (fun z => z = 5 \/ z = 11 \/ z = 13) (map g primes)).
  { apply List.Forall_map. exact H. }
  rewrite primes_generators in Hg.
  inversion Hg as [|? ? _ Hg']; subst.
  inversion Hg' as [|? ? H17 _]; subst.
  lia.
Qed.

(** What the table decides about the registry: it is a fixed sequence
    of exactly five groups, every modulus has exactly 1024 bits, and the
    generators are, in order, 11, 17, 5, 5 and 5. Whether the moduli are
    safe primes is not decided here. *)
Theorem primes_registry :
  length primes = 5%nat
  /\ Forall (fun p => 2 ^ 1023 <= n p < 2 ^ 1024) primes
  /\ map g primes = [11; 17; 5; 5; 5]
  /\ Forall (fun p => g p = 5 \/ g p = 11 \/ g p = 17) primes.
Proof.
  split; [reflexivity|]. split; [|split; [exact primes_generators|]].
  - apply List.Forall_forall. intros p Hp.
    pose proof primes_1024bit as Hb.
    rewrite forallb_forall in Hb. specialize (Hb p Hp).
    unfold is1024bit in Hb. apply andb_true_iff in Hb as [H1 H2].
    split; [now apply Z.leb_le | now apply Z.ltb_lt].
  - assert (Hg : Forall (fun z => z = 5 \/ z = 11 \/ z = 17) (map g primes)).
    { rewrite primes_generators. repeat constructor; lia. }
    apply List.Forall_map in Hg. exact Hg.
Qed.

(** ** decodeServerParamsString *)

Lemma primes_length : JS.len primes = 5.
Proof. reflexivity. Qed.

(** The guard lets exactly the indices up to 5 through. *)
Lemma index_guard (z : Z) : gt (Num z) (JS.len primes) = false <-> z <= 5.
Proof.
  rewrite primes_length. unfold gt. rewrite Z.ltb_ge. reflexivity.
Qed.

(** The lookup finds a group exactly for the indices from 0 to 4. *)
Lemma index_primes (z : Z) :
  index primes (Num z) = None <-> z < 0 \/ 5 <= z.
Proof.
  unfold index. destruct (Z.ltb_spec z 0) as [Hneg|Hpos].
  - split; [intros _; now left | reflexivity].
  - rewrite nth_error_None. change (length primes) with 5%nat.
    split; intros H; [right; lia | destruct H; lia].
Qed.

(** C4. On the index 5, one past the last group, the guard
    [params.N > primes.length] does not fire: the group is looked up, is
    not there, and the read of its modulus raises the runtime's type
    error instead of the index error. *)
Theorem decodeServerParamsString_index_5 :
  decodeServerParamsString (Some (str "N=5,s=AA==,B=AQ==,ss=tok")) = Throw TypeError
  /\ gt (Num 5) (JS.len primes) = false
  /\ index primes (Num 5) = None.
Proof.
  split; [vm_compute; reflexivity|].
  split; [vm_compute; reflexivity|].
  apply index_primes. lia.
Qed.

Example decodeServerParamsString_negative_index :
  decodeServerParamsString (Some (str "N=-1,s=AA==,B=AQ==,ss=tok")) = Throw TypeError.
Proof. vm_compute. reflexivity. Qed.

Example decodeServerParamsString_not_a_number :
  decodeServerParamsString (Some (str "N=four,s=AA==,B=AQ==,ss=tok")) = Throw TypeError.
Proof. vm_compute. reflexivity. Qed.

Example decodeServerParamsString_index_6 :
  decodeServerParamsString (Some (str "N=6,s=AA==,B=AQ==,ss=tok")) = Throw IndexError.
Proof. vm_compute. reflexivity. Qed.

Example decodeServerParamsString_index_4 :
  decodeServerParamsString (Some (str "N=4,s=AA==,B=AQ==,ss=tok"))
  = Ok (mkServerInfo (option_map n (nth_error primes 4)) (Some 5) (Some [Num 0])
          (Some 1) (Some (str "tok"))).
Proof. vm_compute. reflexivity. Qed.

(** What the decoder does with the index, for a header that carries the
    four fields. *)
Lemma decodeServerParamsString_by_index (s : jsstring)
    (params : gmap jsstring jsstring) (pN ps pB pss : jsstring) :
  s <> [] ->
  splitParamsString s = Ok params ->
  params !! str "hasOwnProperty" = None ->
  params !! str "N" = Some pN -> params !! str "s" = Some ps ->
  params !! str "B" = Some pB -> params !! str "ss" = Some pss ->
  decodeServerParamsString (Some s)
  = match JS.parseInt pN 10 with
    | NaN => Throw TypeError
    | Num z =>
        if 5 <? z then Throw IndexError
        else match nth_error primes (Z.to_nat z) with
             | Some group =>
                 if z <? 0 then Throw TypeError
                 else Ok (mkServerInfo (Some (n group)) (Some (g group))
                            (Some (Base64.decode ps))
                            (Some (BigInteger.fromString16 (Utils.b64tohex pB)))
                            (Some pss))
             | None => Throw TypeError
             end
    end.
Proof.
  intros Hs Hsplit Hown HN Hs' HB Hss.
  unfold decodeServerParamsString.
  destruct s as [|c s]; [congruence|].
  rewrite Hsplit. cbn [rbind]. rewrite Hown, HN, Hs', HB, Hss.
  destruct (JS.parseInt pN 10) as [|z]; [reflexivity|].
  unfold gt. rewrite primes_length.
  destruct (5 <? z); [reflexivity|].
  unfold index. destruct (z <? 0).
  - destruct (nth_error primes (Z.to_nat z)); reflexivity.
  - reflexivity.
Qed.

(** ** login: the answer to the proof *)

Example login_final_status_500 (parseXML : jsstring -> result XmlNode)
    (st : AuthState) (username : option jsstring)
    (hdr : jsstring -> option jsstring) (txt : jsstring) :
  login_onFinalResponse parseXML st username (mkResponse 500 hdr txt)
  = (Ok JUndefined, st).
Proof. reflexivity. Qed.

(** C6. A response to the proof whose status is neither 200 nor 403 is
    not rejected: the handler falls through both tests, so the promise
    of [login] resolves with [undefined] instead of failing with the
    unknown-status error, and the state stays as the first handler left
    it. *)
Theorem login_final_other_status (digest : hashInput -> list Z)
    (parseXML : jsstring -> result XmlNode) (fetch : Request -> result Response)
    (st st' : AuthState) (username password : option jsstring) (rnd : Z)
    (r1 r2 : Response) :
  fetch (mkRequest (str "/Login?username=" ++ orEmpty username) (str "GET") [] None)
  = Ok r1 ->
  login_onInitialResponse digest fetch
    (set_srpClient (SRP.setIdentity (srpClient st) username password) st)
    username rnd r1 = (Ok r2, st') ->
  status r2 <> 200 -> status r2 <> 403 ->
  login_onFinalResponse parseXML st' username r2 = (Ok JUndefined, st')
  /\ login digest parseXML fetch st username password rnd = (Ok JUndefined, st')
  /\ fst (login digest parseXML fetch st username password rnd)
     <> Throw UnknownStatusError.
Proof.
  intros H1 H2 H200 H403.
  assert (Hfinal : login_onFinalResponse parseXML st' username r2
                   = (Ok JUndefined, st')).
  { unfold login_onFinalResponse.
    destruct (Z.eqb_spec (status r2) 200); [contradiction|].
    destruct (Z.eqb_spec (status r2) 403); [contradiction|].
    reflexivity. }
  split; [exact Hfinal|].
  assert (Hlogin : login digest parseXML fetch st username password rnd
                   = (Ok JUndefined, st')).
  { unfold login. rewrite H1, H2. exact Hfinal. }
  split; [exact Hlogin|].
  rewrite Hlogin. discriminate.
Qed.

Lemma login_final_status_403 (parseXML : jsstring -> result XmlNode)
    (st : AuthState) (username : option jsstring) (response : Response) :
  status response = 403 ->
  login_onFinalResponse parseXML st username response
  = (Throw AuthenticationFailedError, st).
Proof.
  intros H. unfold login_onFinalResponse. rewrite H. reflexivity.
Qed.

Lemma login_final_status_200 (parseXML : jsstring -> result XmlNode)
    (st : AuthState) (username : option jsstring) (response : Response)
    (doc : XmlNode) (perms : gmap jsstring Permission) :
  status response = 200 ->
  parseXML (text response) = Ok doc ->
  _parsePermissions doc = Ok perms ->
  login_onFinalResponse parseXML st username response
  = (Ok JTrue, mkAuthState (srpClient st) (loggedInUser st) (Some perms) username).
Proof.
  intros H Hdoc Hperms. unfold login_onFinalResponse.
  rewrite H, Hdoc. cbn [rbind Z.eqb Pos.eqb]. rewrite Hperms. reflexivity.
Qed.

(** The initial request answered by a challenge sends the initial
    handler's next response to the final handler; the first handler, in
    contrast, rejects a status it does not know. *)
Lemma login_initial_other_status (digest : hashInput -> list Z)
    (fetch : Request -> result Response) (st : AuthState)
    (username : option jsstring) (rnd : Z) (response : Response) :
  status response <> 200 -> status response <> 403 ->
  login_onInitialResponse digest fetch st username rnd response
  = (Throw UnknownStatusError, st).
Proof.
  intros H200 H403. unfold login_onInitialResponse.
  destruct (Z.eqb_spec (status response) 200); [contradiction|].
  destruct (Z.eqb_spec (status response) 403); [contradiction|].
  reflexivity.
Qed.

Lemma login_chain (digest : hashInput -> list Z)
    (parseXML : jsstring -> result XmlNode) (fetch : Request -> result Response)
    (st st' : AuthState) (username password : option jsstring) (rnd : Z)
    (r1 r2 : Response) :
  fetch (mkRequest (str "/Login?username=" ++ orEmpty username) (str "GET") [] None)
  = Ok r1 ->
  login_onInitialResponse digest fetch
    (set_srpClient (SRP.setIdentity (srpClient st) username password) st)
    username rnd r1 = (Ok r2, st') ->
  login digest parseXML fetch st username password rnd
  = login_onFinalResponse parseXML st' username r2.
Proof.
  intros H1 H2. unfold login. rewrite H1, H2. reflexivity.
Qed.

(** ** logout *)

(** C7, counterexample. After a logout without a session cookie the
    cached permission set is still there, and [hasPermission] still
    answers from it. *)
Lemma logout_keeps_permissions_counterexample :
  hasSessionCookie [] = false
  /\ fst (logout noNetwork demoState []) = Ok JTrue
  /\ cachedPermissions (snd (logout noNetwork demoState [])) = Some demoPermissions
  /\ hasPermission (snd (logout noNetwork demoState [])) (str "Reboot") = Ok true.
Proof.
  split; [reflexivity|]. split; [reflexivity|]. split; [reflexivity|].
  vm_compute. reflexivity.
Qed.

(** C7, amended. Without a session cookie, and on a response with
    status 200, [logout] resets the logged-in user name to the empty
    string and resolves with [true]; on any other status it resolves
    with [false] and changes nothing. In every case the cached
    permission set, the SRP client and [loggedInUser] are as before. *)
Theorem logout_effect (fetch : Request -> result Response) (st : AuthState)
    (cookie : jsstring) :
  let out := logout fetch st cookie in
  let cleared :=
    mkAuthState (srpClient st) (loggedInUser st) (cachedPermissions st) (Some []) in
  (hasSessionCookie cookie = false -> out = (Ok JTrue, cleared))
  /\ (forall response,
        hasSessionCookie cookie = true ->
        fetch (mkRequest (str "/Logout") (str "GET") [] None) = Ok response ->
        status response = 200 -> out = (Ok JTrue, cleared))
  /\ (forall response,
        hasSessionCookie cookie = true ->
        fetch (mkRequest (str "/Logout") (str "GET") [] None) = Ok response ->
        status response <> 200 -> out = (Ok JFalse, st))
  /\ cachedPermissions (snd out) = cachedPermissions st
  /\ srpClient (snd out) = srpClient st
  /\ loggedInUser (snd out) = loggedInUser st.
Proof.
  cbv zeta. unfold logout.
  destruct (hasSessionCookie cookie) eqn:Hc; cbn [negb].
  - destruct (fetch _) as [response|e] eqn:Hf;
      [destruct (Z.eqb_spec (status response) 200) as [H200|H200]|];
      repeat split; try reflexivity; try discriminate;
      intros r _ Hr Hs; try discriminate;
      injection Hr as <-; try reflexivity; contradiction.
  - repeat split; try reflexivity; intros; discriminate.
Qed.

Lemma logout_effect_witness :
  hasSessionCookie [] = false
  /\ logout noNetwork demoState []
     = (Ok JTrue, mkAuthState Client.new [] (Some demoPermissions) (Some []))
  /\ hasSessionCookie (str "_appwebSessionId_=1") = true
  /\ logout (respond 200) demoState (str "_appwebSessionId_=1")
     = (Ok JTrue, mkAuthState Client.new [] (Some demoPermissions) (Some []))
  /\ logout (respond 500) demoState (str "_appwebSessionId_=1")
     = (Ok JFalse, demoState).
Proof.
  pose proof (logout_effect noNetwork demoState []) as (H1 & _).
  pose proof (logout_effect (respond 200) demoState (str "_appwebSessionId_=1"))
    as (_ & H2 & _).
  pose proof (logout_effect (respond 500) demoState (str "_appwebSessionId_=1"))
    as (_ & _ & H3 & _).
  split; [reflexivity|]. split; [apply H1; reflexivity|].
  split; [reflexivity|]. split.
  - apply (H2 (mkResponse 200 (fun _ => None) [])); reflexivity.
  - apply (H3 (mkResponse 500 (fun _ => None) [])); [reflexivity|reflexivity|].
    cbn. lia.
Defined.

(** Case analysis on every test and every result in the goal. *)
Ltac case_results :=
  repeat (match goal with
          | |- context [if ?b then _ else _] => destruct b
          | |- context [match ?r with Ok _ => _ | Throw _ => _ end] => destruct r
          | |- context [match ?p with (_, _) => _ end] => destruct p
          end;
          cbn [snd fst set_loggedInUser set_srpClient set_cachedPermissions
               cachedPermissions rbind]).

Lemma login_onInitialResponse_keeps (digest : hashInput -> list Z)
    (fetch : Request -> result Response) (st : AuthState)
    (username : option jsstring) (rnd : Z) (response : Response) :
  is_Some (cachedPermissions st) ->
  is_Some (cachedPermissions
             (snd (login_onInitialResponse digest fetch st username rnd response))).
Proof.
  intros Hsome. unfold login_onInitialResponse. case_results; assumption.
Qed.

Lemma login_onFinalResponse_keeps (parseXML : jsstring -> result XmlNode)
    (st : AuthState) (username : option jsstring) (response : Response) :
  is_Some (cachedPermissions st) ->
  is_Some (cachedPermissions
             (snd (login_onFinalResponse parseXML st username response))).
Proof.
  intros Hsome. unfold login_onFinalResponse. case_results; eauto.
Qed.

(** No operation of the module takes a cached permission set away:
    the variable is assigned by [login] and [updatePermissionsCache]
    only, and only ever a parsed set. *)
Lemma cachedPermissions_never_cleared (digest : hashInput -> list Z)
    (parseXML : jsstring -> result XmlNode) (fetch : Request -> result Response)
    (st : AuthState) (username password : option jsstring) (rnd : Z)
    (cookie : jsstring) :
  is_Some (cachedPermissions st) ->
  is_Some (cachedPermissions (snd (logout fetch st cookie)))
  /\ is_Some (cachedPermissions (snd (updateFromSession fetch st cookie)))
  /\ is_Some (cachedPermissions (snd (updatePermissionsCache parseXML fetch st)))
  /\ is_Some (cachedPermissions
                (snd (login digest parseXML fetch st username password rnd))).
Proof.
  intros Hsome. repeat split.
  - unfold logout. case_results; assumption.
  - unfold updateFromSession. case_results; assumption.
  - unfold updatePermissionsCache.
    destruct (getAggregateUserPermissions _ _ _); cbn; [eauto | assumption].
  - unfold login.
    destruct (fetch _) as [r1|e]; [|exact Hsome].
    pose proof (login_onInitialResponse_keeps digest fetch
                  (set_srpClient (SRP.setIdentity (srpClient st) username password) st)
                  username rnd r1 Hsome) as Hfirst.
    destruct (login_onInitialResponse _ _ _ _ _ _) as [[r2|e] st2];
      cbn [snd] in Hfirst |- *; [|exact Hfirst].
    now apply login_onFinalResponse_keeps.
Qed.

(** ** Utils.xorHashStrings *)

Lemma xor_chunk_self (c : jsnum) :
  JS.substrFrom (str "0000" ++ JS.toString16 (JS.bitxor c c)) (-4) = str "0000".
Proof.
  unfold JS.bitxor. rewrite Z.lxor_nilpotent. reflexivity.
Qed.

Lemma xorHashStrings_loop_self (a : jsstring) (fuel : nat) :
  forall (i : Z) (res : jsstring),
    JS.len a - i <= Z.of_nat fuel ->
    Utils.xorHashStrings_loop fuel a a i res
    = res ++ repeat 48 (4 * Z.to_nat ((JS.len a - i + 3) / 4)).
Proof.
  induction fuel as [|fuel IH]; intros i res Hfuel.
  - cbn [Utils.xorHashStrings_loop].
    replace (Z.to_nat ((JS.len a - i + 3) / 4)) with 0%nat by zdiv.
    cbn. now rewrite app_nil_r.
  - cbn [Utils.xorHashStrings_loop].
    destruct (Z.ltb_spec i (JS.len a)) as [Hlt|Hge].
    + rewrite xor_chunk_self, IH by lia.
      rewrite <- app_assoc. f_equal.
      replace (Z.to_nat ((JS.len a - i + 3) / 4))
        with (S (Z.to_nat ((JS.len a - (i + 4) + 3) / 4))) by zdiv.
      replace (4 * S (Z.to_nat ((JS.len a - (i + 4) + 3) / 4)))%nat
        with (4 + 4 * Z.to_nat ((JS.len a - (i + 4) + 3) / 4))%nat by lia.
      rewrite repeat_app. reflexivity.
    + replace (Z.to_nat ((JS.len a - i + 3) / 4)) with 0%nat by zdiv.
      cbn. now rewrite app_nil_r.
Qed.

(** On equal arguments the result is made of the character '0' alone,
    four for every chunk of up to four characters. *)
Lemma xorHashStrings_self (a : jsstring) :
  Utils.xorHashStrings a a
  = Ok (repeat 48 (4 * Z.to_nat ((JS.len a + 3) / 4))).
Proof.
  unfold Utils.xorHashStrings. rewrite Z.eqb_refl. cbn [negb].
  rewrite xorHashStrings_loop_self by (unfold JS.len; lia).
  rewrite Z.sub_0_r. reflexivity.
Qed.

(** C9, counterexample. The digest "ab" of one byte is answered by four
    characters. *)
Lemma xorHashStrings_self_length_counterexample :
  Utils.xorHashStrings (str "ab") (str "ab") = Ok (str "0000")
  /\ length (str "0000") <> length (str "ab").
Proof. split; [reflexivity | discriminate]. Qed.

(** C9, amended. For every string [a] whose length is a multiple of four
    (the assumption the source states), [xorHashStrings a a] is the
    string of that length made of the character '0' alone; and for
    strings of different lengths the call throws 'strings not same
    length'. *)
Theorem xorHashStrings_self_zero (a b : jsstring) :
  (JS.len a mod 4 = 0 -> Utils.xorHashStrings a a = Ok (repeat 48 (length a)))
  /\ (length a <> length b -> Utils.xorHashStrings a b = Throw LengthMismatchError).
Proof.
  split.
  - intros Hmod. rewrite xorHashStrings_self. do 2 f_equal.
    unfold JS.len in *. zdiv.
  - intros Hlen. unfold Utils.xorHashStrings.
    destruct (Z.eqb_spec (JS.len a) (JS.len b)) as [Heq|Hne]; [|reflexivity].
    unfold JS.len in Heq. lia.
Qed.

Lemma xorHashStrings_self_zero_witness :
  JS.len (str "a7a9e7e59519897d") mod 4 = 0
  /\ Utils.xorHashStrings (str "a7a9e7e59519897d") (str "a7a9e7e59519897d")
     = Ok (str "0000000000000000")
  /\ length (str "a7a9e7e59519897d") <> length (str "30a8")
  /\ Utils.xorHashStrings (str "a7a9e7e59519897d") (str "30a8")
     = Throw LengthMismatchError.
Proof.
  pose proof (xorHashStrings_self_zero (str "a7a9e7e59519897d") (str "30a8"))
    as [Hself Hdiff].
  split; [reflexivity|]. split; [apply Hself; reflexivity|].
  split; [discriminate|]. apply Hdiff. discriminate.
Defined.

Example xorHashStrings_source_example :
  Utils.xorHashStrings (str "a7a9e7e59519897d") (str "30a85174187253d3")
  = Ok (str "9701b6918d6bdaae").
Proof. reflexivity. Qed.

(** ** Hash strings and the integers they denote *)

Lemma forall_below (P : Z -> bool) (bound : nat) :
  forallb (fun i => P (Z.of_nat i)) (seq 0 bound) = true ->
  forall y, 0 <= y < Z.of_nat bound -> P y = true.
Proof.
  intros Hall y Hy. rewrite forallb_forall in Hall.
  specialize (Hall (Z.to_nat y)). rewrite Z2Nat.id in Hall by lia.
  apply Hall. apply in_seq. lia.
Qed.

Lemma fold_left_append {A} (f : A -> jsstring) (l : list A) (init : jsstring) :
  fold_left (fun hs b => hs ++ f b) l init = init ++ concat (map f l).
Proof.
  revert init. induction l as [|b l IH]; intros init; cbn.
  - now rewrite app_nil_r.
  - rewrite IH, app_assoc. reflexivity.
Qed.

Lemma render_byte_checked :
  forallb
    (fun i =>
       bool_decide
         (JS.substrFrom (str "00" ++ JS.toString16 (Num (Z.of_nat i))) (-2)
          = [JS.hexDigit (Z.of_nat i / 16); JS.hexDigit (Z.of_nat i mod 16)]))
    (seq 0 256) = true.
Proof. vm_compute. reflexivity. Qed.

Lemma render_byte (y : Z) :
  0 <= y < 256 ->
  JS.substrFrom (str "00" ++ JS.toString16 (Num y)) (-2)
  = [JS.hexDigit (y / 16); JS.hexDigit (y mod 16)].
Proof.
  intros Hy.
  pose proof (forall_below
                (fun y => bool_decide
                   (JS.substrFrom (str "00" ++ JS.toString16 (Num y)) (-2)
                    = [JS.hexDigit (y / 16); JS.hexDigit (y mod 16)]))
                256 render_byte_checked y Hy) as H.
  apply bool_decide_eq_true in H. exact H.
Qed.

Lemma hexValue_hexDigit_checked :
  forallb
    (fun i =>
       bool_decide
         (BigInteger.hexValue (JS.hexDigit (Z.of_nat i)) = Some (Z.of_nat i)))
    (seq 0 16) = true.
Proof. vm_compute. reflexivity. Qed.

Lemma hexValue_hexDigit (d : Z) :
  0 <= d < 16 -> BigInteger.hexValue (JS.hexDigit d) = Some d.
Proof.
  intros Hd.
  pose proof (forall_below
                (fun d => bool_decide
                   (BigInteger.hexValue (JS.hexDigit d) = Some d))
                16 hexValue_hexDigit_checked d Hd) as H.
  apply bool_decide_eq_true in H. exact H.
Qed.

Lemma ToInt32_range (b : jsnum) : - 2 ^ 31 <= JS.ToInt32 b < 2 ^ 31.
Proof.
  destruct b as [|z]; cbn [JS.ToInt32]; [lia|].
  pose proof (Z.mod_pos_bound (z + 2 ^ 31) (2 ^ 32)). lia.
Qed.

Lemma byteOf_range (b : jsnum) : 0 <= Base64.byteOf b < 256.
Proof. unfold Base64.byteOf. apply Z.mod_pos_bound. lia. Qed.

Lemma bitand_255 (b : jsnum) : JS.bitand b (Num 255) = Num (Base64.byteOf b).
Proof.
  unfold JS.bitand, Base64.byteOf. f_equal.
  change (JS.ToInt32 (Num 255)) with (Z.ones 8).
  rewrite Z.land_ones by lia. reflexivity.
Qed.

(** A hash string is the concatenation of the pairs of its bytes. *)
Lemma byteArrayToHashString_pairs (ar : jsarray) :
  Utils.byteArrayToHashString ar = concat (map hexPair ar).
Proof.
  unfold Utils.byteArrayToHashString.
  rewrite fold_left_append. cbn [app].
  f_equal. apply map_ext. intros b.
  rewrite bitand_255. apply render_byte. apply byteOf_range.
Qed.

Lemma byteArrayToHashString_length (ar : jsarray) :
  length (Utils.byteArrayToHashString ar) = (2 * length ar)%nat.
Proof.
  rewrite byteArrayToHashString_pairs.
  induction ar as [|b ar IH]; cbn [map concat]; [reflexivity|].
  rewrite length_app, IH. cbn. lia.
Qed.

Lemma magnitude16_pairs (ar : jsarray) (acc : Z) :
  fold_left
    (fun acc c =>
       match BigInteger.hexValue c with Some d => acc * 16 + d | None => acc end)
    (concat (map hexPair ar)) acc
  = fold_left (fun acc b => acc * 256 + Base64.byteOf b) ar acc.
Proof.
  revert acc. induction ar as [|b ar IH]; intros acc; [reflexivity|].
  cbn [map concat]. rewrite fold_left_app. cbn [hexPair fold_left].
  pose proof (byteOf_range b) as Hb.
  rewrite !hexValue_hexDigit by zdiv.
  rewrite IH. f_equal. zdiv.
Qed.

Lemma leadingMinus_pairs (ar : jsarray) :
  BigInteger.leadingMinus (concat (map hexPair ar)) = false.
Proof.
  destruct ar as [|b ar]; [reflexivity|].
  cbn [map concat hexPair app BigInteger.leadingMinus].
  pose proof (byteOf_range b) as Hb.
  rewrite hexValue_hexDigit by zdiv.
  unfold JS.hexDigit.
  destruct (Base64.byteOf b / 16 <? 10) eqn:E;
    [apply Z.ltb_lt in E | apply Z.ltb_ge in E];
    (destruct (Z.eqb_spec (48 + Base64.byteOf b / 16) 45);
     destruct (Z.eqb_spec (87 + Base64.byteOf b / 16) 45);
     try reflexivity; zdiv).
Qed.

(** Read back as a BigInteger, a hash string is the unsigned big-endian
    value of its bytes. *)
Lemma fromString16_hashString (ar : jsarray) :
  BigInteger.fromString16 (Utils.byteArrayToHashString ar) = unsignedValue ar.
Proof.
  unfold BigInteger.fromString16, BigInteger.magnitude16, unsignedValue.
  rewrite byteArrayToHashString_pairs, leadingMinus_pairs.
  apply magnitude16_pairs.
Qed.

Lemma unsignedValue_acc (ar : jsarray) (acc : Z) :
  fold_left (fun acc b => acc * 256 + Base64.byteOf b) ar acc
  = acc * 256 ^ JS.len ar + unsignedValue ar.
Proof.
  unfold unsignedValue. revert acc.
  induction ar as [|b ar IH]; intros acc.
  - change (256 ^ JS.len []) with 1. cbn [fold_left]. lia.
  - cbn [fold_left]. rewrite IH. rewrite (IH (0 * 256 + Base64.byteOf b)).
    unfold JS.len. cbn [length]. rewrite Nat2Z.inj_succ, Z.pow_succ_r by lia.
    ring.
Qed.

Lemma unsignedValue_app (l1 l2 : jsarray) :
  unsignedValue (l1 ++ l2) = unsignedValue l1 * 256 ^ JS.len l2 + unsignedValue l2.
Proof.
  unfold unsignedValue at 1. rewrite fold_left_app.
  rewrite unsignedValue_acc. reflexivity.
Qed.

Lemma unsignedValue_bound (ar : jsarray) : 0 <= unsignedValue ar < 256 ^ JS.len ar.
Proof.
  induction ar as [|b ar IH] using rev_ind.
  - change (0 <= 0 < 1). lia.
  - rewrite unsignedValue_app.
    change (JS.len [b]) with 1.
    change (unsignedValue [b]) with (0 * 256 + Base64.byteOf b).
    replace (JS.len (ar ++ [b])) with (JS.len ar + 1)
      by (unfold JS.len; rewrite length_app; cbn [length]; lia).
    rewrite Z.pow_add_r, !Z.pow_1_r by (unfold JS.len; lia).
    pose proof (byteOf_range b). nia.
Qed.

Lemma unsignedValue_zeros (count : nat) : unsignedValue (repeat (Num 0) count) = 0.
Proof.
  induction count as [|count IH]; [reflexivity|].
  change (repeat (Num 0) (S count)) with ([Num 0] ++ repeat (Num 0) count).
  rewrite unsignedValue_app, IH. reflexivity.
Qed.

(** A digest read as a BigInteger is never negative. *)
Lemma fromString16_hashString_nonneg (ar : jsarray) :
  0 <= BigInteger.fromString16 (Utils.byteArrayToHashString ar).
Proof.
  rewrite fromString16_hashString. apply unsignedValue_bound.
Qed.

(** ** Utils.bigIntegerToBytes *)

Lemma pow256 (c : Z) : 0 <= c -> 2 ^ (8 * c) = 256 ^ c.
Proof. intros Hc. rewrite Z.pow_mul_r by lia. reflexivity. Qed.

Lemma toByteArray_bytesFrom (n : Z) :
  BigInteger.toByteArray n = bytesFrom n 0 (Z.to_nat (BigInteger.bitLength n / 8 + 1)).
Proof. reflexivity. Qed.

Lemma bytesFrom_length (n : Z) (lo count : nat) :
  length (bytesFrom n lo count) = count.
Proof.
  unfold bytesFrom. now rewrite length_map, length_rev, length_seq.
Qed.

Lemma bytesFrom_app (n : Z) (lo c1 c2 : nat) :
  bytesFrom n lo (c1 + c2) = bytesFrom n (lo + c1) c2 ++ bytesFrom n lo c1.
Proof.
  unfold bytesFrom. rewrite seq_app, rev_app_distr, map_app. reflexivity.
Qed.

Lemma byteOf_toInt8 (y : Z) :
  0 <= y < 256 -> Base64.byteOf (Num (BigInteger.toInt8 y)) = y.
Proof.
  intros Hy. unfold Base64.byteOf, JS.ToInt32, BigInteger.toInt8.
  destruct (Z.leb_spec 128 y).
  - rewrite (Z.mod_small (y - 256 + 2 ^ 31)) by lia. zdiv.
  - rewrite (Z.mod_small (y + 2 ^ 31)) by lia. zdiv.
Qed.

Lemma byteOf_byteAt (n : Z) (i : nat) :
  Base64.byteOf (byteAt n i) = (n / 256 ^ Z.of_nat i) mod 256.
Proof.
  unfold byteAt. rewrite byteOf_toInt8 by (apply Z.mod_pos_bound; lia).
  rewrite Z.shiftr_div_pow2, pow256 by lia. reflexivity.
Qed.

Lemma unsignedValue_bytesFrom (n : Z) (count : nat) :
  unsignedValue (bytesFrom n 0 count) = n mod 256 ^ Z.of_nat count.
Proof.
  induction count as [|count IH].
  - cbn. now rewrite Z.mod_1_r.
  - replace (S count) with (count + 1)%nat by lia.
    rewrite bytesFrom_app, unsignedValue_app, IH.
    change (bytesFrom n (0 + count) 1) with [byteAt n count].
    change (unsignedValue [byteAt n count])
      with (0 * 256 + Base64.byteOf (byteAt n count)).
    rewrite byteOf_byteAt.
    unfold JS.len. rewrite bytesFrom_length.
    rewrite Nat2Z.inj_add, Z.pow_add_r by lia. change (256 ^ Z.of_nat 1) with 256.
    rewrite Z.rem_mul_r by lia. lia.
Qed.

Lemma bytesFrom_zero (n : Z) (lo count : nat) :
  0 <= n < 256 ^ Z.of_nat lo -> bytesFrom n lo count = repeat (Num 0) count.
Proof.
  intros Hn. unfold bytesFrom.
  assert (Hz : forall i, (lo <= i)%nat -> byteAt n i = Num 0).
  { intros i Hi. unfold byteAt.
    rewrite Z.shiftr_div_pow2, pow256 by lia.
    rewrite Z.div_small; [reflexivity|].
    split; [lia|]. apply Z.lt_le_trans with (256 ^ Z.of_nat lo); [lia|].
    apply Z.pow_le_mono_r; lia. }
  revert lo Hn Hz. induction count as [|count IH]; intros lo Hn Hz; [reflexivity|].
  replace (S count) with (count + 1)%nat at 1 by lia.
  rewrite seq_app, rev_app_distr, map_app. cbn [seq rev map app].
  rewrite Hz by lia.
  change (repeat (Num 0) (S count)) with (Num 0 :: repeat (Num 0) count).
  f_equal. apply IH; assumption.
Qed.

Lemma bitLength_nonneg (n : Z) : 0 <= BigInteger.bitLength n.
Proof.
  unfold BigInteger.bitLength. destruct (_ =? 0); [lia|].
  pose proof (Z.log2_nonneg (if n <? 0 then - n - 1 else n)). lia.
Qed.

(** A number that is not negative lies below 256 to the length of its
    byte array. *)
Lemma toByteArray_bound (n : Z) :
  0 <= n -> n < 256 ^ (BigInteger.bitLength n / 8 + 1).
Proof.
  intros Hn. pose proof (bitLength_nonneg n) as Hb.
  apply Z.lt_le_trans with (2 ^ BigInteger.bitLength n).
  - unfold BigInteger.bitLength. destruct (Z.ltb_spec n 0); [lia|].
    destruct (Z.eqb_spec n 0) as [->|Hne]; [cbn; lia|].
    apply Z.log2_spec. lia.
  - rewrite <- pow256 by zdiv. apply Z.pow_le_mono_r; [lia|zdiv].
Qed.

Lemma slice_take {A} (l : list A) (e : Z) :
  0 <= e <= JS.len l -> JS.slice l 0 e = take (Z.to_nat e) l.
Proof.
  intros He. unfold JS.slice. cbv zeta.
  change (0 <? 0) with false. cbv iota.
  destruct (Z.ltb_spec e 0); [lia|].
  rewrite (Z.min_l 0) by lia.
  rewrite (Z.min_l e) by lia. rewrite Z.sub_0_r. reflexivity.
Qed.

Lemma sliceFrom_drop {A} (l : list A) (k : Z) :
  0 <= k <= JS.len l -> JS.sliceFrom l k = drop (Z.to_nat k) l.
Proof.
  intros Hk. unfold JS.sliceFrom, JS.slice. cbv zeta.
  destruct (Z.ltb_spec k 0); [lia|].
  destruct (Z.ltb_spec (JS.len l) 0); [unfold JS.len in *; lia|].
  rewrite (Z.min_l k) by lia. rewrite Z.min_id.
  apply firstn_all2. rewrite length_skipn. unfold JS.len. lia.
Qed.

Lemma existsb_neqZero_zeros (count : nat) :
  existsb JS.neqZero (repeat (Num 0) count) = false.
Proof. induction count as [|count IH]; [reflexivity | exact IH]. Qed.

Lemma existsb_neqZero_false (l : jsarray) :
  existsb JS.neqZero l = false -> l = repeat (Num 0) (length l).
Proof.
  induction l as [|b l IH]; [reflexivity|].
  cbn [existsb length repeat]. intros H.
  apply orb_false_iff in H as [Hb Hl].
  f_equal; [|now apply IH].
  destruct b as [|z]; [discriminate|].
  cbn in Hb. apply negb_false_iff, Z.eqb_eq in Hb. now subst.
Qed.

(** When the number fits the width, the result is its [byteCount] low
    bytes, most significant first. *)
Lemma bigIntegerToBytes_fits (n w : Z) :
  0 <= n < 256 ^ w -> 0 <= w ->
  Utils.bigIntegerToBytes n w = Ok (bytesFrom n 0 (Z.to_nat w)).
Proof.
  intros Hn Hw.
  pose proof (bitLength_nonneg n) as Hb.
  pose proof (toByteArray_bound n ltac:(lia)) as HL.
  unfold Utils.bigIntegerToBytes. rewrite toByteArray_bytesFrom.
  set (L := Z.to_nat (BigInteger.bitLength n / 8 + 1)).
  assert (HLz : Z.of_nat L = BigInteger.bitLength n / 8 + 1) by (subst L; zdiv).
  rewrite <- HLz in HL.
  assert (Hlen : JS.len (bytesFrom n 0 L) = Z.of_nat L)
    by (unfold JS.len; now rewrite bytesFrom_length).
  rewrite !Hlen.
  destruct (Z.eqb_spec (Z.of_nat L) w) as [Heq|Hne].
  - f_equal. f_equal. lia.
  - destruct (Z.ltb_spec (Z.of_nat L) w) as [Hlt|Hge].
    + f_equal.
      replace (Z.to_nat w) with (L + Z.to_nat (w - Z.of_nat L))%nat by lia.
      rewrite bytesFrom_app. f_equal. cbn [Nat.add].
      symmetry. apply bytesFrom_zero. lia.
    + assert (Hsplit : bytesFrom n 0 L
                       = bytesFrom n (Z.to_nat w) (Z.to_nat (Z.of_nat L - w))
                           ++ bytesFrom n 0 (Z.to_nat w)).
      { replace L with (Z.to_nat w + Z.to_nat (Z.of_nat L - w))%nat at 1 by lia.
        apply bytesFrom_app. }
      assert (Hzero : bytesFrom n (Z.to_nat w) (Z.to_nat (Z.of_nat L - w))
                      = repeat (Num 0) (Z.to_nat (Z.of_nat L - w))).
      { apply bytesFrom_zero. rewrite Z2Nat.id by lia. lia. }
      rewrite slice_take by lia.
      rewrite sliceFrom_drop by lia.
      rewrite Hsplit, Hzero.
      rewrite take_app_length' by (rewrite repeat_length; reflexivity).
      rewrite drop_app_length' by (rewrite repeat_length; reflexivity).
      rewrite existsb_neqZero_zeros. reflexivity.
Qed.

(** When the number does not fit, a dropped byte is not zero. *)
Lemma bigIntegerToBytes_truncation (n w : Z) :
  0 <= w -> 256 ^ w <= n ->
  Utils.bigIntegerToBytes n w = Throw TruncationError.
Proof.
  intros Hw Hn.
  assert (H0 : 0 <= n) by (pose proof (Z.pow_pos_nonneg 256 w); lia).
  pose proof (bitLength_nonneg n) as Hb.
  pose proof (toByteArray_bound n H0) as HL.
  unfold Utils.bigIntegerToBytes. rewrite toByteArray_bytesFrom.
  set (L := Z.to_nat (BigInteger.bitLength n / 8 + 1)).
  assert (HLz : Z.of_nat L = BigInteger.bitLength n / 8 + 1) by (subst L; zdiv).
  rewrite <- HLz in HL.
  assert (HwL : w < Z.of_nat L).
  { apply (Z.pow_lt_mono_r_iff 256); lia. }
  assert (Hlen : JS.len (bytesFrom n 0 L) = Z.of_nat L)
    by (unfold JS.len; now rewrite bytesFrom_length).
  rewrite !Hlen.
  destruct (Z.eqb_spec (Z.of_nat L) w) as [Heq|_]; [lia|].
  destruct (Z.ltb_spec (Z.of_nat L) w) as [Hlt|_]; [lia|].
  rewrite slice_take by lia.
  destruct (existsb JS.neqZero _) eqn:Hex; [reflexivity|exfalso].
  apply existsb_neqZero_false in Hex.
  assert (Hval : unsignedValue (bytesFrom n 0 L) = n).
  { rewrite unsignedValue_bytesFrom. apply Z.mod_small. lia. }
  rewrite <- (take_drop (Z.to_nat (Z.of_nat L - w)) (bytesFrom n 0 L)) in Hval.
  rewrite Hex, unsignedValue_app, unsignedValue_zeros in Hval.
  pose proof (unsignedValue_bound
                (drop (Z.to_nat (Z.of_nat L - w)) (bytesFrom n 0 L))) as Hbound.
  unfold JS.len in Hbound, Hval.
  rewrite length_drop, bytesFrom_length in Hbound.
  replace (Z.of_nat (L - Z.to_nat (Z.of_nat L - w))) with w in Hbound by lia.
  lia.
Qed.

(** C8. For a number that is not negative and a width that is not
    negative: when the number is below 256^width (the width is at least
    its natural length), the call returns exactly [width] bytes, which
    are the bytes of [toByteArray] left-padded with zero bytes when
    those are fewer, and the bytes read back as a BigInteger give the
    number; when the number is 256^width or more, the call throws the
    truncation error; and a width below the length of [toByteArray]
    whose dropped leading bytes are all zero returns the remaining
    bytes. *)
Theorem bigIntegerToBytes_round_trip (n w : Z) :
  0 <= n -> 0 <= w ->
  (n < 256 ^ w ->
   exists bytes,
     Utils.bigIntegerToBytes n w = Ok bytes
     /\ JS.len bytes = w
     /\ BigInteger.fromString16 (Utils.byteArrayToHashString bytes) = n
     /\ (JS.len (BigInteger.toByteArray n) <= w ->
         bytes = repeat (Num 0) (Z.to_nat (w - JS.len (BigInteger.toByteArray n)))
                   ++ BigInteger.toByteArray n))
  /\ (256 ^ w <= n -> Utils.bigIntegerToBytes n w = Throw TruncationError)
  /\ (w < JS.len (BigInteger.toByteArray n) ->
      existsb JS.neqZero
        (take (Z.to_nat (JS.len (BigInteger.toByteArray n) - w)) (BigInteger.toByteArray n))
      = false ->
      Utils.bigIntegerToBytes n w
      = Ok (drop (Z.to_nat (JS.len (BigInteger.toByteArray n) - w)) (BigInteger.toByteArray n))).
Proof.
  intros Hn Hw. split; [|split].
  - intros Hfit. exists (bytesFrom n 0 (Z.to_nat w)).
    split; [apply bigIntegerToBytes_fits; lia|].
    split; [unfold JS.len; rewrite bytesFrom_length; lia|].
    split.
    + rewrite fromString16_hashString, unsignedValue_bytesFrom.
      rewrite Z2Nat.id by lia. apply Z.mod_small. lia.
    + rewrite toByteArray_bytesFrom. unfold JS.len. rewrite bytesFrom_length.
      intros HL.
      set (L := Z.to_nat (BigInteger.bitLength n / 8 + 1)) in *.
      replace (Z.to_nat w) with (L + Z.to_nat (w - Z.of_nat L))%nat by lia.
      rewrite bytesFrom_app. f_equal. cbn [Nat.add].
      apply bytesFrom_zero.
      pose proof (toByteArray_bound n Hn) as Hb.
      pose proof (bitLength_nonneg n).
      replace (Z.of_nat L) with (BigInteger.bitLength n / 8 + 1) by (subst L; zdiv).
      lia.
  - intros Hbig. apply bigIntegerToBytes_truncation; assumption.
  - intros HL Hzero. unfold Utils.bigIntegerToBytes.
    destruct (Z.eqb_spec (JS.len (BigInteger.toByteArray n)) w); [lia|].
    destruct (Z.ltb_spec (JS.len (BigInteger.toByteArray n)) w); [lia|].
    rewrite slice_take by lia. rewrite Hzero.
    rewrite sliceFrom_drop by lia. reflexivity.
Qed.

Lemma bigIntegerToBytes_round_trip_witness :
  0 <= 255 /\ 0 <= 1
  /\ Utils.bigIntegerToBytes 255 1 = Ok [Num (-1)]
  /\ BigInteger.fromString16 (Utils.byteArrayToHashString [Num (-1)]) = 255
  /\ Utils.bigIntegerToBytes 255 4 = Ok [Num 0; Num 0; Num 0; Num (-1)]
  /\ Utils.bigIntegerToBytes 256 1 = Throw TruncationError.
Proof.
  pose proof (bigIntegerToBytes_round_trip 255 1 ltac:(lia) ltac:(lia))
    as (_ & _ & Hdrop).
  pose proof (bigIntegerToBytes_round_trip 255 4 ltac:(lia) ltac:(lia))
    as (Hfit & _ & _).
  pose proof (bigIntegerToBytes_round_trip 256 1 ltac:(lia) ltac:(lia))
    as (_ & Hbig & _).
  split; [lia|]. split; [lia|]. split; [|split; [|split]].
  - apply Hdrop; [vm_compute; reflexivity | reflexivity].
  - reflexivity.
  - destruct (Hfit ltac:(lia)) as (bytes & Hok & _ & _ & Hpad).
    rewrite Hok. f_equal. apply Hpad. vm_compute. discriminate.
  - apply Hbig. lia.
Defined.

(** The byte sequence the tests of the repository expect for 47!. *)
Example toByteArray_factorial_47 :
  map Base64.byteOf
    (BigInteger.toByteArray 258623241511168180642964355153611979969197632389120000000000)
  = [41; 51; 120; 161; 30; 230; 72; 34; 22; 127; 116; 23; 253; 211; 165; 14;
     192; 238; 79; 116; 0; 0; 0; 0; 0].
Proof. vm_compute. reflexivity. Qed.

(** ** Modular exponentiation and the shared secret *)

Lemma mod_eq_of_multiple (a b q m : Z) : a = b + q * m -> a mod m = b mod m.
Proof. intros ->. apply Z_mod_plus_full. Qed.

Lemma modPowPos_spec (g : Z) (e : positive) (m : Z) :
  0 < m -> BigInteger.modPowPos g e m = g ^ Zpos e mod m.
Proof.
  intros Hm. induction e as [e IH|e IH|]; cbn [BigInteger.modPowPos].
  - rewrite IH. rewrite Pos2Z.inj_xI.
    rewrite Z.pow_add_r, Z.pow_1_r by lia.
    replace (2 * Z.pos e) with (Z.pos e + Z.pos e) by lia.
    rewrite Z.pow_add_r by lia.
    rewrite <- Z.mul_mod by lia. rewrite Z.mul_mod_idemp_l by lia. reflexivity.
  - rewrite IH. rewrite Pos2Z.inj_xO.
    replace (2 * Z.pos e) with (Z.pos e + Z.pos e) by lia.
    rewrite Z.pow_add_r by lia.
    rewrite <- Z.mul_mod by lia. reflexivity.
  - now rewrite Z.pow_1_r.
Qed.

(** Repeated squaring computes the power modulo [m]: for a positive
    exponent, and for the exponent 0 when [m] is not 1. *)
Lemma modPow_spec (g e m : Z) :
  0 < m -> 0 <= e -> 1 < m \/ 0 < e ->
  BigInteger.modPow g e m = g ^ e mod m.
Proof.
  intros Hm He Hor. destruct e as [|p|p]; cbn [BigInteger.modPow].
  - rewrite Z.pow_0_r, Z.mod_small by lia. reflexivity.
  - now apply modPowPos_spec.
  - lia.
Qed.

(** Whatever the modulus, the result is congruent to the power. *)
Lemma modPow_congr (g e m : Z) :
  0 < m -> 0 <= e -> BigInteger.modPow g e m mod m = g ^ e mod m.
Proof.
  intros Hm He. destruct e as [|p|p]; cbn [BigInteger.modPow].
  - now rewrite Z.pow_0_r.
  - rewrite modPowPos_spec by exact Hm. apply Z.mod_mod. lia.
  - lia.
Qed.

Lemma pow_mod_congr (a b e m : Z) :
  0 < m -> a mod m = b mod m -> a ^ e mod m = b ^ e mod m.
Proof.
  intros Hm Hab. destruct (Z.lt_ge_cases e 0) as [Hneg|Hpos].
  - now rewrite !Z.pow_neg_r by lia.
  - revert e Hpos. apply natlike_ind.
    + reflexivity.
    + intros e He IH. rewrite !Z.pow_succ_r by lia.
      rewrite (Z.mul_mod a), (Z.mul_mod b) by lia.
      now rewrite Hab, IH.
Qed.

(** The base of the client's power is congruent to B - k g^x, for
    every value [r] of g^x that is right modulo N. *)
Lemma Sc_base (N B k r p : Z) :
  0 < N -> r mod N = p mod N ->
  (B + (k * (N - r)) mod N) mod N = (B - k * p) mod N.
Proof.
  intros HN Hrp.
  apply mod_eq_of_multiple
    with (q := k - k * (r / N - p / N) - (k * (N - r)) / N).
  rewrite (Z.mod_eq (k * (N - r)) N) by lia.
  pose proof (Z.mod_eq r N ltac:(lia)) as Hr.
  pose proof (Z.mod_eq p N ltac:(lia)) as Hp.
  assert (Hdiff : r - p = N * (r / N - p / N)) by lia.
  replace (B + (k * (N - r) - N * (k * (N - r) / N)))
    with (B - k * p - k * (r - p) + k * N - N * (k * (N - r) / N)) by ring.
  rewrite Hdiff. ring.
Qed.

(** C2, counterexample. With the modulus 1 and the exponent a + u x =
    0 the code returns 1, the value [modPow] gives for the exponent 0
    without reducing it, where the specified quantity is 0. *)
Lemma Sc_modulus_one_counterexample :
  0 < 1
  /\ SRP.Sc 1 5 7 3 0 0 2 = 1
  /\ (7 - (3 * 5 ^ 0) mod 1) ^ (0 + 2 * 0) mod 1 = 0
  /\ SRP.Sc 1 5 7 3 0 0 2 <> (7 - (3 * 5 ^ 0) mod 1) ^ (0 + 2 * 0) mod 1.
Proof.
  split; [lia|]. split; [reflexivity|]. split; [reflexivity|].
  vm_compute. discriminate.
Qed.

(** C2, amended. With a positive modulus and exponents x and a + u x
    that are not negative, and with N > 1 or a + u x > 0, the client's
    shared secret is (B - k g^x mod N)^(a + u x) mod N, whichever way
    the inner reduction is read, and it is the value
    (B + (k (N - g^x) mod N))^(a + u x) mod N. *)
Theorem Sc_formula (N g B k x a u : Z) :
  0 < N -> 0 <= x -> 0 <= a + u * x -> 1 < N \/ 0 < a + u * x ->
  SRP.Sc N g B k x a u = (B - (k * g ^ x) mod N) ^ (a + u * x) mod N
  /\ SRP.Sc N g B k x a u = (B - k * (g ^ x mod N)) ^ (a + u * x) mod N
  /\ SRP.Sc N g B k x a u = ((B - k * g ^ x) mod N) ^ (a + u * x) mod N
  /\ SRP.Sc N g B k x a u = (B + (k * (N - g ^ x)) mod N) ^ (a + u * x) mod N.
Proof.
  intros HN Hx He Hor. unfold SRP.Sc.
  rewrite (modPow_spec _ (a + u * x) N) by assumption.
  pose proof (modPow_congr g x N HN Hx) as Hinner.
  repeat split; apply pow_mod_congr; try lia;
    rewrite (Sc_base N B k _ (g ^ x)) by assumption.
  - symmetry. apply mod_eq_of_multiple with (q := (k * g ^ x) / N).
    rewrite (Z.mod_eq (k * g ^ x) N) by lia. ring.
  - symmetry. apply mod_eq_of_multiple with (q := k * (g ^ x / N)).
    rewrite (Z.mod_eq (g ^ x) N) by lia. ring.
  - now rewrite Z.mod_mod by lia.
  - symmetry. apply mod_eq_of_multiple with (q := k - (k * (N - g ^ x)) / N).
    rewrite (Z.mod_eq (k * (N - g ^ x)) N) by lia. ring.
Qed.

Lemma Sc_formula_witness :
  0 < 23
  /\ SRP.Sc 23 5 7 3 4 6 2 = (7 - (3 * 5 ^ 4) mod 23) ^ (6 + 2 * 4) mod 23
  /\ SRP.Sc 23 5 7 3 4 6 2 = 13.
Proof.
  split; [lia|]. split; [|reflexivity].
  apply (Sc_formula 23 5 7 3 4 6 2); lia.
Defined.

(** With the server's B = (k v + g^b) mod N and v = g^x mod N, the
    secrets of the two sides are the same power of the generator. *)
Lemma shared_secret_agree (N g kk x a b u : Z) :
  1 < N -> 0 <= a -> 0 <= b -> 0 <= u -> 0 <= x ->
  SRP.Sc N g ((kk * SRP.v N g x + BigInteger.modPow g b N) mod N) kk x a u
  = SRP.Ss N (SRP.A N g a) (SRP.v N g x) u b.
Proof.
  intros HN Ha Hb Hu Hx.
  unfold SRP.Sc, SRP.Ss, SRP.A, SRP.v.
  rewrite !modPow_spec by (try lia; left; exact HN).
  transitivity (g ^ (b * (a + u * x)) mod N).
  - rewrite Z.pow_mul_r by lia.
    apply pow_mod_congr; [lia|].
    rewrite (Sc_base N _ kk _ (g ^ x)) by (try lia; apply Z.mod_mod; lia).
    apply mod_eq_of_multiple
      with (q := - ((kk * (g ^ x mod N) + g ^ b mod N) / N) - (g ^ b / N)
                 - kk * (g ^ x / N)).
    rewrite (Z.mod_eq (kk * (g ^ x mod N) + g ^ b mod N) N) by lia.
    rewrite (Z.mod_eq (g ^ b) N) by lia.
    rewrite (Z.mod_eq (g ^ x) N) by lia.
    ring.
  - replace (b * (a + u * x)) with ((a + x * u) * b) by ring.
    rewrite (Z.pow_mul_r g (a + x * u) b) by lia.
    apply pow_mod_congr; [lia|].
    rewrite Z.pow_add_r, (Z.pow_mul_r g x u) by lia.
    rewrite (Z.mul_mod (g ^ a mod N)) by lia.
    rewrite !Z.mod_mod by lia.
    rewrite (pow_mod_congr (g ^ x mod N) (g ^ x) u N) by (try lia; apply Z.mod_mod; lia).
    rewrite <- Z.mul_mod by lia. reflexivity.
Qed.

(** ** Client.generatePublicKeyAndProof *)

Section ClientRole.

Variable digest : hashInput -> list Z.

Lemma bigIntegerToBytes_error (n w : Z) (e : error) :
  Utils.bigIntegerToBytes n w = Throw e -> e = TruncationError.
Proof.
  unfold Utils.bigIntegerToBytes.
  destruct (_ =? _); [discriminate|].
  destruct (_ <? _); [discriminate|].
  destruct (existsb _ _); [|discriminate].
  now intros [= <-].
Qed.

Lemma u_error (A B : Z) (e : error) :
  SRP.u digest A B = Throw e -> e = TruncationError.
Proof.
  unfold SRP.u.
  destruct (Utils.bigIntegerToBytes A 128) eqn:HA; cbn [rbind];
    [|intros [= <-]; now apply bigIntegerToBytes_error in HA].
  destruct (Utils.bigIntegerToBytes B 128) eqn:HB; cbn [rbind];
    [discriminate|intros [= <-]; now apply bigIntegerToBytes_error in HB].
Qed.

Lemma k_error (N g : Z) (e : error) :
  SRP.k digest N g = Throw e -> e = TruncationError.
Proof.
  unfold SRP.k.
  destruct (Utils.bigIntegerToBytes N 128) eqn:HN; cbn [rbind];
    [|intros [= <-]; now apply bigIntegerToBytes_error in HN].
  destruct (Utils.bigIntegerToBytes g 128) eqn:Hg; cbn [rbind];
    [discriminate|intros [= <-]; now apply bigIntegerToBytes_error in Hg].
Qed.

Lemma K_error (S : Z) (e : error) :
  SRP.K digest S = Throw e -> e = TruncationError.
Proof.
  unfold SRP.K.
  destruct (Utils.bigIntegerToBytes S 128) eqn:HS; cbn [rbind];
    [discriminate|intros [= <-]; now apply bigIntegerToBytes_error in HS].
Qed.

Lemma Mc_error (N g : Z) (username : option jsstring) (salt : jsarray)
    (A B : Z) (K : jsarray) (e : error) :
  SRP.Mc digest N g username salt A B K = Throw e ->
  e = TruncationError \/ e = LengthMismatchError.
Proof.
  unfold SRP.Mc. cbv zeta.
  destruct (Utils.bigIntegerToBytes N 128) eqn:HN; cbn [rbind];
    [|intros [= <-]; left; now apply bigIntegerToBytes_error in HN].
  destruct (Utils.bigIntegerToBytes g 1) eqn:Hg; cbn [rbind];
    [|intros [= <-]; left; now apply bigIntegerToBytes_error in Hg].
  destruct (Utils.xorHashStrings _ _) eqn:Hx; cbn [rbind].
  - destruct (Utils.bigIntegerToBytes A 128) eqn:HA; cbn [rbind];
      [|intros [= <-]; left; now apply bigIntegerToBytes_error in HA].
    destruct (Utils.bigIntegerToBytes B 128) eqn:HB; cbn [rbind];
      [discriminate|intros [= <-]; left; now apply bigIntegerToBytes_error in HB].
  - intros [= <-]. right.
    unfold Utils.xorHashStrings in Hx.
    destruct (negb _); [now injection Hx as <- | discriminate].
Qed.

(** The run of the client, step by step, once the server info is set. *)
Lemma generatePublicKeyAndProof_unfold (c : Client.t) (N g : Z) (s : jsarray)
    (B rnd : Z) :
  Client.modulus c = Some N -> Client.generator c = Some g ->
  Client.salt c = Some s -> Client.serverPublicKey c = Some B ->
  SRP.generatePublicKeyAndProof digest c rnd
  = if B mod N =? 0 then ([], Throw PrecheckFailedError)
    else
      let A := SRP.A N g rnd in
      match SRP.u digest A B with
      | Throw e => ([Op_a; Op_A; Op_u], Throw e)
      | Ok u =>
          if u =? 0 then ([Op_a; Op_A; Op_u], Throw PrecheckFailedError)
          else
            match SRP.k digest N g with
            | Throw e => ([Op_a; Op_A; Op_u; Op_k], Throw e)
            | Ok k =>
                if k =? 0
                then ([Op_a; Op_A; Op_u; Op_k], Throw PrecheckFailedError)
                else
                  let x := SRP.x digest s (Client.username c) (Client.password c) in
                  match SRP.K digest (SRP.Sc N g B k x rnd u) with
                  | Throw e => ([Op_a; Op_A; Op_u; Op_k; Op_x; Op_Sc; Op_K], Throw e)
                  | Ok K =>
                      match SRP.Mc digest N g (Client.username c) s A B K with
                      | Throw e => (handshakeOrder, Throw e)
                      | Ok M =>
                          (handshakeOrder,
                           Ok (withSharedKey c K, mkClientParams A M))
                      end
                  end
            end
      end.
Proof.
  intros HN Hg Hs HB. unfold SRP.generatePublicKeyAndProof.
  rewrite HN, Hg, Hs, HB. cbn [arg rbind].
  destruct (B mod N =? 0); [reflexivity|].
  unfold call, tbind, tret, tthrow. cbv zeta. cbn [app].
  destruct (SRP.u digest _ B) as [u|e]; [|reflexivity].
  destruct (u =? 0); [reflexivity|].
  destruct (SRP.k digest N g) as [k|e]; [|reflexivity].
  destruct (k =? 0); [reflexivity|].
  destruct (SRP.K digest _) as [K|e]; [|reflexivity].
  destruct (SRP.Mc digest _ _ _ _ _ _ _) as [M|e]; [|reflexivity].
  unfold withSharedKey. rewrite HN, Hg, Hs, HB. reflexivity.
Qed.

End ClientRole.

Section ClientSteps.

Variable digest : hashInput -> list Z.
Variables (c : Client.t) (N g : Z) (s : jsarray) (B rnd : Z).
Hypothesis HN : Client.modulus c = Some N.
Hypothesis Hg : Client.generator c = Some g.
Hypothesis Hs : Client.salt c = Some s.
Hypothesis HB : Client.serverPublicKey c = Some B.

Let run := SRP.generatePublicKeyAndProof digest c rnd.
Let A := SRP.A N g rnd.
Let x := SRP.x digest s (Client.username c) (Client.password c).

Ltac by_steps :=
  subst run A x;
  rewrite (generatePublicKeyAndProof_unfold digest c N g s B rnd HN Hg Hs HB);
  cbv zeta.

(** Nothing is computed before the test of B: the log is empty exactly
    when the test fails. *)
Lemma steps_precheck_B : B mod N = 0 <-> run = ([], Throw PrecheckFailedError).
Proof.
  by_steps. destruct (Z.eqb_spec (B mod N) 0) as [H0|H0].
  - split; [reflexivity | intros _; exact H0].
  - split; [contradiction|].
    destruct (SRP.u digest _ B) as [u|e]; [|discriminate].
    destruct (u =? 0); [discriminate|].
    destruct (SRP.k digest N g) as [k|e]; [|discriminate].
    destruct (k =? 0); [discriminate|].
    destruct (SRP.K digest _) as [K|e]; [|discriminate].
    destruct (SRP.Mc digest _ _ _ _ _ _ _) as [M|e]; discriminate.
Qed.

(** The operations are invoked in the order a, A, u, k, x, S, K, M; a
    run stops after a prefix of it. *)
Lemma steps_prefix : exists rest, fst run ++ rest = handshakeOrder.
Proof.
  by_steps. destruct (B mod N =? 0); [now eexists|].
  destruct (SRP.u digest _ B) as [u|e]; [|now eexists].
  destruct (u =? 0); [now eexists|].
  destruct (SRP.k digest N g) as [k|e]; [|now eexists].
  destruct (k =? 0); [now eexists|].
  destruct (SRP.K digest _) as [K|e]; [|now eexists].
  destruct (SRP.Mc digest _ _ _ _ _ _ _) as [M|e]; exists []; reflexivity.
Qed.

Lemma steps_u_zero :
  B mod N <> 0 -> SRP.u digest A B = Ok 0 ->
  run = ([Op_a; Op_A; Op_u], Throw PrecheckFailedError).
Proof.
  intros H0 Hu. revert Hu. by_steps. intros Hu.
  destruct (Z.eqb_spec (B mod N) 0); [contradiction|].
  rewrite Hu. reflexivity.
Qed.

Lemma steps_k_zero (u : Z) :
  B mod N <> 0 -> SRP.u digest A B = Ok u -> u <> 0 ->
  SRP.k digest N g = Ok 0 ->
  run = ([Op_a; Op_A; Op_u; Op_k], Throw PrecheckFailedError).
Proof.
  intros H0 Hu Hu0 Hk. revert Hu. by_steps. intros Hu.
  destruct (Z.eqb_spec (B mod N) 0); [contradiction|].
  rewrite Hu. destruct (Z.eqb_spec u 0); [contradiction|].
  rewrite Hk. reflexivity.
Qed.

Lemma steps_ok (u k : Z) (K : jsarray) (M : jsstring) :
  B mod N <> 0 ->
  SRP.u digest A B = Ok u -> u <> 0 ->
  SRP.k digest N g = Ok k -> k <> 0 ->
  SRP.K digest (SRP.Sc N g B k x rnd u) = Ok K ->
  SRP.Mc digest N g (Client.username c) s A B K = Ok M ->
  run = (handshakeOrder, Ok (withSharedKey c K, mkClientParams A M)).
Proof.
  intros H0 Hu Hu0 Hk Hk0 HK HM. revert Hu HK HM. by_steps. intros Hu HK HM.
  destruct (Z.eqb_spec (B mod N) 0); [contradiction|].
  rewrite Hu. destruct (Z.eqb_spec u 0); [contradiction|].
  rewrite Hk. destruct (Z.eqb_spec k 0); [contradiction|].
  rewrite HK, HM. reflexivity.
Qed.

Lemma steps_ok_inv (cl : Client.t) (cp : ClientParams) :
  snd run = Ok (cl, cp) ->
  B mod N <> 0
  /\ fst run = handshakeOrder
  /\ exists u k K M,
       SRP.u digest A B = Ok u /\ u <> 0
       /\ SRP.k digest N g = Ok k /\ k <> 0
       /\ SRP.K digest (SRP.Sc N g B k x rnd u) = Ok K
       /\ SRP.Mc digest N g (Client.username c) s A B K = Ok M
       /\ cl = withSharedKey c K /\ cp = mkClientParams A M.
Proof.
  by_steps.
  destruct (Z.eqb_spec (B mod N) 0) as [H0|H0]; [discriminate|].
  destruct (SRP.u digest _ B) as [u|e] eqn:Hu; [|discriminate].
  destruct (Z.eqb_spec u 0) as [Hu0|Hu0]; [discriminate|].
  destruct (SRP.k digest N g) as [k|e] eqn:Hk; [|discriminate].
  destruct (Z.eqb_spec k 0) as [Hk0|Hk0]; [discriminate|].
  destruct (SRP.K digest _) as [K|e] eqn:HK; [|discriminate].
  destruct (SRP.Mc digest _ _ _ _ _ _ _) as [M|e] eqn:HM; [|discriminate].
  cbn [fst snd]. intros [= <- <-].
  split; [exact H0|]. split; [reflexivity|].
  exists u, k, K, M. repeat split; assumption.
Qed.

(** A run that fails does so on one of the three tests or inside a
    fixed-width encoding. *)
Lemma steps_errors (e : error) :
  snd run = Throw e ->
  e = PrecheckFailedError \/ e = TruncationError \/ e = LengthMismatchError.
Proof.
  by_steps.
  destruct (B mod N =? 0); [intros [= <-]; now left|].
  destruct (SRP.u digest _ B) as [u|e'] eqn:Hu;
    [|intros [= <-]; right; left; exact (u_error digest _ _ _ Hu)].
  destruct (u =? 0); [intros [= <-]; now left|].
  destruct (SRP.k digest N g) as [k|e'] eqn:Hk;
    [|intros [= <-]; right; left; exact (k_error digest _ _ _ Hk)].
  destruct (k =? 0); [intros [= <-]; now left|].
  destruct (SRP.K digest _) as [K|e'] eqn:HK;
    [|intros [= <-]; right; left; exact (K_error digest _ _ HK)].
  destruct (SRP.Mc digest _ _ _ _ _ _ _) as [M|e'] eqn:HM; [discriminate|].
  intros [= <-]. right. exact (Mc_error digest _ _ _ _ _ _ _ _ HM).
Qed.

(** An operation that throws ends the run there, with its error. *)
Lemma steps_u_throws (e : error) :
  B mod N <> 0 -> SRP.u digest A B = Throw e ->
  run = ([Op_a; Op_A; Op_u], Throw e) /\ e = TruncationError.
Proof.
  intros H0 Hu. split; [|exact (u_error digest _ _ _ Hu)].
  revert Hu. by_steps. intros Hu.
  destruct (Z.eqb_spec (B mod N) 0); [contradiction|].
  now rewrite Hu.
Qed.

Lemma steps_k_throws (u : Z) (e : error) :
  B mod N <> 0 -> SRP.u digest A B = Ok u -> u <> 0 ->
  SRP.k digest N g = Throw e ->
  run = ([Op_a; Op_A; Op_u; Op_k], Throw e) /\ e = TruncationError.
Proof.
  intros H0 Hu Hu0 Hk. split; [|exact (k_error digest _ _ _ Hk)].
  revert Hu. by_steps. intros Hu.
  destruct (Z.eqb_spec (B mod N) 0); [contradiction|].
  rewrite Hu. destruct (Z.eqb_spec u 0); [contradiction|].
  now rewrite Hk.
Qed.

Lemma steps_K_throws (u k : Z) (e : error) :
  B mod N <> 0 -> SRP.u digest A B = Ok u -> u <> 0 ->
  SRP.k digest N g = Ok k -> k <> 0 ->
  SRP.K digest (SRP.Sc N g B k x rnd u) = Throw e ->
  run = ([Op_a; Op_A; Op_u; Op_k; Op_x; Op_Sc; Op_K], Throw e)
  /\ e = TruncationError.
Proof.
  intros H0 Hu Hu0 Hk Hk0 HK. split; [|exact (K_error digest _ _ HK)].
  revert Hu HK. by_steps. intros Hu HK.
  destruct (Z.eqb_spec (B mod N) 0); [contradiction|].
  rewrite Hu. destruct (Z.eqb_spec u 0); [contradiction|].
  rewrite Hk. destruct (Z.eqb_spec k 0); [contradiction|].
  now rewrite HK.
Qed.

Lemma steps_Mc_throws (u k : Z) (K : jsarray) (e : error) :
  B mod N <> 0 -> SRP.u digest A B = Ok u -> u <> 0 ->
  SRP.k digest N g = Ok k -> k <> 0 ->
  SRP.K digest (SRP.Sc N g B k x rnd u) = Ok K ->
  SRP.Mc digest N g (Client.username c) s A B K = Throw e ->
  run = (handshakeOrder, Throw e)
  /\ (e = TruncationError \/ e = LengthMismatchError).
Proof.
  intros H0 Hu Hu0 Hk Hk0 HK HM.
  split; [|exact (Mc_error digest _ _ _ _ _ _ _ _ HM)].
  revert Hu HK HM. by_steps. intros Hu HK HM.
  destruct (Z.eqb_spec (B mod N) 0); [contradiction|].
  rewrite Hu. destruct (Z.eqb_spec u 0); [contradiction|].
  rewrite Hk. destruct (Z.eqb_spec k 0); [contradiction|].
  now rewrite HK, HM.
Qed.

(** A server public key of more than 128 bytes does not fit the
    encoding inside u. *)
Lemma steps_B_too_wide :
  B mod N <> 0 -> 256 ^ 128 <= B ->
  run = ([Op_a; Op_A; Op_u], Throw TruncationError).
Proof.
  intros H0 Hwide.
  assert (Hu : SRP.u digest A B = Throw TruncationError).
  { unfold SRP.u.
    destruct (Utils.bigIntegerToBytes A 128) as [Ab|e] eqn:HA; cbn [rbind].
    - now rewrite (bigIntegerToBytes_truncation B 128) by lia.
    - now rewrite (bigIntegerToBytes_error _ _ _ HA). }
  exact (proj1 (steps_u_throws _ H0 Hu)).
Qed.

(** C3, amended. On a client whose server info is set:
    the call fails with the precondition error and an empty log exactly
    when B mod N = 0; otherwise it invokes a, A, u, k, x, S, K, M in
    that order, stopping with the precondition error after u when
    u = 0 and after k when k = 0; when u, k, K or M throws, which is
    the truncation error of a fixed-width encoding that cannot hold its
    integer (B of more than 128 bytes makes u throw) or, in M, the
    error of digests of unequal length, the call stops at that
    operation with that error and returns no key; a failure is always
    one of these errors; and when u, k, K and M are computed and u and
    k are not zero, the call stores K as the shared key and returns A
    and M. The value [rnd] stands for what [SRP.a()] draws, a number of
    512 bits, which is never negative. *)
Theorem generatePublicKeyAndProof_steps :
  0 <= rnd ->
  (B mod N = 0 <-> run = ([], Throw PrecheckFailedError))
  /\ (exists rest, fst run ++ rest = handshakeOrder)
  /\ (B mod N <> 0 -> SRP.u digest A B = Ok 0 ->
      run = ([Op_a; Op_A; Op_u], Throw PrecheckFailedError))
  /\ (forall u, B mod N <> 0 -> SRP.u digest A B = Ok u -> u <> 0 ->
      SRP.k digest N g = Ok 0 ->
      run = ([Op_a; Op_A; Op_u; Op_k], Throw PrecheckFailedError))
  /\ (forall u k K M,
        B mod N <> 0 ->
        SRP.u digest A B = Ok u -> u <> 0 ->
        SRP.k digest N g = Ok k -> k <> 0 ->
        SRP.K digest (SRP.Sc N g B k x rnd u) = Ok K ->
        SRP.Mc digest N g (Client.username c) s A B K = Ok M ->
        run = (handshakeOrder, Ok (withSharedKey c K, mkClientParams A M)))
  /\ (forall e, snd run = Throw e ->
        e = PrecheckFailedError \/ e = TruncationError \/ e = LengthMismatchError)
  /\ (forall cl cp, snd run = Ok (cl, cp) ->
        fst run = handshakeOrder
        /\ clientPublicKey cp = A
        /\ exists K, Client.sharedKey cl = Some K)
  /\ (forall e, B mod N <> 0 -> SRP.u digest A B = Throw e ->
        run = ([Op_a; Op_A; Op_u], Throw e) /\ e = TruncationError)
  /\ (forall u e, B mod N <> 0 -> SRP.u digest A B = Ok u -> u <> 0 ->
        SRP.k digest N g = Throw e ->
        run = ([Op_a; Op_A; Op_u; Op_k], Throw e) /\ e = TruncationError)
  /\ (forall u k e,
        B mod N <> 0 -> SRP.u digest A B = Ok u -> u <> 0 ->
        SRP.k digest N g = Ok k -> k <> 0 ->
        SRP.K digest (SRP.Sc N g B k x rnd u) = Throw e ->
        run = ([Op_a; Op_A; Op_u; Op_k; Op_x; Op_Sc; Op_K], Throw e)
        /\ e = TruncationError)
  /\ (forall u k K e,
        B mod N <> 0 -> SRP.u digest A B = Ok u -> u <> 0 ->
        SRP.k digest N g = Ok k -> k <> 0 ->
        SRP.K digest (SRP.Sc N g B k x rnd u) = Ok K ->
        SRP.Mc digest N g (Client.username c) s A B K = Throw e ->
        run = (handshakeOrder, Throw e)
        /\ (e = TruncationError \/ e = LengthMismatchError))
  /\ (B mod N <> 0 -> 256 ^ 128 <= B ->
      run = ([Op_a; Op_A; Op_u], Throw TruncationError)).
Proof.
  intros _.
  split; [exact steps_precheck_B|].
  split; [exact steps_prefix|].
  split; [exact steps_u_zero|].
  split; [exact steps_k_zero|].
  split; [exact steps_ok|].
  split; [exact steps_errors|].
  split.
  { intros cl cp Hok.
    destruct (steps_ok_inv cl cp Hok)
      as (_ & Hlog & u & k & K & M & _ & _ & _ & _ & _ & _ & -> & ->).
    split; [exact Hlog|]. split; [reflexivity|]. now exists K. }
  split; [exact steps_u_throws|].
  split; [exact steps_k_throws|].
  split; [exact steps_K_throws|].
  split; [exact steps_Mc_throws|].
  exact steps_B_too_wide.
Qed.

End ClientSteps.

Lemma generatePublicKeyAndProof_steps_witness :
  7 mod 23 <> 0
  /\ fst (SRP.generatePublicKeyAndProof Sha1.digest (demoClient 7) 12345)
     = handshakeOrder
  /\ (exists K M,
        snd (SRP.generatePublicKeyAndProof Sha1.digest (demoClient 7) 12345)
        = Ok (withSharedKey (demoClient 7) K, mkClientParams 10 M))
  /\ SRP.generatePublicKeyAndProof Sha1.digest (demoClient (2 ^ 1024)) 12345
     = ([Op_a; Op_A; Op_u], Throw TruncationError)
  /\ SRP.generatePublicKeyAndProof Sha1.digest (clientOver (256 ^ 128 + 1) 5 7) 3
     = ([Op_a; Op_A; Op_u; Op_k], Throw TruncationError)
  /\ SRP.generatePublicKeyAndProof Sha1.digest (clientOver 23 256 7) 3
     = (handshakeOrder, Throw TruncationError).
Proof.
  pose proof (generatePublicKeyAndProof_steps Sha1.digest (demoClient 7) 23 5
                demoSalt 7 12345 eq_refl eq_refl eq_refl eq_refl ltac:(lia))
    as (_ & _ & _ & _ & Hok & _).
  pose proof (generatePublicKeyAndProof_steps Sha1.digest (demoClient (2 ^ 1024))
                23 5 demoSalt (2 ^ 1024) 12345 eq_refl eq_refl eq_refl eq_refl
                ltac:(lia))
    as (_ & _ & _ & _ & _ & _ & _ & _ & _ & _ & _ & Hwide).
  pose proof (generatePublicKeyAndProof_steps Sha1.digest
                (clientOver (256 ^ 128 + 1) 5 7) (256 ^ 128 + 1) 5 demoSalt 7 3
                eq_refl eq_refl eq_refl eq_refl ltac:(lia))
    as (_ & _ & _ & _ & _ & _ & _ & _ & Hk & _).
  pose proof (generatePublicKeyAndProof_steps Sha1.digest (clientOver 23 256 7)
                23 256 demoSalt 7 3 eq_refl eq_refl eq_refl eq_refl ltac:(lia))
    as (_ & _ & _ & _ & _ & _ & _ & _ & _ & _ & HM & _).
  assert (H7 : 7 mod 23 <> 0) by (vm_compute; discriminate).
  split; [exact H7|].
  specialize (fun u k K M Hu Hu0 Hk Hk0 HK HM =>
                Hok u k K M H7 Hu Hu0 Hk Hk0 HK HM).
  eassert (Hrun : _).
  { eapply Hok.
    - vm_compute. reflexivity.
    - vm_compute. discriminate.
    - vm_compute. reflexivity.
    - vm_compute. discriminate.
    - vm_compute. reflexivity.
    - vm_compute. reflexivity. }
  rewrite Hrun. split; [reflexivity|].
  split; [eexists _, _; reflexivity|].
  split; [apply Hwide; vm_compute; discriminate|].
  split.
  - eapply proj1. eapply (Hk _ TruncationError).
    + vm_compute. discriminate.
    + vm_compute. reflexivity.
    + vm_compute. discriminate.
    + vm_compute. reflexivity.
  - eapply proj1. eapply (HM _ _ _ TruncationError).
    + vm_compute. discriminate.
    + vm_compute. reflexivity.
    + vm_compute. discriminate.
    + vm_compute. reflexivity.
    + vm_compute. discriminate.
    + vm_compute. reflexivity.
    + vm_compute. reflexivity.
Defined.

(** C3, counterexample. A challenge over the first group of the
    registry with B = 2^1024 decodes and is accepted by the client;
    B mod N is not zero, and the call neither returns nor fails with the
    precondition error: the encoding of B inside u throws the truncation
    error. *)
Lemma generatePublicKeyAndProof_truncation_counterexample :
  exists info c N,
    decodeServerParamsString (Some oversizedChallenge) = Ok info
    /\ SRP.setServerInfo
         (SRP.setIdentity Client.new (Some (str "alice")) (Some (str "secret")))
         info = Ok c
    /\ Client.modulus c = Some N
    /\ Client.serverPublicKey c = Some (2 ^ 1024)
    /\ 2 ^ 1024 mod N <> 0
    /\ SRP.generatePublicKeyAndProof Sha1.digest c 3
       = ([Op_a; Op_A; Op_u], Throw TruncationError).
Proof.
  let r := eval vm_compute in (decodeServerParamsString (Some oversizedChallenge)) in
  match r with
  | Ok ?info =>
      match info with
      | mkServerInfo (Some ?N) (Some ?g) (Some ?s) _ _ =>
          exists info,
            (Client.mk (Some (str "alice")) (Some (str "secret")) (Some N)
               (Some g) (Some s) (Some (2 ^ 1024)) None), N
      end
  end.
  split; [vm_compute; reflexivity|].
  split; [vm_compute; reflexivity|].
  split; [reflexivity|]. split; [reflexivity|].
  split; [vm_compute; discriminate|].
  vm_compute. reflexivity.
Qed.

Example generatePublicKeyAndProof_truncation_small :
  2 ^ 1024 mod 23 <> 0
  /\ SRP.generatePublicKeyAndProof Sha1.digest (demoClient (2 ^ 1024)) 12345
     = ([Op_a; Op_A; Op_u], Throw TruncationError).
Proof. split; [vm_compute; discriminate | vm_compute; reflexivity]. Qed.

(** ** Agreement of the session keys *)

Lemma SHA1_nonneg (digest : hashInput -> list Z) (m : hashInput) :
  0 <= BigInteger.fromString16 (SRP.SHA1 digest m).
Proof. apply fromString16_hashString_nonneg. Qed.

Lemma u_nonneg (digest : hashInput -> list Z) (A B u : Z) :
  SRP.u digest A B = Ok u -> 0 <= u.
Proof.
  unfold SRP.u.
  destruct (Utils.bigIntegerToBytes A 128); cbn [rbind]; [|discriminate].
  destruct (Utils.bigIntegerToBytes B 128); cbn [rbind]; [|discriminate].
  intros [= <-]. apply SHA1_nonneg.
Qed.

Lemma x_nonneg (digest : hashInput -> list Z) (salt : jsarray)
    (username password : option jsstring) :
  0 <= SRP.x digest salt username password.
Proof. apply SHA1_nonneg. Qed.

(** The server's proof needs no encoding that the scrambler did not
    already need. *)
Lemma Ms_after_u (digest : hashInput -> list Z) (A B u : Z) (M : jsstring)
    (K : jsarray) :
  SRP.u digest A B = Ok u -> exists proof, SRP.Ms digest A M K = Ok proof.
Proof.
  unfold SRP.u, SRP.Ms. cbv zeta.
  destruct (Utils.bigIntegerToBytes A 128); cbn [rbind]; [|discriminate].
  intros _. now eexists.
Qed.

(** C1. Let the verifier store answer the user name with a record
    whose modulus N is positive and whose verifier is g^x mod N for the
    x derived from the record's salt, the user name and the password,
    and let the ephemeral secrets a and b be not negative. When the
    client, given the answer of [startLogin], completes
    [generatePublicKeyAndProof], then [finishLogin] on the client's A
    and proof completes as well, and the key the server stores is the
    key the client stored. *)
Theorem session_keys_agree (digest : hashInput -> list Z)
    (srv0 : Server.t) (c0 : Client.t)
    (username : jsstring) (password : option jsstring) (entry : Entry)
    (a b : Z) (srv : Server.t) (info : ServerInfo) (c cl : Client.t)
    (cp : ClientParams) :
  Server.lookupFunc srv0 username = Ok entry ->
  0 < BigInteger.fromString16 (Utils.byteArrayToHashString (entry_n entry)) ->
  BigInteger.fromString16 (Utils.byteArrayToHashString (entry_v entry))
  = SRP.v (BigInteger.fromString16 (Utils.byteArrayToHashString (entry_n entry)))
      (BigInteger.fromString16 (Utils.byteArrayToHashString (entry_g entry)))
      (SRP.x digest (entry_s entry) (Some username) password) ->
  0 <= a -> 0 <= b ->
  SRP.startLogin digest srv0 username b = Ok (srv, info) ->
  SRP.setServerInfo (SRP.setIdentity c0 (Some username) password) info = Ok c ->
  snd (SRP.generatePublicKeyAndProof digest c a) = Ok (cl, cp) ->
  exists srv' proof K,
    SRP.finishLogin digest srv cp = Ok (srv', proof)
    /\ Client.sharedKey cl = Some K
    /\ Server.sharedKey srv' = Some K.
Proof.
  intros Hlookup.
  set (N := BigInteger.fromString16 (Utils.byteArrayToHashString (entry_n entry))).
  set (g := BigInteger.fromString16 (Utils.byteArrayToHashString (entry_g entry))).
  set (v := BigInteger.fromString16 (Utils.byteArrayToHashString (entry_v entry))).
  set (x := SRP.x digest (entry_s entry) (Some username) password).
  intros HN Hv Ha Hb Hstart Hset Hgen.
  (* the server's first step *)
  unfold SRP.startLogin in Hstart. rewrite Hlookup in Hstart.
  cbn [rbind] in Hstart. cbv zeta in Hstart. fold N g v in Hstart.
  unfold SRP.B in Hstart.
  destruct (SRP.k digest N g) as [kk|e] eqn:Hk; cbn [rbind] in Hstart;
    [|discriminate].
  injection Hstart as <- <-.
  (* the client's configuration *)
  cbn in Hset. injection Hset as <-.
  (* the client's run *)
  match type of Hgen with
  | snd (SRP.generatePublicKeyAndProof _ ?c' _) = _ =>
      apply (steps_ok_inv digest c' N g (entry_s entry)
               ((kk * v + BigInteger.modPow g b N) mod N) a
               eq_refl eq_refl eq_refl eq_refl) in Hgen
  end.
  destruct Hgen
    as (HBN & _ & u & k & K & M & Hu & Hu0 & Hk' & _ & HK & _ & -> & ->).
  cbn [Client.username Client.password] in HK. fold x in HK.
  rewrite Hk in Hk'. injection Hk' as <-.
  (* the client's test of B excludes the modulus 1 *)
  assert (HN1 : 1 < N).
  { destruct (Z.eq_dec N 1) as [H1|H1]; [|lia].
    exfalso. apply HBN. rewrite H1. apply Z.mod_1_r. }
  (* the two secrets are equal *)
  rewrite Hv in HK, Hu.
  assert (Hu' : 0 <= u) by exact (u_nonneg _ _ _ _ Hu).
  assert (Hx : 0 <= x) by apply x_nonneg.
  rewrite shared_secret_agree in HK by lia.
  destruct (Ms_after_u digest _ _ _ M K Hu) as [proof Hproof].
  (* the server's second step *)
  unfold SRP.finishLogin. cbv zeta.
  cbn [clientPublicKey clientProof Server.serverPublicKey Server.modulus
       Server.verifier Server.serverPrivateKey arg rbind].
  rewrite Hv, Hu. cbn [rbind].
  destruct (Z.eqb_spec u 0) as [|_]; [contradiction|].
  rewrite HK. cbn [rbind]. rewrite Hproof. cbn [rbind].
  eexists _, proof, K. repeat split; reflexivity.
Qed.

Lemma session_keys_agree_witness :
  exists srv info c cl cp srv' proof K,
    SRP.startLogin Sha1.digest (Server.new demoLookup) (str "alice") 6789
    = Ok (srv, info)
    /\ SRP.setServerInfo
         (SRP.setIdentity Client.new (Some (str "alice")) (Some (str "secret")))
         info = Ok c
    /\ snd (SRP.generatePublicKeyAndProof Sha1.digest c 12345) = Ok (cl, cp)
    /\ SRP.finishLogin Sha1.digest srv cp = Ok (srv', proof)
    /\ Client.sharedKey cl = Some K
    /\ Server.sharedKey srv' = Some K.
Proof.
  assert (Hlookup : Server.lookupFunc (Server.new demoLookup) (str "alice")
                    = Ok demoEntry) by reflexivity.
  assert (HN : 0 < BigInteger.fromString16
                     (Utils.byteArrayToHashString (entry_n demoEntry)))
    by (vm_compute; reflexivity).
  assert (Hv : BigInteger.fromString16
                 (Utils.byteArrayToHashString (entry_v demoEntry))
               = SRP.v
                   (BigInteger.fromString16
                      (Utils.byteArrayToHashString (entry_n demoEntry)))
                   (BigInteger.fromString16
                      (Utils.byteArrayToHashString (entry_g demoEntry)))
                   (SRP.x Sha1.digest (entry_s demoEntry) (Some (str "alice"))
                      (Some (str "secret"))))
    by (vm_compute; reflexivity).
  let r := eval vm_compute in
             (SRP.startLogin Sha1.digest (Server.new demoLookup) (str "alice") 6789) in
  match r with
  | Ok (?srv, ?info) =>
      assert (Hstart : SRP.startLogin Sha1.digest (Server.new demoLookup)
                         (str "alice") 6789 = Ok (srv, info))
        by (vm_compute; reflexivity);
      let r2 := eval vm_compute in
                  (SRP.setServerInfo
                     (SRP.setIdentity Client.new (Some (str "alice"))
                        (Some (str "secret"))) info) in
      match r2 with
      | Ok ?c =>
          assert (Hset : SRP.setServerInfo
                           (SRP.setIdentity Client.new (Some (str "alice"))
                              (Some (str "secret"))) info = Ok c)
            by (vm_compute; reflexivity);
          let r3 := eval vm_compute in
                      (snd (SRP.generatePublicKeyAndProof Sha1.digest c 12345)) in
          match r3 with
          | Ok (?cl, ?cp) =>
              assert (Hgen : snd (SRP.generatePublicKeyAndProof Sha1.digest c 12345)
                             = Ok (cl, cp))
                by (vm_compute; reflexivity);
              destruct (session_keys_agree Sha1.digest (Server.new demoLookup)
                          Client.new (str "alice") (Some (str "secret")) demoEntry
                          12345 6789 srv info c cl cp
                          Hlookup HN Hv ltac:(lia) ltac:(lia) Hstart Hset Hgen)
                as (srv' & proof & K & Hfinish & Hclient & Hserver);
              exists srv, info, c, cl, cp, srv', proof, K;
              exact (conj Hstart (conj Hset (conj Hgen
                       (conj Hfinish (conj Hclient Hserver)))))
          end
      end
  end.
Defined.

(** ** Runs in which every encoding fits *)

Lemma modPowPos_bound (g : Z) (e : positive) (m : Z) :
  0 < m -> 0 <= BigInteger.modPowPos g e m < m.
Proof.
  intros Hm. rewrite modPowPos_spec by exact Hm. apply Z.mod_pos_bound. lia.
Qed.

(** The result lies below the modulus, except that it is 1 under the
    modulus 1 for an exponent that is not positive. *)
Lemma modPow_bound (g e m : Z) :
  0 < m -> 0 <= BigInteger.modPow g e m < Z.max m 2.
Proof.
  intros Hm. destruct e as [|p|p]; cbn [BigInteger.modPow]; try lia.
  pose proof (modPowPos_bound g p m Hm). lia.
Qed.

Section Fits.

Variable digest : hashInput -> list Z.

Lemma u_fits (A B : Z) :
  0 <= A < 256 ^ 128 -> 0 <= B < 256 ^ 128 ->
  exists u, SRP.u digest A B = Ok u.
Proof.
  intros HA HB. unfold SRP.u.
  rewrite (bigIntegerToBytes_fits A 128), (bigIntegerToBytes_fits B 128) by lia.
  cbn [rbind]. now eexists.
Qed.

Lemma k_fits (N g : Z) :
  0 <= N < 256 ^ 128 -> 0 <= g < 256 ^ 128 ->
  exists k, SRP.k digest N g = Ok k.
Proof.
  intros HN Hg. unfold SRP.k.
  rewrite (bigIntegerToBytes_fits N 128), (bigIntegerToBytes_fits g 128) by lia.
  cbn [rbind]. now eexists.
Qed.

Lemma K_fits (S : Z) :
  0 <= S < 256 ^ 128 -> exists K, SRP.K digest S = Ok K.
Proof.
  intros HS. unfold SRP.K.
  rewrite (bigIntegerToBytes_fits S 128) by lia.
  cbn [rbind]. now eexists.
Qed.

Lemma SHA1_length (m : hashInput) :
  length (SRP.SHA1 digest m) = (2 * length (digest m))%nat.
Proof.
  unfold SRP.SHA1. now rewrite byteArrayToHashString_length, length_map.
Qed.

Lemma Mc_fits (N g : Z) (username : option jsstring) (salt : jsarray)
    (A B : Z) (K : jsarray) :
  0 <= N < 256 ^ 128 -> 0 <= g < 256 ->
  0 <= A < 256 ^ 128 -> 0 <= B < 256 ^ 128 ->
  length (digest (HashBytes (bytesFrom N 0 128)))
  = length (digest (HashBytes (bytesFrom g 0 1))) ->
  exists M, SRP.Mc digest N g username salt A B K = Ok M.
Proof.
  intros HN Hg HA HB Hlen. unfold SRP.Mc. cbv zeta.
  rewrite (bigIntegerToBytes_fits N 128), (bigIntegerToBytes_fits g 1),
    (bigIntegerToBytes_fits A 128), (bigIntegerToBytes_fits B 128) by lia.
  cbn [rbind].
  change (Z.to_nat 128) with 128%nat. change (Z.to_nat 1) with 1%nat.
  unfold Utils.xorHashStrings, JS.len.
  rewrite !SHA1_length, Hlen, Z.eqb_refl. cbn [negb rbind].
  now eexists.
Qed.

(** With a modulus of at most 1024 bits, a generator of one byte and a
    B below 2^1024, the run that passes the three tests stores a key and
    returns. *)
Lemma generatePublicKeyAndProof_fits (c : Client.t) (N g : Z) (s : jsarray)
    (B rnd u k : Z) :
  Client.modulus c = Some N -> Client.generator c = Some g ->
  Client.salt c = Some s -> Client.serverPublicKey c = Some B ->
  0 < N < 256 ^ 128 -> 0 <= g < 256 -> 0 <= B < 256 ^ 128 ->
  length (digest (HashBytes (bytesFrom N 0 128)))
  = length (digest (HashBytes (bytesFrom g 0 1))) ->
  B mod N <> 0 ->
  SRP.u digest (SRP.A N g rnd) B = Ok u -> u <> 0 ->
  SRP.k digest N g = Ok k -> k <> 0 ->
  exists K M,
    SRP.generatePublicKeyAndProof digest c rnd
    = (handshakeOrder,
       Ok (withSharedKey c K, mkClientParams (SRP.A N g rnd) M)).
Proof.
  intros HN Hg Hs HB HNb Hgb HBb Hlen HB0 Hu Hu0 Hk Hk0.
  assert (HA : 0 <= SRP.A N g rnd < 256 ^ 128).
  { unfold SRP.A. pose proof (modPow_bound g rnd N ltac:(lia)). lia. }
  set (x := SRP.x digest s (Client.username c) (Client.password c)).
  assert (HS : 0 <= SRP.Sc N g B k x rnd u < 256 ^ 128).
  { unfold SRP.Sc.
    pose proof (modPow_bound
                  (B + (k * (N - BigInteger.modPow g x N)) mod N)
                  (rnd + u * x) N ltac:(lia)).
    lia. }
  destruct (K_fits _ HS) as [K HK].
  destruct (Mc_fits N g (Client.username c) s (SRP.A N g rnd) B K
              ltac:(lia) Hgb HA HBb Hlen) as [M HM].
  exists K, M.
  exact (steps_ok digest c N g s B rnd HN Hg Hs HB u k K M HB0 Hu Hu0 Hk Hk0 HK HM).
Qed.

(** The challenge branch of the initial handler: when the header
    decodes, the client accepts it and completes its run, the proof is
    posted and the state holds the client after the run. *)
Lemma login_challenge (fetch : Request -> result Response) (st : AuthState)
    (username : option jsstring) (rnd : Z) (response : Response)
    (serverInfo : ServerInfo) (c1 c2 : Client.t) (clientParams : ClientParams)
    (a64 : jsstring) :
  status response = 403 ->
  decodeServerParamsString (header response (str "X-NI-AUTH-PARAMS"))
  = Ok serverInfo ->
  SRP.setServerInfo (srpClient st) serverInfo = Ok c1 ->
  snd (SRP.generatePublicKeyAndProof digest c1 rnd) = Ok (c2, clientParams) ->
  Utils.bigIntToBase64 (clientPublicKey clientParams) 128 = Ok a64 ->
  login_onInitialResponse digest fetch st username rnd response
  = (fetch
       (mkRequest (str "/Login") (str "POST")
          [(str "Content-Type", str "application/x-www-form-urlencoded")]
          (Some
             (str "A=" ++ Utils.makeUrlBase64 a64 ++ str "&M="
                ++ Utils.makeUrlBase64
                     (Utils.hexStringToBase64 (clientProof clientParams))
                ++ str "&ss="
                ++ default (str "undefined") (si_loginToken serverInfo)))),
     set_srpClient c2 (set_srpClient c1 st)).
Proof.
  intros Hstatus Hdecode Hinfo Hrun H64.
  unfold login_onInitialResponse.
  rewrite Hstatus. cbn [Z.eqb Pos.eqb].
  rewrite Hdecode, Hinfo, Hrun, H64. reflexivity.
Qed.

End Fits.

Lemma login_final_other_status_witness :
  exists st',
    login Sha1.digest noXML demoNetwork initialState (Some (str "alice"))
      (Some (str "secret")) 3 = (Ok JUndefined, st')
    /\ exists K, Client.sharedKey (srpClient st') = Some K.
Proof.
  set (user := Some (str "alice")). set (pass := Some (str "secret")).
  set (st0 := set_srpClient (SRP.setIdentity (srpClient initialState) user pass)
                initialState).
  let r := eval vm_compute in
             (decodeServerParamsString (header demoChallenge (str "X-NI-AUTH-PARAMS"))) in
  match r with
  | Ok ?info =>
      assert (Hdecode : decodeServerParamsString
                          (header demoChallenge (str "X-NI-AUTH-PARAMS")) = Ok info)
        by (vm_compute; reflexivity);
      match info with
      | mkServerInfo (Some ?N) (Some ?g) (Some ?s) (Some ?B) _ =>
          set (c1 := Client.mk user pass (Some N) (Some g) (Some s) (Some B) None);
          assert (Hinfo : SRP.setServerInfo (srpClient st0) info = Ok c1)
            by reflexivity;
          let ru := eval vm_compute in (SRP.u Sha1.digest (SRP.A N g 3) B) in
          let rk := eval vm_compute in (SRP.k Sha1.digest N g) in
          match constr:((ru, rk)) with
          | (Ok ?u, Ok ?k) =>
              assert (Hu : SRP.u Sha1.digest (SRP.A N g 3) B = Ok u)
                by (vm_compute; reflexivity);
              assert (Hk : SRP.k Sha1.digest N g = Ok k)
                by (vm_compute; reflexivity);
              destruct (generatePublicKeyAndProof_fits Sha1.digest c1 N g s B 3 u k
                          eq_refl eq_refl eq_refl eq_refl
                          ltac:(split; apply Z.ltb_lt; vm_compute; reflexivity)
                          ltac:(lia)
                          ltac:(split; [lia | apply Z.ltb_lt; vm_compute; reflexivity])
                          ltac:(vm_compute; reflexivity)
                          ltac:(vm_compute; discriminate)
                          Hu ltac:(discriminate) Hk ltac:(discriminate))
                as (K & M & Hrun);
              let r64 := eval vm_compute in (Utils.bigIntToBase64 (SRP.A N g 3) 128) in
              match r64 with
              | Ok ?a64 =>
                  assert (H64 : Utils.bigIntToBase64 (SRP.A N g 3) 128 = Ok a64)
                    by (vm_compute; reflexivity);
                  pose proof (login_challenge Sha1.digest demoNetwork st0 user 3
                                demoChallenge info c1 (withSharedKey c1 K)
                                (mkClientParams (SRP.A N g 3) M) a64
                                eq_refl Hdecode Hinfo
                                ltac:(rewrite Hrun; reflexivity) H64) as Hfirst
              end
          end
      end
  end.
  change (demoNetwork _) with (Ok (mkResponse 500 (fun _ => None) [])) in Hfirst.
  eexists. split.
  - eapply (login_final_other_status Sha1.digest noXML demoNetwork initialState
              _ user pass 3 demoChallenge (mkResponse 500 (fun _ => None) [])).
    + reflexivity.
    + exact Hfirst.
    + cbn. lia.
    + cbn. lia.
  - exists K. reflexivity.
Defined.

(** * Further properties *)

(** ** Hash strings and byte arrays *)

Lemma substr_app (pre l : jsstring) (k : Z) :
  0 <= k -> JS.substr (pre ++ l) (JS.len pre) k = take (Z.to_nat k) l.
Proof.
  intros Hk. unfold JS.substr. cbv zeta.
  assert (Hlen : JS.len (pre ++ l) = JS.len pre + JS.len l)
    by (unfold JS.len; rewrite length_app; lia).
  rewrite Hlen.
  destruct (Z.ltb_spec (JS.len pre) 0) as [Hneg|_]; [unfold JS.len in Hneg; lia|].
  rewrite (Z.min_l (JS.len pre)) by (unfold JS.len; lia).
  rewrite Z.max_l by lia.
  replace (JS.len pre + JS.len l - JS.len pre) with (JS.len l) by lia.
  unfold JS.len at 2. rewrite Nat2Z.id, drop_app_length.
  destruct (Z.le_gt_cases k (JS.len l)) as [Hle|Hgt].
  - now rewrite Z.min_l by lia.
  - rewrite Z.min_r by lia. unfold JS.len. rewrite Nat2Z.id.
    rewrite !firstn_all2; [reflexivity| unfold JS.len in Hgt; lia | lia].
Qed.

Lemma parseInt_pair_checked :
  forallb
    (fun i =>
       bool_decide
         (JS.parseInt [JS.hexDigit (Z.of_nat i / 16); JS.hexDigit (Z.of_nat i mod 16)] 16
          = Num (Z.of_nat i)))
    (seq 0 256) = true.
Proof. vm_compute. reflexivity. Qed.

Lemma parseInt_hexPair (b : jsnum) :
  JS.parseInt (hexPair b) 16 = Num (Base64.byteOf b).
Proof.
  pose proof (forall_below
                (fun v => bool_decide
                   (JS.parseInt [JS.hexDigit (v / 16); JS.hexDigit (v mod 16)] 16
                    = Num v))
                256 parseInt_pair_checked (Base64.byteOf b) (byteOf_range b)) as H.
  apply bool_decide_eq_true in H. exact H.
Qed.

Lemma hashStringToByteArray_loop_pairs (ar : jsarray) :
  forall (pre : jsstring) (acc : jsarray) (fuel : nat),
    (length ar <= fuel)%nat ->
    Utils.hashStringToByteArray_loop fuel (pre ++ concat (map hexPair ar))
      (JS.len pre) acc
    = acc ++ maskBytes ar.
Proof.
  induction ar as [|b ar IH]; intros pre acc fuel Hfuel.
  - cbn [map concat maskBytes]. rewrite !app_nil_r.
    destruct fuel as [|fuel]; [reflexivity|].
    cbn [Utils.hashStringToByteArray_loop].
    now rewrite Z.ltb_irrefl.
  - destruct fuel as [|fuel]; [cbn in Hfuel; lia|].
    cbn [Utils.hashStringToByteArray_loop map concat].
    assert (Hlt : (JS.len pre <? JS.len (pre ++ hexPair b ++ concat (map hexPair ar)))
                  = true).
    { apply Z.ltb_lt. unfold JS.len. rewrite !length_app. cbn [hexPair length]. lia. }
    rewrite Hlt, substr_app by lia.
    change (take (Z.to_nat 2) (hexPair b ++ concat (map hexPair ar))) with (hexPair b).
    rewrite parseInt_hexPair.
    replace (JS.len pre + 2) with (JS.len (pre ++ hexPair b))
      by (unfold JS.len; rewrite length_app; cbn [hexPair length]; lia).
    rewrite (app_assoc pre (hexPair b)).
    rewrite IH by (cbn in Hfuel; lia).
    rewrite <- app_assoc. reflexivity.
Qed.

Lemma hashStringToByteArray_hashString (ar : jsarray) :
  Utils.hashStringToByteArray (Utils.byteArrayToHashString ar) = maskBytes ar.
Proof.
  unfold Utils.hashStringToByteArray.
  rewrite byteArrayToHashString_length, byteArrayToHashString_pairs.
  apply (hashStringToByteArray_loop_pairs ar [] []). lia.
Qed.

Lemma hexDigit_lower (d : Z) : 0 <= d < 16 -> isLowerHex (JS.hexDigit d) = true.
Proof.
  intros Hd. unfold isLowerHex, JS.hexDigit.
  destruct (Z.ltb_spec d 10).
  - replace (48 <=? 48 + d) with true by (symmetry; apply Z.leb_le; lia).
    replace (48 + d <=? 57) with true by (symmetry; apply Z.leb_le; lia).
    reflexivity.
  - replace (97 <=? 87 + d) with true by (symmetry; apply Z.leb_le; lia).
    replace (87 + d <=? 102) with true by (symmetry; apply Z.leb_le; lia).
    apply orb_true_r.
Qed.

Lemma hashString_lower (ar : jsarray) :
  Forall (fun c => isLowerHex c = true) (Utils.byteArrayToHashString ar).
Proof.
  rewrite byteArrayToHashString_pairs.
  induction ar as [|b ar IH]; cbn [map concat]; [constructor|].
  pose proof (byteOf_range b).
  apply Forall_app. split; [|exact IH].
  repeat constructor; apply hexDigit_lower; zdiv.
Qed.

(** X1. Bytes to hash string and back: the hash string of an array has
    two characters for every element, all of them digits or letters
    from a to f, and [hashStringToByteArray] reads it back as the array
    with every element taken modulo 256. *)
Theorem hashString_round_trip (ar : jsarray) :
  Utils.hashStringToByteArray (Utils.byteArrayToHashString ar) = maskBytes ar
  /\ length (Utils.byteArrayToHashString ar) = (2 * length ar)%nat
  /\ Forall (fun c => isLowerHex c = true) (Utils.byteArrayToHashString ar).
Proof.
  split; [apply hashStringToByteArray_hashString|].
  split; [apply byteArrayToHashString_length | apply hashString_lower].
Qed.

Lemma hexPair_mask (b : jsnum) : hexPair (Num (Base64.byteOf b)) = hexPair b.
Proof.
  unfold hexPair.
  assert (H : Base64.byteOf (Num (Base64.byteOf b)) = Base64.byteOf b).
  { pose proof (byteOf_range b) as Hb. unfold Base64.byteOf at 1.
    cbn [JS.ToInt32]. rewrite (Z.mod_small (Base64.byteOf b + 2 ^ 31)) by lia.
    replace (Base64.byteOf b + 2 ^ 31 - 2 ^ 31) with (Base64.byteOf b) by lia.
    apply Z.mod_small. lia. }
  now rewrite H.
Qed.

Lemma byteArrayToHashString_mask (ar : jsarray) :
  Utils.byteArrayToHashString (maskBytes ar) = Utils.byteArrayToHashString ar.
Proof.
  rewrite !byteArrayToHashString_pairs. unfold maskBytes. rewrite map_map.
  f_equal. apply map_ext. intros b. apply hexPair_mask.
Qed.

(** A string of lower-case hexadecimal characters of even length is the
    hash string of an array. *)
Lemma lowerHex_is_hashString (count : nat) :
  forall s : jsstring,
    length s = (2 * count)%nat ->
    Forall (fun c => isLowerHex c = true) s ->
    exists ar, s = Utils.byteArrayToHashString ar.
Proof.
  induction count as [|count IH]; intros s Hlen Hhex.
  - destruct s; [|discriminate]. now exists [].
  - destruct s as [|c1 [|c2 s]]; try (cbn in Hlen; lia).
    inversion Hhex as [|? ? H1 Hhex']; subst.
    inversion Hhex' as [|? ? H2 Hrest]; subst.
    destruct (IH s ltac:(cbn in Hlen; lia) Hrest) as [ar ->].
    set (d1 := if c1 <? 58 then c1 - 48 else c1 - 87).
    set (d2 := if c2 <? 58 then c2 - 48 else c2 - 87).
    exists (Num (d1 * 16 + d2) :: ar).
    rewrite !byteArrayToHashString_pairs. cbn [map concat app].
    unfold isLowerHex in H1, H2.
    assert (Hd1 : 0 <= d1 < 16 /\ JS.hexDigit d1 = c1).
    { subst d1. unfold JS.hexDigit.
      destruct (Z.ltb_spec c1 58);
        [destruct (Z.ltb_spec (c1 - 48) 10) | destruct (Z.ltb_spec (c1 - 87) 10)];
        repeat match goal with
               | H : _ || _ = true |- _ => apply orb_true_iff in H; destruct H
               | H : _ && _ = true |- _ => apply andb_true_iff in H; destruct H
               | H : (_ <=? _) = true |- _ => apply Z.leb_le in H
               end; lia. }
    assert (Hd2 : 0 <= d2 < 16 /\ JS.hexDigit d2 = c2).
    { subst d2. unfold JS.hexDigit.
      destruct (Z.ltb_spec c2 58);
        [destruct (Z.ltb_spec (c2 - 48) 10) | destruct (Z.ltb_spec (c2 - 87) 10)];
        repeat match goal with
               | H : _ || _ = true |- _ => apply orb_true_iff in H; destruct H
               | H : _ && _ = true |- _ => apply andb_true_iff in H; destruct H
               | H : (_ <=? _) = true |- _ => apply Z.leb_le in H
               end; lia. }
    destruct Hd1 as [Hr1 He1], Hd2 as [Hr2 He2].
    assert (Hpair : hexPair (Num (d1 * 16 + d2)) = [c1; c2]); [|now rewrite Hpair].
    unfold hexPair.
    assert (Hb : Base64.byteOf (Num (d1 * 16 + d2)) = d1 * 16 + d2).
    { unfold Base64.byteOf. cbn [JS.ToInt32].
      rewrite (Z.mod_small (d1 * 16 + d2 + 2 ^ 31)) by lia.
      replace (d1 * 16 + d2 + 2 ^ 31 - 2 ^ 31) with (d1 * 16 + d2) by lia.
      apply Z.mod_small. lia. }
    rewrite Hb.
    replace ((d1 * 16 + d2) / 16) with d1 by zdiv.
    replace ((d1 * 16 + d2) mod 16) with d2 by zdiv.
    now rewrite He1, He2.
Qed.

(** X2. Hash string to bytes and back: a string of even length made of
    digits and of letters from a to f is returned unchanged by
    [byteArrayToHashString] after [hashStringToByteArray]. *)
Theorem hashString_of_bytes_of_hashString (s : jsstring) :
  Nat.Even (length s) ->
  Forall (fun c => isLowerHex c = true) s ->
  Utils.byteArrayToHashString (Utils.hashStringToByteArray s) = s.
Proof.
  intros [count Hlen] Hhex.
  destruct (lowerHex_is_hashString count s Hlen Hhex) as [ar ->].
  rewrite hashStringToByteArray_hashString.
  apply byteArrayToHashString_mask.
Qed.

Lemma hashString_of_bytes_of_hashString_witness :
  Utils.byteArrayToHashString
    (Utils.hashStringToByteArray (str "a9993e364706816aba3e25717850c26c9cd0d89d"))
  = str "a9993e364706816aba3e25717850c26c9cd0d89d".
Proof.
  apply hashString_of_bytes_of_hashString.
  - exists 20%nat. reflexivity.
  - apply List.Forall_forall. intros c Hc.
    assert (Hall : forallb isLowerHex (str "a9993e364706816aba3e25717850c26c9cd0d89d")
                   = true) by (vm_compute; reflexivity).
    rewrite forallb_forall in Hall. now apply Hall.
Defined.

(** ** Utils.makeUrlBase64 *)

Lemma makeUrlBase64_map (s : jsstring) : Utils.makeUrlBase64 s = map urlChar s.
Proof.
  unfold Utils.makeUrlBase64.
  assert (H : forall acc, fold_left
                (fun newStr c =>
                   if c =? 43 then newStr ++ str "-"
                   else if c =? 47 then newStr ++ str "_"
                   else newStr ++ [c]) s acc = acc ++ map urlChar s).
  { induction s as [|c s IH]; intros acc; cbn [fold_left map].
    - now rewrite app_nil_r.
    - rewrite IH. unfold urlChar at 2.
      destruct (c =? 43); [|destruct (c =? 47)];
        rewrite <- app_assoc; reflexivity. }
  apply (H []).
Qed.

Lemma urlChar_safe (c : Z) : urlChar c <> 43 /\ urlChar c <> 47.
Proof.
  unfold urlChar.
  destruct (Z.eqb_spec c 43); [lia|]. destruct (Z.eqb_spec c 47); lia.
Qed.

Lemma urlChar_idempotent (c : Z) : urlChar (urlChar c) = urlChar c.
Proof.
  unfold urlChar.
  destruct (Z.eqb_spec c 43) as [->|]; [reflexivity|].
  destruct (Z.eqb_spec c 47) as [->|]; [reflexivity|].
  destruct (Z.eqb_spec c 43); [contradiction|].
  destruct (Z.eqb_spec c 47); [contradiction|]. reflexivity.
Qed.

(** X3. [makeUrlBase64] replaces every '+' by '-' and every '/' by '_'
    and nothing else: the result has the length of the argument, holds
    neither '+' nor '/', and applying the function again changes
    nothing. *)
Theorem makeUrlBase64_spec (s : jsstring) :
  Utils.makeUrlBase64 s = map urlChar s
  /\ length (Utils.makeUrlBase64 s) = length s
  /\ Forall (fun c => c <> 43 /\ c <> 47) (Utils.makeUrlBase64 s)
  /\ Utils.makeUrlBase64 (Utils.makeUrlBase64 s) = Utils.makeUrlBase64 s.
Proof.
  rewrite !makeUrlBase64_map. split; [reflexivity|].
  split; [apply length_map|]. split.
  - apply List.Forall_map, List.Forall_forall. intros c _. apply urlChar_safe.
  - rewrite map_map. apply map_ext. apply urlChar_idempotent.
Qed.

(** ** Searching and splitting strings *)

Lemma isPrefix_spec (p s : jsstring) :
  JS.isPrefix p s = true <-> exists post, s = p ++ post.
Proof.
  revert s. induction p as [|a p IH]; intros s; cbn [JS.isPrefix].
  - split; [intros _; now exists s | reflexivity].
  - destruct s as [|b s].
    + split; [discriminate | intros [post H]; discriminate].
    + rewrite andb_true_iff, Z.eqb_eq, IH. split.
      * intros [-> [post ->]]. now exists post.
      * intros [post H]. injection H as -> ->. split; [reflexivity | now exists post].
Qed.

Lemma indexOfFrom_none (s pat : jsstring) :
  forall i, 0 <= i ->
    (JS.indexOfFrom s pat i = -1 <-> ~ exists pre post, s = pre ++ pat ++ post).
Proof.
  induction s as [|c s IH]; intros i Hi; cbn [JS.indexOfFrom].
  - destruct (JS.isPrefix pat []) eqn:Hp.
    + apply isPrefix_spec in Hp. destruct Hp as [post Hp]. split; [lia|].
      intros Hno. exfalso. apply Hno. now exists [], post.
    + split; [|reflexivity]. intros _ (pre & post & H).
      assert (Hpre : JS.isPrefix pat [] = true).
      { apply isPrefix_spec. exists post.
        destruct pre; [exact H | discriminate]. }
      congruence.
  - destruct (JS.isPrefix pat (c :: s)) eqn:Hp.
    + apply isPrefix_spec in Hp. destruct Hp as [post Hp]. split; [lia|].
      intros Hno. exfalso. apply Hno. now exists [], post.
    + rewrite (IH (i + 1)) by lia. split.
      * intros Hno (pre & post & H). destruct pre as [|c' pre].
        -- assert (JS.isPrefix pat (c :: s) = true)
             by (apply isPrefix_spec; now exists post).
           congruence.
        -- injection H as _ H. apply Hno. now exists pre, post.
      * intros Hno (pre & post & H). apply Hno. exists (c :: pre), post.
        now rewrite H.
Qed.

Lemma indexOf_char_none (s : jsstring) (ch : Z) :
  JS.indexOf s [ch] = -1 <-> ~ In ch s.
Proof.
  unfold JS.indexOf. rewrite indexOfFrom_none by lia. split.
  - intros Hno Hin. apply in_split in Hin. destruct Hin as (pre & post & ->).
    apply Hno. now exists pre, post.
  - intros Hno (pre & post & ->). apply Hno.
    apply in_or_app. right. now left.
Qed.

Lemma indexOfFrom_char_first (pre post : jsstring) (ch : Z) :
  ~ In ch pre ->
  forall i, JS.indexOfFrom (pre ++ ch :: post) [ch] i = i + JS.len pre.
Proof.
  induction pre as [|c pre IH]; intros Hno i.
  - cbn [app JS.indexOfFrom JS.isPrefix]. rewrite Z.eqb_refl.
    unfold JS.len. cbn [andb length]. lia.
  - cbn [app JS.indexOfFrom JS.isPrefix].
    destruct (Z.eqb_spec ch c) as [->|Hne]; [exfalso; apply Hno; now left|].
    cbn [andb]. rewrite IH by (intros Hin; apply Hno; now right).
    unfold JS.len. cbn [length]. lia.
Qed.

Lemma substr_prefix (k v : jsstring) : JS.substr (k ++ v) 0 (JS.len k) = k.
Proof.
  change (JS.substr (k ++ v) 0 (JS.len k))
    with (JS.substr ([] ++ k ++ v) (JS.len (@nil Z)) (JS.len k)).
  rewrite substr_app by (unfold JS.len; lia).
  unfold JS.len. now rewrite Nat2Z.id, take_app_length.
Qed.

Lemma substrFrom_suffix (k v : jsstring) : JS.substrFrom (k ++ v) (JS.len k) = v.
Proof.
  unfold JS.substrFrom. rewrite substr_app by (unfold JS.len; lia).
  apply firstn_all2. unfold JS.len. rewrite length_app. lia.
Qed.

(** ** Utils.splitParamsString *)

Lemma splitParamsString_loop_errors (params : list jsstring) :
  forall ret e, Utils.splitParamsString_loop params ret = Throw e -> e = FormatError.
Proof.
  induction params as [|p params IH]; intros ret e; cbn [Utils.splitParamsString_loop].
  - discriminate.
  - cbv zeta. destruct (JS.indexOf p (str "=") =? -1).
    + congruence.
    + apply IH.
Qed.

Lemma splitParamsString_loop_format (params : list jsstring) :
  forall ret,
    Utils.splitParamsString_loop params ret = Throw FormatError
    <-> exists seg, In seg params /\ ~ In 61 seg.
Proof.
  induction params as [|p params IH]; intros ret; cbn [Utils.splitParamsString_loop].
  - split; [discriminate | intros (seg & [] & _)].
  - cbv zeta. destruct (Z.eqb_spec (JS.indexOf p (str "=")) (-1)) as [Heq|Hne].
    + split; [intros _ | reflexivity].
      exists p. split; [now left | now apply indexOf_char_none].
    + rewrite IH. split.
      * intros (seg & Hin & Hno). exists seg. split; [now right | exact Hno].
      * intros (seg & [<-|Hin] & Hno).
        -- exfalso. apply Hne. now apply indexOf_char_none.
        -- now exists seg.
Qed.

(** X4. [splitParamsString] throws exactly when one of the segments
    between the commas holds no '=', and 'not a valid params string' is
    the only error it raises; the empty string is such a case. *)
Theorem splitParamsString_format (s : jsstring) :
  (Utils.splitParamsString s = Throw FormatError
   <-> exists seg, In seg (JS.split s 44) /\ ~ In 61 seg)
  /\ (forall e, Utils.splitParamsString s = Throw e -> e = FormatError)
  /\ Utils.splitParamsString [] = Throw FormatError.
Proof.
  split; [apply splitParamsString_loop_format|].
  split; [apply splitParamsString_loop_errors | reflexivity].
Qed.

Lemma splitParamsString_format_witness :
  Utils.splitParamsString (str "N=4,s") = Throw FormatError
  /\ exists seg, In seg (JS.split (str "N=4,s") 44) /\ ~ In 61 seg.
Proof.
  assert (H : exists seg, In seg (JS.split (str "N=4,s") 44) /\ ~ In 61 seg).
  { exists (str "s"). split; [right; now left|].
    intros [H|[]]. discriminate. }
  split; [|exact H].
  apply (proj1 (splitParamsString_format (str "N=4,s"))). exact H.
Defined.

Lemma splitAux_segment (sep : Z) (seg rest : jsstring) :
  ~ In sep seg ->
  forall cur, JS.splitAux sep (seg ++ rest) cur = JS.splitAux sep rest (rev seg ++ cur).
Proof.
  induction seg as [|c seg IH]; intros Hno cur; [reflexivity|].
  cbn [app JS.splitAux].
  destruct (Z.eqb_spec c sep) as [->|_]; [exfalso; apply Hno; now left|].
  rewrite IH by (intros Hin; apply Hno; now right).
  cbn [rev]. now rewrite <- app_assoc.
Qed.

Lemma split_joinWith (sep : Z) (segs : list jsstring) :
  segs <> [] ->
  Forall (fun seg => ~ In sep seg) segs ->
  JS.split (joinWith sep segs) sep = segs.
Proof.
  induction segs as [|x rest IH]; intros Hne Hall; [contradiction|].
  inversion Hall as [|? ? Hx Hrest]; subst.
  unfold JS.split. cbn [joinWith]. destruct rest as [|y rest].
  - rewrite <- (app_nil_r x) at 1. rewrite splitAux_segment by exact Hx.
    cbn [JS.splitAux]. now rewrite app_nil_r, rev_involutive.
  - rewrite splitAux_segment by exact Hx.
    cbn [JS.splitAux]. rewrite Z.eqb_refl, app_nil_r, rev_involutive.
    f_equal. apply IH; [discriminate | exact Hrest].
Qed.

Lemma splitParamsString_loop_pairs (pairs : list (jsstring * jsstring)) :
  Forall (fun kv => ~ In 61 kv.1) pairs ->
  forall ret,
    Utils.splitParamsString_loop (map (fun kv => kv.1 ++ 61 :: kv.2) pairs) ret
    = Ok (fold_left (fun m kv => Utils.assign m kv.1 kv.2) pairs ret).
Proof.
  induction pairs as [|[k v] pairs IH]; intros Hall ret; [reflexivity|].
  inversion Hall as [|? ? Hk Hrest]; subst. cbn [fst snd] in Hk.
  cbn [map Utils.splitParamsString_loop fst snd fold_left]. cbv zeta.
  unfold JS.indexOf. change (str "=") with [61].
  rewrite indexOfFrom_char_first by exact Hk.
  replace (0 + JS.len k =? -1) with false
    by (symmetry; apply Z.eqb_neq; unfold JS.len; lia).
  rewrite Z.add_0_l, substr_prefix.
  replace (JS.len k + 1) with (JS.len (k ++ [61]))
    by (unfold JS.len; rewrite length_app; cbn [length]; lia).
  replace (k ++ 61 :: v) with ((k ++ [61]) ++ v) by (now rewrite <- app_assoc).
  rewrite substrFrom_suffix. now apply IH.
Qed.

Lemma fold_insert_list_to_map (pairs : list (jsstring * jsstring)) :
  forall m : gmap jsstring jsstring,
    fold_left (fun m kv => <[kv.1 := kv.2]> m) pairs m
    = list_to_map (rev pairs) ∪ m.
Proof.
  induction pairs as [|[k v] pairs IH]; intros m; cbn [fold_left rev fst snd].
  - cbn. now rewrite (left_id_L ∅ (∪)).
  - rewrite IH, list_to_map_app. cbn [list_to_map fst snd].
    rewrite <- (assoc_L (∪)). f_equal.
    rewrite insert_union_singleton_l. reflexivity.
Qed.

Lemma fold_assign_insert (pairs : list (jsstring * jsstring)) :
  Forall (fun kv => kv.1 <> str "__proto__") pairs ->
  forall m : gmap jsstring jsstring,
    fold_left (fun m kv => Utils.assign m kv.1 kv.2) pairs m
    = fold_left (fun m kv => <[kv.1 := kv.2]> m) pairs m.
Proof.
  induction pairs as [|[k v] pairs IH]; intros Hall m; [reflexivity|].
  inversion Hall as [|? ? Hk Hrest]; subst. cbn [fst snd] in Hk.
  cbn [fold_left fst snd]. unfold Utils.assign at 2.
  rewrite bool_decide_eq_false_2 by exact Hk. now apply IH.
Qed.

(** X5. Writing and reading a parameters string: for a non-empty list
    of pairs whose names hold neither ',' nor '=' and are not
    '__proto__', and whose values hold no ',', [splitParamsString] of
    the pairs written as name=value and joined by commas is the object
    with these properties; a value may hold '=' (only the first one
    separates), and of two pairs with the same name the later one
    wins. *)
Theorem splitParamsString_joinParams (pairs : list (jsstring * jsstring)) :
  pairs <> [] ->
  Forall (fun kv => ~ In 44 kv.1 /\ ~ In 61 kv.1 /\ kv.1 <> str "__proto__"
                    /\ ~ In 44 kv.2) pairs ->
  Utils.splitParamsString (joinParams pairs) = Ok (list_to_map (rev pairs)).
Proof.
  intros Hne Hall. unfold Utils.splitParamsString, joinParams.
  rewrite split_joinWith.
  - rewrite splitParamsString_loop_pairs
      by (eapply List.Forall_impl; [|exact Hall]; cbv beta; tauto).
    rewrite fold_assign_insert
      by (eapply List.Forall_impl; [|exact Hall]; cbv beta; tauto).
    rewrite fold_insert_list_to_map. now rewrite (right_id_L ∅ (∪)).
  - destruct pairs; [contradiction | discriminate].
  - apply List.Forall_map. eapply List.Forall_impl; [|exact Hall].
    intros [k v] (Hk & _ & _ & Hv) Hin. cbn [fst snd] in *.
    apply in_app_or in Hin. destruct Hin as [Hin|[Hin|Hin]];
      [now apply Hk | discriminate | now apply Hv].
Qed.

Lemma splitParamsString_joinParams_witness :
  Utils.splitParamsString (str "N=4,s=K7YI==,N=2")
  = Ok (list_to_map [(str "N", str "2"); (str "s", str "K7YI=="); (str "N", str "4")]).
Proof.
  apply (splitParamsString_joinParams
           [(str "N", str "4"); (str "s", str "K7YI=="); (str "N", str "2")]).
  - discriminate.
  - repeat constructor; cbn; intuition (try discriminate; try lia).
Defined.

(** ** The session cookie and the logged-in string *)

Lemma indexOfFrom_some (s pat : jsstring) :
  forall i, JS.indexOfFrom s pat i <> -1 -> exists pre post, s = pre ++ pat ++ post.
Proof.
  induction s as [|c s IH]; intros i; cbn [JS.indexOfFrom].
  - destruct (JS.isPrefix pat []) eqn:Hp; [|congruence].
    intros _. apply isPrefix_spec in Hp. destruct Hp as [post Hp].
    now exists [], post.
  - destruct (JS.isPrefix pat (c :: s)) eqn:Hp.
    + intros _. apply isPrefix_spec in Hp. destruct Hp as [post Hp].
      now exists [], post.
    + intros H. destruct (IH (i + 1) H) as (pre & post & ->).
      now exists (c :: pre), post.
Qed.

(** X6. [hasSessionCookie] holds exactly when the cookie string
    contains '_appwebSessionId_' somewhere. *)
Theorem hasSessionCookie_substring (cookie : jsstring) :
  hasSessionCookie cookie = true
  <-> exists pre post, cookie = pre ++ str "_appwebSessionId_" ++ post.
Proof.
  unfold hasSessionCookie, JS.indexOf.
  rewrite negb_true_iff, Z.eqb_neq. split.
  - apply indexOfFrom_some.
  - intros Hex Hnone. apply indexOfFrom_none in Hnone; [|lia]. now apply Hnone.
Qed.

Lemma indexOfFrom_after (pre pat post : jsstring) (first : Z) :
  ~ In first pre ->
  (exists pat', pat = first :: pat') ->
  forall i, JS.indexOfFrom (pre ++ pat ++ post) pat i = i + JS.len pre.
Proof.
  intros Hno [pat' ->]. induction pre as [|c pre IH]; intros i.
  - cbn [app JS.indexOfFrom].
    assert (Hp : JS.isPrefix (first :: pat') (first :: pat' ++ post) = true)
      by (apply isPrefix_spec; now exists post).
    rewrite Hp. unfold JS.len. cbn [length]. lia.
  - cbn [app JS.indexOfFrom JS.isPrefix].
    destruct (Z.eqb_spec first c) as [->|_]; [exfalso; apply Hno; now left|].
    cbn [andb]. rewrite IH by (intros Hin; apply Hno; now right).
    unfold JS.len. cbn [length]. lia.
Qed.

Lemma takeLine_line (name rest : jsstring) :
  Forall (fun c => isLineTerminator c = false) name ->
  rest = [] \/ (exists c r, rest = c :: r /\ isLineTerminator c = true) ->
  takeLine (name ++ rest) = name.
Proof.
  intros Hname Hrest. induction Hname as [|c name Hc _ IH]; cbn [app takeLine].
  - destruct Hrest as [->|(c & r & -> & Hc)]; [reflexivity|].
    cbn [takeLine]. now rewrite Hc.
  - now rewrite Hc, IH.
Qed.

Lemma getUserNameFromLoggedInString_found (pre name rest : jsstring) :
  ~ In 76 pre ->
  Forall (fun c => isLineTerminator c = false) name ->
  rest = [] \/ (exists c r, rest = c :: r /\ isLineTerminator c = true) ->
  getUserNameFromLoggedInString (pre ++ str "Logged in as: " ++ name ++ rest)
  = Ok name.
Proof.
  intros Hpre Hname Hrest.
  unfold getUserNameFromLoggedInString, JS.indexOf. cbv zeta.
  rewrite (indexOfFrom_after pre (str "Logged in as: ") (name ++ rest) 76 Hpre)
    by (eexists; reflexivity).
  replace (0 + JS.len pre =? -1) with false
    by (symmetry; apply Z.eqb_neq; unfold JS.len; lia).
  replace (0 + JS.len pre + 14) with (JS.len (pre ++ str "Logged in as: "))
    by (unfold JS.len; rewrite length_app;
        change (length (str "Logged in as: ")) with 14%nat; lia).
  rewrite (app_assoc pre), substrFrom_suffix.
  now rewrite takeLine_line.
Qed.

Lemma getUserNameFromLoggedInString_missing (s : jsstring) :
  (~ exists pre post, s = pre ++ str "Logged in as: " ++ post) ->
  getUserNameFromLoggedInString s = Throw TypeError.
Proof.
  intros Hno. unfold getUserNameFromLoggedInString, JS.indexOf. cbv zeta.
  apply (indexOfFrom_none s (str "Logged in as: ") 0) in Hno; [|lia].
  now rewrite Hno.
Qed.

(** X7. The user name is read back from the server's text: when the
    text holds 'Logged in as: ' (with no 'L' before it) followed by a
    name without line terminator and then the end of the text or a line
    terminator, [getUserNameFromLoggedInString] returns that name; when
    the text does not hold 'Logged in as: ' the function throws (the
    capture is read from null). *)
Theorem getUserNameFromLoggedInString_spec :
  (forall pre name rest : jsstring,
      ~ In 76 pre ->
      Forall (fun c => isLineTerminator c = false) name ->
      rest = [] \/ (exists c r, rest = c :: r /\ isLineTerminator c = true) ->
      getUserNameFromLoggedInString (pre ++ str "Logged in as: " ++ name ++ rest)
      = Ok name)
  /\ (forall s : jsstring,
         (~ exists pre post, s = pre ++ str "Logged in as: " ++ post) ->
         getUserNameFromLoggedInString s = Throw TypeError).
Proof.
  split.
  - apply getUserNameFromLoggedInString_found.
  - apply getUserNameFromLoggedInString_missing.
Qed.

Lemma getUserNameFromLoggedInString_spec_witness :
  getUserNameFromLoggedInString
    ([60; 112; 62] ++ str "Logged in as: " ++ str "admin" ++ [10; 60])
  = Ok (str "admin").
Proof.
  apply (proj1 getUserNameFromLoggedInString_spec).
  - cbn. intuition lia.
  - repeat constructor.
  - right. exists 10, [60]. split; reflexivity.
Defined.

(** ** Base64 *)

Lemma sextet_checked :
  forallb
    (fun i =>
       bool_decide
         ((Base64.sextetChar (Z.of_nat i) =? 61) = false
          /\ Base64.sextetValue (Base64.sextetChar (Z.of_nat i)) = Some (Z.of_nat i)))
    (seq 0 64) = true.
Proof. vm_compute. reflexivity. Qed.

Lemma sextets_cons (v : Z) (s : jsstring) :
  0 <= v < 64 ->
  Base64.sextets (Base64.sextetChar v :: s) = v :: Base64.sextets s.
Proof.
  intros Hv.
  pose proof (forall_below
                (fun v => bool_decide
                   ((Base64.sextetChar v =? 61) = false
                    /\ Base64.sextetValue (Base64.sextetChar v) = Some v))
                64 sextet_checked v Hv) as H.
  apply bool_decide_eq_true in H. destruct H as [H1 H2].
  cbn [Base64.sextets]. now rewrite H1, H2.
Qed.

Lemma decodeSextets_encodeBytes (count : nat) :
  forall l : list Z,
    (length l <= count)%nat ->
    Forall (fun b => 0 <= b < 256) l ->
    Base64.decodeSextets (Base64.sextets (Base64.encodeBytes l)) = l.
Proof.
  induction count as [|count IH]; intros l Hlen Hall.
  - destruct l; [reflexivity | cbn in Hlen; lia].
  - destruct l as [|a [|b [|c rest]]]; [reflexivity| | |].
    + inversion Hall as [|? ? Ha _]; subst.
      cbn [Base64.encodeBytes].
      rewrite !sextets_cons by zdiv. cbn [Base64.sextets Z.eqb Pos.eqb].
      cbn [Base64.decodeSextets]. f_equal. zdiv.
    + inversion Hall as [|? ? Ha Hall']; subst.
      inversion Hall' as [|? ? Hb _]; subst.
      cbn [Base64.encodeBytes].
      rewrite !sextets_cons by zdiv. cbn [Base64.sextets Z.eqb Pos.eqb].
      cbn [Base64.decodeSextets]. f_equal; [zdiv|]. f_equal. zdiv.
    + inversion Hall as [|? ? Ha Hall']; subst.
      inversion Hall' as [|? ? Hb Hall'']; subst.
      inversion Hall'' as [|? ? Hc Hrest]; subst.
      cbn [Base64.encodeBytes].
      rewrite !sextets_cons by zdiv.
      cbn [Base64.decodeSextets].
      rewrite IH by (trivial; cbn in Hlen; lia).
      f_equal; [zdiv|]. f_equal; [zdiv|]. f_equal. zdiv.
Qed.

Lemma encodeBytes_length (count : nat) :
  forall l : list Z,
    (length l <= count)%nat ->
    length (Base64.encodeBytes l) = (4 * ((length l + 2) / 3))%nat.
Proof.
  induction count as [|count IH]; intros l Hlen.
  - destruct l; [reflexivity | cbn in Hlen; lia].
  - destruct l as [|a [|b [|c rest]]]; [reflexivity..|].
    cbn [Base64.encodeBytes length].
    rewrite IH by (cbn in Hlen; lia).
    replace (S (S (S (length rest))) + 2)%nat with (length rest + 2 + 1 * 3)%nat by lia.
    rewrite Nat.div_add by lia. lia.
Qed.

Lemma decode_encode (arr : jsarray) : Base64.decode (Base64.encode arr) = maskBytes arr.
Proof.
  unfold Base64.decode, Base64.encode.
  rewrite (decodeSextets_encodeBytes (length (map Base64.byteOf arr))).
  - unfold maskBytes. now rewrite map_map.
  - lia.
  - apply List.Forall_map, List.Forall_forall. intros b _. apply byteOf_range.
Qed.

Lemma sextets_urlChar (s : jsstring) :
  Base64.sextets (map urlChar s) = Base64.sextets s.
Proof.
  induction s as [|c s IH]; [reflexivity|].
  cbn [map Base64.sextets]. rewrite IH. unfold urlChar.
  destruct (Z.eqb_spec c 43) as [->|]; [reflexivity|].
  destruct (Z.eqb_spec c 47) as [->|]; reflexivity.
Qed.

(** X8. Base64 there and back: an array encoded by [Base64.encode] has
    four characters for every three elements (rounded up), and
    [Base64.decode] returns the array with every element taken modulo
    256, also after [makeUrlBase64] has put the string in its URL
    form. *)
Theorem Base64_round_trip (arr : jsarray) :
  Base64.decode (Base64.encode arr) = maskBytes arr
  /\ Base64.decode (Utils.makeUrlBase64 (Base64.encode arr)) = maskBytes arr
  /\ length (Base64.encode arr) = (4 * ((length arr + 2) / 3))%nat.
Proof.
  split; [apply decode_encode|]. split.
  - rewrite makeUrlBase64_map. unfold Base64.decode at 1.
    rewrite sextets_urlChar. apply decode_encode.
  - unfold Base64.encode.
    rewrite (encodeBytes_length (length (map Base64.byteOf arr))) by lia.
    now rewrite length_map.
Qed.

(** ** Hash strings and Base64 *)

Lemma b64tohex_encode (arr : jsarray) :
  Utils.b64tohex (Base64.encode arr) = Utils.byteArrayToHashString arr.
Proof.
  unfold Utils.b64tohex. cbv zeta.
  rewrite decode_encode, fold_left_append, byteArrayToHashString_pairs.
  cbn [app]. unfold maskBytes. rewrite map_map. f_equal.
  apply map_ext. intros b. apply render_byte, byteOf_range.
Qed.

(** X9. The two conversions between hash strings and Base64 are
    inverse to each other on what the library produces:
    [b64tohex] of an encoded array is the hash string of the array,
    [hexStringToBase64] of the hash string of an array is its encoding,
    and so [b64tohex] after [hexStringToBase64] returns a hash string
    unchanged. *)
Theorem b64tohex_hexStringToBase64 (arr : jsarray) :
  Utils.b64tohex (Base64.encode arr) = Utils.byteArrayToHashString arr
  /\ Utils.hexStringToBase64 (Utils.byteArrayToHashString arr) = Base64.encode arr
  /\ Utils.b64tohex (Utils.hexStringToBase64 (Utils.byteArrayToHashString arr))
     = Utils.byteArrayToHashString arr.
Proof.
  assert (H : Utils.hexStringToBase64 (Utils.byteArrayToHashString arr)
              = Base64.encode arr).
  { unfold Utils.hexStringToBase64. rewrite hashStringToByteArray_hashString.
    unfold Base64.encode, maskBytes. rewrite map_map. f_equal.
    apply map_ext. intros b.
    pose proof (hexPair_mask b) as Hm. unfold hexPair in Hm.
    pose proof (byteOf_range b) as Hb.
    pose proof (byteOf_range (Num (Base64.byteOf b))) as Hb'.
    unfold Base64.byteOf at 1. cbn [JS.ToInt32].
    rewrite (Z.mod_small (Base64.byteOf b + 2 ^ 31)) by lia.
    replace (Base64.byteOf b + 2 ^ 31 - 2 ^ 31) with (Base64.byteOf b) by lia.
    apply Z.mod_small. lia. }
  split; [apply b64tohex_encode|]. split; [exact H|].
  rewrite H. apply b64tohex_encode.
Qed.

(** X10. An integer sent over the wire is read back: for 0 <= n <
    256^width, [bigIntToBase64 n width] succeeds, and the receiver's
    [new BigInteger(b64tohex(.), 16)] of the string, in its plain or its
    URL form, is n. *)
Theorem bigIntToBase64_round_trip (n width : Z) :
  0 <= n < 256 ^ width -> 0 <= width ->
  exists s,
    Utils.bigIntToBase64 n width = Ok s
    /\ BigInteger.fromString16 (Utils.b64tohex s) = n
    /\ BigInteger.fromString16 (Utils.b64tohex (Utils.makeUrlBase64 s)) = n
    /\ length s = (4 * ((Z.to_nat width + 2) / 3))%nat.
Proof.
  intros Hn Hw. unfold Utils.bigIntToBase64.
  rewrite bigIntegerToBytes_fits by assumption. cbn [rbind].
  eexists. split; [reflexivity|].
  assert (Hhex : Utils.b64tohex
                   (Base64.encode
                      (map (fun b => JS.bitand b (Num 255))
                         (bytesFrom n 0 (Z.to_nat width))))
                 = Utils.byteArrayToHashString (bytesFrom n 0 (Z.to_nat width))).
  { rewrite b64tohex_encode.
    rewrite (map_ext _ (fun b => Num (Base64.byteOf b)) bitand_255).
    apply byteArrayToHashString_mask. }
  assert (Hval : BigInteger.fromString16
                   (Utils.byteArrayToHashString (bytesFrom n 0 (Z.to_nat width))) = n).
  { rewrite fromString16_hashString, unsignedValue_bytesFrom, Z2Nat.id by lia.
    apply Z.mod_small. exact Hn. }
  split; [now rewrite Hhex|]. split.
  - unfold Utils.b64tohex at 1. cbv zeta.
    rewrite makeUrlBase64_map. unfold Base64.decode at 1.
    rewrite sextets_urlChar.
    change (BigInteger.fromString16
              (Utils.b64tohex
                 (Base64.encode
                    (map (fun b => JS.bitand b (Num 255))
                       (bytesFrom n 0 (Z.to_nat width))))) = n).
    now rewrite Hhex.
  - unfold Base64.encode.
    rewrite (encodeBytes_length
               (length (map Base64.byteOf
                          (map (fun b => JS.bitand b (Num 255))
                             (bytesFrom n 0 (Z.to_nat width)))))) by lia.
    now rewrite !length_map, bytesFrom_length.
Qed.

Lemma bigIntToBase64_round_trip_witness :
  exists s,
    Utils.bigIntToBase64 1000 2 = Ok s
    /\ BigInteger.fromString16 (Utils.b64tohex s) = 1000
    /\ BigInteger.fromString16 (Utils.b64tohex (Utils.makeUrlBase64 s)) = 1000
    /\ length s = (4 * ((Z.to_nat 2 + 2) / 3))%nat.
Proof. apply bigIntToBase64_round_trip; lia. Defined.

(** ** The session key *)

Lemma byteArrayToHashString_app (l1 l2 : jsarray) :
  Utils.byteArrayToHashString (l1 ++ l2)
  = Utils.byteArrayToHashString l1 ++ Utils.byteArrayToHashString l2.
Proof. rewrite !byteArrayToHashString_pairs. now rewrite map_app, concat_app. Qed.

(** X11. The session key K = hashStringToByteArray(MGF1SHA1(S)): for 0
    <= S < 256^128 it is the digest of the 128 bytes of S followed by
    0,0,0,0, then the digest of the same bytes followed by 0,0,0,1,
    every element taken modulo 256, so it has as many elements as the
    two digests together; and for S >= 256^128 the call throws. *)
Theorem K_structure (digest : hashInput -> list Z) (S : Z) :
  (0 <= S < 256 ^ 128 ->
   let C1 := bytesFrom S 0 128 ++ [Num 0; Num 0; Num 0; Num 0] in
   let C2 := bytesFrom S 0 128 ++ [Num 0; Num 0; Num 0; Num 1] in
   exists K,
     SRP.K digest S = Ok K
     /\ K = maskBytes (map Num (digest (HashBytes C1) ++ digest (HashBytes C2)))
     /\ length K
        = (length (digest (HashBytes C1)) + length (digest (HashBytes C2)))%nat)
  /\ (256 ^ 128 <= S -> SRP.K digest S = Throw TruncationError).
Proof.
  split.
  - intros HS C1 C2. unfold SRP.K.
    rewrite (bigIntegerToBytes_fits S 128) by lia. cbn [rbind].
    change (Z.to_nat 128) with 128%nat.
    unfold SRP.MGF1SHA1, SRP.SHA1. cbv zeta. fold C1 C2.
    rewrite <- byteArrayToHashString_app, <- map_app.
    rewrite hashStringToByteArray_hashString.
    eexists. split; [reflexivity|]. split; [reflexivity|].
    unfold maskBytes. now rewrite !length_map, length_app.
  - intros HS. unfold SRP.K.
    now rewrite (bigIntegerToBytes_truncation S 128) by lia.
Qed.

Lemma K_structure_witness :
  exists K,
    SRP.K Sha1.digest 7 = Ok K
    /\ K = maskBytes
             (map Num
                (Sha1.digest
                   (HashBytes (bytesFrom 7 0 128 ++ [Num 0; Num 0; Num 0; Num 0]))
                 ++ Sha1.digest
                      (HashBytes (bytesFrom 7 0 128 ++ [Num 0; Num 0; Num 0; Num 1]))))
    /\ length K
       = (length (Sha1.digest
                    (HashBytes (bytesFrom 7 0 128 ++ [Num 0; Num 0; Num 0; Num 0])))
          + length (Sha1.digest
                      (HashBytes (bytesFrom 7 0 128 ++ [Num 0; Num 0; Num 0; Num 1]))))%nat.
Proof. apply (proj1 (K_structure Sha1.digest 7)). lia. Defined.

(** ** The server role *)

(** X12. [finishLogin] never looks at the client's proof to decide: for
    the same public key and two proofs whatever, it either fails both
    times with the same error or succeeds both times and leaves the
    server in the same state, session key included. *)
Theorem finishLogin_ignores_proof (digest : hashInput -> list Z)
    (srv : Server.t) (A : Z) (M1 M2 : jsstring) :
  match SRP.finishLogin digest srv (mkClientParams A M1),
        SRP.finishLogin digest srv (mkClientParams A M2) with
  | Ok (srv1, _), Ok (srv2, _) => srv1 = srv2
  | Throw e1, Throw e2 => e1 = e2
  | _, _ => False
  end.
Proof.
  unfold SRP.finishLogin. cbv zeta. cbn [clientPublicKey clientProof].
  destruct (let* B := arg (Server.serverPublicKey srv) in SRP.u digest A B)%result
    as [u|e]; cbn [rbind]; [|reflexivity].
  destruct (u =? 0); [reflexivity|].
  destruct (let* N := arg (Server.modulus srv) in
            let* v := arg (Server.verifier srv) in
            let* b := arg (Server.serverPrivateKey srv) in
            Ok (SRP.Ss N A v u b))%result as [S|e]; cbn [rbind]; [|reflexivity].
  destruct (SRP.K digest S) as [K|e]; cbn [rbind]; [|reflexivity].
  unfold SRP.Ms. cbv zeta.
  destruct (Utils.bigIntegerToBytes A 128) as [Ab|e]; cbn [rbind]; reflexivity.
Qed.

Lemma Ss_zero (N A v u b : Z) :
  0 < N -> 0 < b -> A mod N = 0 -> SRP.Ss N A v u b = 0.
Proof.
  intros HN Hb HA. unfold SRP.Ss.
  rewrite (modPow_spec _ b N) by (try lia; right; exact Hb).
  rewrite (pow_mod_congr (A * BigInteger.modPow v u N) 0 b N HN).
  - rewrite Z.pow_0_l by lia. apply Z.mod_0_l. lia.
  - rewrite Z.mul_mod, HA, Z.mul_0_l by lia. now rewrite !Z.mod_0_l by lia.
Qed.

(** X13. [finishLogin] does not reject a client public key that is a
    multiple of the modulus: with A mod N = 0 (and N > 0, b > 0, u
    defined and not zero) the call succeeds and the session key stored
    is K(0), whatever the verifier of the user. *)
Theorem finishLogin_zero_key (digest : hashInput -> list Z)
    (srv : Server.t) (N B b v A u : Z) (M : jsstring) :
  Server.modulus srv = Some N -> Server.serverPublicKey srv = Some B ->
  Server.serverPrivateKey srv = Some b -> Server.verifier srv = Some v ->
  0 < N -> 0 < b -> A mod N = 0 ->
  SRP.u digest A B = Ok u -> u <> 0 ->
  exists K0 proof,
    SRP.K digest 0 = Ok K0
    /\ SRP.finishLogin digest srv (mkClientParams A M)
       = Ok (serverWithSharedKey srv K0, proof).
Proof.
  intros HN HB Hb Hv HNpos Hbpos HA Hu Hu0.
  destruct (K_fits digest 0 ltac:(lia)) as [K0 HK].
  assert (HAb : exists Ab, Utils.bigIntegerToBytes A 128 = Ok Ab).
  { unfold SRP.u in Hu. destruct (Utils.bigIntegerToBytes A 128) as [Ab|e];
      [now exists Ab | discriminate]. }
  destruct HAb as [Ab HAb].
  exists K0. eexists. split; [exact HK|].
  unfold SRP.finishLogin. cbv zeta. cbn [clientPublicKey clientProof].
  rewrite HB, HN, Hb, Hv. cbn [arg rbind]. rewrite Hu. cbn [rbind].
  replace (u =? 0) with false by (symmetry; now apply Z.eqb_neq).
  rewrite Ss_zero by assumption. rewrite HK. cbn [rbind].
  unfold SRP.Ms. cbv zeta. rewrite HAb. cbn [rbind].
  unfold serverWithSharedKey. rewrite HB, HN, Hb, Hv. reflexivity.
Qed.

Lemma finishLogin_zero_key_witness :
  exists K0 proof,
    SRP.K Sha1.digest 0 = Ok K0
    /\ SRP.finishLogin Sha1.digest (demoServer 6 9 4) (mkClientParams 46 (str "00"))
       = Ok (serverWithSharedKey (demoServer 6 9 4) K0, proof).
Proof.
  let r := eval vm_compute in (SRP.u Sha1.digest 46 9) in
  match r with
  | Ok ?u =>
      apply (finishLogin_zero_key Sha1.digest (demoServer 6 9 4) 23 9 6 4 46 u);
        [reflexivity | reflexivity | reflexivity | reflexivity | lia | lia
        | reflexivity | vm_compute; reflexivity | discriminate]
  end.
Defined.

(** X14. The answer of [startLogin] is complete for the client: when
    the call returns, [setServerInfo] accepts the answer on any client
    and stores the server's modulus, generator, salt and public key;
    the public key lies in [0, N) when N > 0; and the session key of
    the server is not touched. A failure of the lookup function is the
    failure of the call. *)
Theorem startLogin_answer (digest : hashInput -> list Z) (srv : Server.t)
    (user : jsstring) (rnd : Z) :
  match SRP.startLogin digest srv user rnd with
  | Ok (srv', info) =>
      (forall c, exists c',
          SRP.setServerInfo c info = Ok c'
          /\ Client.modulus c' = Server.modulus srv'
          /\ Client.generator c' = Server.generator srv'
          /\ Client.salt c' = Server.salt srv'
          /\ Client.serverPublicKey c' = Server.serverPublicKey srv')
      /\ (forall N B, Server.modulus srv' = Some N ->
                      Server.serverPublicKey srv' = Some B ->
                      0 < N -> 0 <= B < N)
      /\ Server.serverPrivateKey srv' = Some rnd
      /\ Server.sharedKey srv' = Server.sharedKey srv
  | Throw e =>
      Server.lookupFunc srv user = Throw e \/ e = TruncationError
  end.
Proof.
  unfold SRP.startLogin.
  destruct (Server.lookupFunc srv user) as [entry|e]; cbn [rbind]; [|now left].
  cbv zeta. unfold SRP.B.
  destruct (SRP.k digest _ _) as [kk|e] eqn:Hk; cbn [rbind].
  - split; [intros c; eexists; split; [reflexivity|]; repeat split|].
    split; [|split; reflexivity].
    cbn [Server.modulus Server.serverPublicKey]. intros N B [= <-] [= <-] HN.
    apply Z.mod_pos_bound. exact HN.
  - right. now apply k_error in Hk.
Qed.

(** ** The challenge of the server *)

Lemma sextetValue_range (c v : Z) : Base64.sextetValue c = Some v -> 0 <= v < 64.
Proof.
  unfold Base64.sextetValue.
  repeat match goal with
         | |- context [if ?b then _ else _] => destruct b eqn:?
         end; intros [= <-];
    repeat match goal with
           | H : _ && _ = true |- _ => apply andb_true_iff in H; destruct H
           | H : (_ <=? _) = true |- _ => apply Z.leb_le in H
           end; lia.
Qed.

Lemma sextets_range (s : jsstring) : Forall (fun v => 0 <= v < 64) (Base64.sextets s).
Proof.
  induction s as [|c s IH]; cbn [Base64.sextets]; [constructor|].
  destruct (c =? 61); [constructor|].
  destruct (Base64.sextetValue c) as [v|] eqn:Hv; [|exact IH].
  constructor; [now apply sextetValue_range in Hv | exact IH].
Qed.

Lemma decodeSextets_range (count : nat) :
  forall l : list Z,
    (length l <= count)%nat ->
    Forall (fun v => 0 <= v < 64) l ->
    Forall (fun b => 0 <= b < 256) (Base64.decodeSextets l).
Proof.
  induction count as [|count IH]; intros l Hlen Hall.
  - destruct l; [constructor | cbn in Hlen; lia].
  - destruct l as [|a [|b [|c [|d rest]]]]; cbn [Base64.decodeSextets];
      repeat match goal with
             | H : Forall _ (_ :: _) |- _ => inversion H; subst; clear H
             end;
      repeat (apply List.Forall_cons; [zdiv|]);
      try apply List.Forall_nil.
    apply IH; [cbn in Hlen; lia | assumption].
Qed.

Lemma decode_range (s : jsstring) :
  exists l, Base64.decode s = map Num l /\ Forall (fun b => 0 <= b < 256) l.
Proof.
  eexists. split; [reflexivity|].
  apply (decodeSextets_range (length (Base64.sextets s))); [lia|].
  apply sextets_range.
Qed.

Lemma byteOf_small (y : Z) : 0 <= y < 256 -> Base64.byteOf (Num y) = y.
Proof.
  intros Hy. unfold Base64.byteOf. cbn [JS.ToInt32].
  rewrite (Z.mod_small (y + 2 ^ 31)) by lia.
  replace (y + 2 ^ 31 - 2 ^ 31) with y by lia.
  apply Z.mod_small. lia.
Qed.

Lemma b64tohex_hashString (s : jsstring) :
  Utils.b64tohex s = Utils.byteArrayToHashString (Base64.decode s).
Proof.
  unfold Utils.b64tohex. cbv zeta.
  destruct (decode_range s) as (l & -> & Hl).
  rewrite fold_left_append, byteArrayToHashString_pairs. cbn [app].
  f_equal. rewrite !map_map. apply List.map_ext_in. intros y Hy.
  rewrite List.Forall_forall in Hl. specialize (Hl y Hy).
  rewrite render_byte by exact Hl. unfold hexPair.
  now rewrite byteOf_small by exact Hl.
Qed.

Lemma decodeServerParamsString_ok (h : option jsstring) (info : ServerInfo) :
  decodeServerParamsString h = Ok info ->
  (info = emptyServerInfo /\ (h = None \/ h = Some []))
  \/ exists group ps pB pss,
       In group primes
       /\ info = mkServerInfo (Some (n group)) (Some (g group))
                   (Some (Base64.decode ps))
                   (Some (BigInteger.fromString16 (Utils.b64tohex pB)))
                   (Some pss).
Proof.
  unfold decodeServerParamsString.
  destruct h as [[|c s]|]; [intros [= <-]; left; split; [reflexivity | now right]
                           | | intros [= <-]; left; split; [reflexivity | now left]].
  destruct (splitParamsString (c :: s)) as [params|e]; cbn [rbind]; [|discriminate].
  destruct (params !! str "hasOwnProperty"); [discriminate|].
  destruct (params !! str "N") as [pN|]; [|discriminate].
  destruct (params !! str "s") as [ps|]; [|discriminate].
  destruct (params !! str "B") as [pB|]; [|discriminate].
  destruct (params !! str "ss") as [pss|]; [|discriminate].
  cbv zeta. destruct (gt _ _); [discriminate|].
  destruct (index primes (JS.parseInt pN 10)) as [group|] eqn:Hidx; [|discriminate].
  intros [= <-]. right. exists group, ps, pB, pss. split; [|reflexivity].
  unfold index in Hidx. destruct (JS.parseInt pN 10) as [|z]; [discriminate|].
  destruct (z <? 0); [discriminate|]. now apply nth_error_In in Hidx.
Qed.

Lemma primes_fitsWidths : forallb fitsWidths primes = true.
Proof. vm_compute. reflexivity. Qed.

Lemma primes_fit (group : PrimeGroup) :
  In group primes -> 0 < n group < 256 ^ 128 /\ 0 <= g group < 256.
Proof.
  intros Hin. pose proof primes_fitsWidths as H.
  rewrite forallb_forall in H. specialize (H group Hin).
  unfold fitsWidths in H.
  repeat match goal with
         | H : _ && _ = true |- _ => apply andb_true_iff in H; destruct H
         end.
  repeat match goal with
         | H : (_ <? _) = true |- _ => apply Z.ltb_lt in H
         | H : (_ <=? _) = true |- _ => apply Z.leb_le in H
         end.
  lia.
Qed.

(** X15. What a decoded challenge can be: when
    [decodeServerParamsString] returns, either the header was absent or
    empty and the server info has no field at all, or the info is
    complete, its modulus and generator are those of one group of the
    registry (so 0 < N < 2^1024 and 0 <= g < 256), its salt a sequence
    of bytes in 0..255 and its server public key not negative. *)
Theorem decodeServerParamsString_registry (h : option jsstring) (info : ServerInfo) :
  decodeServerParamsString h = Ok info ->
  (info = emptyServerInfo /\ (h = None \/ h = Some []))
  \/ exists group salt B token,
       In group primes
       /\ info = mkServerInfo (Some (n group)) (Some (g group)) (Some (map Num salt))
                   (Some B) (Some token)
       /\ 0 < n group < 256 ^ 128 /\ 0 <= g group < 256
       /\ Forall (fun b => 0 <= b < 256) salt
       /\ 0 <= B.
Proof.
  intros H. apply decodeServerParamsString_ok in H.
  destruct H as [H|(group & ps & pB & pss & Hin & ->)]; [now left|]. right.
  destruct (decode_range ps) as (salt & Hsalt & Hrange).
  exists group, salt, (BigInteger.fromString16 (Utils.b64tohex pB)), pss.
  split; [exact Hin|]. split; [now rewrite Hsalt|].
  destruct (primes_fit group Hin) as [Hn Hg].
  split; [exact Hn|]. split; [exact Hg|]. split; [exact Hrange|].
  rewrite b64tohex_hashString. apply fromString16_hashString_nonneg.
Qed.

Lemma decodeServerParamsString_registry_witness :
  let info :=
    mkServerInfo (Some (n (nth 2 primes (mkPrimeGroup 0 0)))) (Some 5)
      (Some [Num 1; Num 2; Num 3; Num 4]) (Some 1) (Some (str "tok")) in
  decodeServerParamsString (Some (str "N=2,s=AQIDBA==,B=AQ==,ss=tok")) = Ok info
  /\ ((info = emptyServerInfo
       /\ (Some (str "N=2,s=AQIDBA==,B=AQ==,ss=tok") = None
           \/ Some (str "N=2,s=AQIDBA==,B=AQ==,ss=tok") = Some []))
      \/ exists group salt B token,
           In group primes
           /\ info = mkServerInfo (Some (n group)) (Some (g group))
                       (Some (map Num salt)) (Some B) (Some token)
           /\ 0 < n group < 256 ^ 128 /\ 0 <= g group < 256
           /\ Forall (fun b => 0 <= b < 256) salt
           /\ 0 <= B).
Proof.
  cbv zeta.
  assert (H : decodeServerParamsString (Some (str "N=2,s=AQIDBA==,B=AQ==,ss=tok"))
              = Ok (mkServerInfo (Some (n (nth 2 primes (mkPrimeGroup 0 0)))) (Some 5)
                      (Some [Num 1; Num 2; Num 3; Num 4]) (Some 1) (Some (str "tok"))))
    by (vm_compute; reflexivity).
  split; [exact H|].
  exact (decodeServerParamsString_registry _ _ H).
Defined.

(** ** The client on a challenge over a registry group *)

(** X16. A challenge over a group of the registry never makes the
    client throw on an encoding: when the digests all have one length,
    the header decodes, [setServerInfo] accepts the info and the
    server public key is below 2^1024, [generatePublicKeyAndProof]
    either succeeds or fails with 'precondition fail'; no truncation or
    length error can occur, whatever the random value. *)
Theorem generatePublicKeyAndProof_registry (digest : hashInput -> list Z)
    (h : jsstring) (info : ServerInfo) (c c1 : Client.t) (B rnd : Z) :
  (forall m1 m2, length (digest m1) = length (digest m2)) ->
  decodeServerParamsString (Some h) = Ok info ->
  SRP.setServerInfo c info = Ok c1 ->
  si_serverPublicKey info = Some B -> B < 256 ^ 128 ->
  snd (SRP.generatePublicKeyAndProof digest c1 rnd) = Throw PrecheckFailedError
  \/ exists cl cp,
       SRP.generatePublicKeyAndProof digest c1 rnd = (handshakeOrder, Ok (cl, cp)).
Proof.
  intros Hlen Hdec Hset HB HBlt.
  apply decodeServerParamsString_ok in Hdec.
  destruct Hdec as [[-> _]|(group & ps & pB & token & Hin & ->)]; [discriminate|].
  destruct (primes_fit group Hin) as [Hn Hg].
  cbn [si_serverPublicKey] in HB. injection HB as <-.
  set (B := BigInteger.fromString16 (Utils.b64tohex pB)) in *.
  assert (HB0 : 0 <= B)
    by (subst B; rewrite b64tohex_hashString; apply fromString16_hashString_nonneg).
  set (salt := Base64.decode ps) in *.
  unfold SRP.setServerInfo in Hset.
  cbn [si_modulus si_generator si_salt si_serverPublicKey] in Hset.
  injection Hset as <-.
  set (c1 := Client.mk _ _ _ _ _ _ _).
  pose proof (generatePublicKeyAndProof_unfold digest c1 (n group) (g group)
                salt B rnd eq_refl eq_refl eq_refl eq_refl) as Hrun.
  destruct (Z.eqb_spec (B mod n group) 0) as [Hz|Hnz].
  { left. now rewrite Hrun. }
  assert (HA : 0 <= SRP.A (n group) (g group) rnd < 256 ^ 128).
  { pose proof (modPow_bound (g group) rnd (n group) ltac:(lia)).
    unfold SRP.A. lia. }
  destruct (u_fits digest (SRP.A (n group) (g group) rnd) B HA ltac:(lia)) as [u Hu].
  destruct (k_fits digest (n group) (g group) ltac:(lia) ltac:(lia)) as [k Hk].
  destruct (Z.eqb_spec u 0) as [Hu0|Hu0].
  { left. rewrite Hrun. cbv zeta. rewrite Hu. subst u. reflexivity. }
  destruct (Z.eqb_spec k 0) as [Hk0|Hk0].
  { left. rewrite Hrun. cbv zeta. rewrite Hu.
    replace (u =? 0) with false by (symmetry; now apply Z.eqb_neq).
    rewrite Hk. subst k. reflexivity. }
  right.
  destruct (generatePublicKeyAndProof_fits digest c1 (n group) (g group)
              salt B rnd u k eq_refl eq_refl eq_refl eq_refl
              Hn Hg ltac:(lia) (Hlen _ _) Hnz Hu Hu0 Hk Hk0) as (K & M & HKM).
  eexists _, _. exact HKM.
Qed.

Lemma be_length (count : nat) (x : Z) : length (Sha1.be count x) = count.
Proof. unfold Sha1.be. now rewrite length_map, length_rev, length_seq. Qed.

Lemma Sha1_hash_length (msg : list Z) : length (Sha1.hash msg) = 20%nat.
Proof.
  unfold Sha1.hash. cbv zeta.
  destruct (Sha1.blocks _ _ _) as [[[[h0 h1] h2] h3] h4].
  now rewrite !length_app, !be_length.
Qed.

Lemma Sha1_digest_length (m : hashInput) : length (Sha1.digest m) = 20%nat.
Proof. destruct m; apply Sha1_hash_length. Qed.

Lemma generatePublicKeyAndProof_registry_witness :
  let c1 :=
    Client.mk (Some (str "alice")) (Some (str "secret"))
      (Some (n (nth 2 primes (mkPrimeGroup 0 0)))) (Some 5)
      (Some [Num 1; Num 2; Num 3; Num 4]) (Some 1) None in
  snd (SRP.generatePublicKeyAndProof Sha1.digest c1 3) = Throw PrecheckFailedError
  \/ exists cl cp,
       SRP.generatePublicKeyAndProof Sha1.digest c1 3 = (handshakeOrder, Ok (cl, cp)).
Proof.
  cbv zeta.
  apply (generatePublicKeyAndProof_registry Sha1.digest
           (str "N=2,s=AQIDBA==,B=AQ==,ss=tok")
           (mkServerInfo (Some (n (nth 2 primes (mkPrimeGroup 0 0)))) (Some 5)
              (Some [Num 1; Num 2; Num 3; Num 4]) (Some 1) (Some (str "tok")))
           (SRP.setIdentity Client.new (Some (str "alice")) (Some (str "secret")))
           _ 1 3).
  - intros m1 m2. now rewrite !Sha1_digest_length.
  - vm_compute. reflexivity.
  - reflexivity.
  - reflexivity.
  - reflexivity.
Defined.

(** ** The module's variables *)

Lemma setServerInfo_ok (this c : Client.t) (info : ServerInfo) :
  SRP.setServerInfo this info = Ok c ->
  exists N g s B,
    c = Client.mk (Client.username this) (Client.password this)
          (Some N) (Some g) (Some s) (Some B) (Client.sharedKey this)
    /\ si_modulus info = Some N /\ si_generator info = Some g
    /\ si_salt info = Some s /\ si_serverPublicKey info = Some B.
Proof.
  unfold SRP.setServerInfo.
  destruct (si_modulus info) as [N|]; [|discriminate].
  destruct (si_generator info) as [g|]; [|discriminate].
  destruct (si_salt info) as [s|]; [|discriminate].
  destruct (si_serverPublicKey info) as [B|]; [|discriminate].
  intros [= <-]. now exists N, g, s, B.
Qed.

Lemma login_onInitialResponse_identity (digest : hashInput -> list Z)
    (fetch : Request -> result Response) (st : AuthState)
    (username : option jsstring) (rnd : Z) (response : Response) :
  let st' := snd (login_onInitialResponse digest fetch st username rnd response) in
  Client.username (srpClient st') = Client.username (srpClient st)
  /\ Client.password (srpClient st') = Client.password (srpClient st)
  /\ loggedInUser st' = loggedInUser st.
Proof.
  cbv zeta. unfold login_onInitialResponse.
  destruct (status response =? 200).
  { destruct (getUserNameFromLoggedInString _); [|now repeat split].
    cbv zeta. destruct (looseEq _ _); now repeat split. }
  destruct (status response =? 403); [|now repeat split].
  cbv zeta.
  destruct (decodeServerParamsString _) as [info|e]; [|now repeat split].
  destruct (SRP.setServerInfo (srpClient st) info) as [c|e] eqn:Hset;
    [|now repeat split].
  destruct (setServerInfo_ok _ _ _ Hset) as (N & g & s & B & -> & _).
  match goal with
  | |- context [SRP.generatePublicKeyAndProof digest ?c0 rnd] => set (c1 := c0)
  end.
  destruct (snd (SRP.generatePublicKeyAndProof digest c1 rnd)) as [[c2 cp]|e] eqn:Hgen;
    [|now repeat split].
  apply (steps_ok_inv digest c1 N g s B rnd eq_refl eq_refl eq_refl eq_refl) in Hgen.
  destruct Hgen as (_ & _ & u & k & K & M & _ & _ & _ & _ & _ & _ & -> & _).
  destruct (Utils.bigIntToBase64 _ _); now repeat split.
Qed.

Lemma login_onFinalResponse_frame (parseXML : jsstring -> result XmlNode)
    (st : AuthState) (username : option jsstring) (response : Response) :
  let st' := snd (login_onFinalResponse parseXML st username response) in
  srpClient st' = srpClient st /\ loggedInUser st' = loggedInUser st.
Proof.
  cbv zeta. unfold login_onFinalResponse.
  destruct (status response =? 200).
  { cbv zeta. destruct (let* doc := parseXML (text response) in _parsePermissions doc)%result;
      now split. }
  destruct (status response =? 403); now split.
Qed.

(** X17. Which variables an operation can touch. No operation assigns
    [loggedInUser], the variable from which [updatePermissionsCache]
    takes the user it asks the permissions of; [logout],
    [updateFromSession] and [updatePermissionsCache] leave the SRP
    client alone; [updateFromSession] leaves the cached permissions and
    [updatePermissionsCache] the reported user name as they are; and
    [login] leaves the user name and the password it was called with
    in the SRP client, whether it succeeds or fails. *)
Theorem module_state_frame (digest : hashInput -> list Z)
    (parseXML : jsstring -> result XmlNode) (fetch : Request -> result Response)
    (st : AuthState) (username password : option jsstring) (rnd : Z)
    (cookie : jsstring) :
  let afterLogin := snd (login digest parseXML fetch st username password rnd) in
  let afterLogout := snd (logout fetch st cookie) in
  let afterUpdate := snd (updateFromSession fetch st cookie) in
  let afterRefresh := snd (updatePermissionsCache parseXML fetch st) in
  (loggedInUser afterLogin = loggedInUser st
   /\ loggedInUser afterLogout = loggedInUser st
   /\ loggedInUser afterUpdate = loggedInUser st
   /\ loggedInUser afterRefresh = loggedInUser st)
  /\ (srpClient afterLogout = srpClient st
      /\ srpClient afterUpdate = srpClient st
      /\ srpClient afterRefresh = srpClient st)
  /\ cachedPermissions afterUpdate = cachedPermissions st
  /\ _loggedInUser afterRefresh = _loggedInUser st
  /\ Client.username (srpClient afterLogin) = username
  /\ Client.password (srpClient afterLogin) = password.
Proof.
  cbv zeta.
  assert (Hlogout : loggedInUser (snd (logout fetch st cookie)) = loggedInUser st
                    /\ srpClient (snd (logout fetch st cookie)) = srpClient st).
  { unfold logout. case_results; now split. }
  assert (Hupdate : loggedInUser (snd (updateFromSession fetch st cookie))
                    = loggedInUser st
                    /\ srpClient (snd (updateFromSession fetch st cookie))
                       = srpClient st
                    /\ cachedPermissions (snd (updateFromSession fetch st cookie))
                       = cachedPermissions st).
  { unfold updateFromSession. case_results; now repeat split. }
  assert (Hrefresh : loggedInUser (snd (updatePermissionsCache parseXML fetch st))
                     = loggedInUser st
                     /\ srpClient (snd (updatePermissionsCache parseXML fetch st))
                        = srpClient st
                     /\ _loggedInUser (snd (updatePermissionsCache parseXML fetch st))
                        = _loggedInUser st).
  { unfold updatePermissionsCache.
    destruct (getAggregateUserPermissions _ _ _); now repeat split. }
  assert (Hlogin : loggedInUser
                     (snd (login digest parseXML fetch st username password rnd))
                   = loggedInUser st
                   /\ Client.username
                        (srpClient
                           (snd (login digest parseXML fetch st username password rnd)))
                      = username
                   /\ Client.password
                        (srpClient
                           (snd (login digest parseXML fetch st username password rnd)))
                      = password).
  { unfold login. cbv zeta.
    destruct (fetch _) as [r1|e]; [|now repeat split].
    pose proof (login_onInitialResponse_identity digest fetch
                  (set_srpClient (SRP.setIdentity (srpClient st) username password) st)
                  username rnd r1) as (Hu & Hp & Hl).
    destruct (login_onInitialResponse _ _ _ _ _ _) as [[r2|e] st2];
      cbn [snd] in Hu, Hp, Hl |- *; [|now repeat split].
    pose proof (login_onFinalResponse_frame parseXML st2 username r2) as (Hc & Hl2).
    cbv zeta in Hc, Hl2. rewrite Hc, Hl2. now repeat split. }
  destruct Hlogout as (? & ?), Hupdate as (? & ? & ?), Hrefresh as (? & ? & ?),
    Hlogin as (? & ? & ?).
  repeat split; assumption.
Qed.

(** ** updateFromSession *)

(** X18. [updateFromSession]: without the session cookie it resolves
    with false, changes nothing and sends no request (the result does
    not depend on the network); with the cookie, a rejected request
    rejects, a status other than 200 resolves with false and changes
    nothing, a status 200 with the text 'Logged in as: name' stores
    that name as the user name and resolves with true, and a status 200
    with a text that lacks 'Logged in as: ' rejects with a type error
    and changes nothing. *)
Theorem updateFromSession_effect (fetch : Request -> result Response)
    (st : AuthState) (cookie : jsstring) :
  let out := updateFromSession fetch st cookie in
  let request := mkRequest (str "/Login") (str "GET") [] None in
  (hasSessionCookie cookie = false ->
   forall fetch', updateFromSession fetch' st cookie = (Ok JFalse, st))
  /\ (forall e,
         hasSessionCookie cookie = true -> fetch request = Throw e ->
         out = (Throw e, st))
  /\ (forall response,
         hasSessionCookie cookie = true -> fetch request = Ok response ->
         status response <> 200 -> out = (Ok JFalse, st))
  /\ (forall response pre name rest,
         hasSessionCookie cookie = true -> fetch request = Ok response ->
         status response = 200 ->
         text response = pre ++ str "Logged in as: " ++ name ++ rest ->
         ~ In 76 pre ->
         Forall (fun c => isLineTerminator c = false) name ->
         rest = [] \/ (exists c r, rest = c :: r /\ isLineTerminator c = true) ->
         out = (Ok JTrue,
                mkAuthState (srpClient st) (loggedInUser st) (cachedPermissions st)
                  (Some name)))
  /\ (forall response,
         hasSessionCookie cookie = true -> fetch request = Ok response ->
         status response = 200 ->
         (~ exists pre post, text response = pre ++ str "Logged in as: " ++ post) ->
         out = (Throw TypeError, st)).
Proof.
  cbv zeta. unfold updateFromSession.
  split; [intros Hc fetch'; now rewrite Hc|].
  split; [intros e Hc Hf; now rewrite Hc, Hf|].
  split.
  { intros response Hc Hf Hs. rewrite Hc, Hf. cbn [negb].
    now replace (status response =? 200) with false
      by (symmetry; now apply Z.eqb_neq). }
  split.
  - intros response pre name rest Hc Hf Hs Ht Hpre Hname Hrest.
    rewrite Hc, Hf, Hs, Ht. cbn [negb].
    now rewrite getUserNameFromLoggedInString_found.
  - intros response Hc Hf Hs Hno. rewrite Hc, Hf, Hs. cbn [negb].
    now rewrite getUserNameFromLoggedInString_missing.
Qed.

Lemma updateFromSession_effect_witness :
  updateFromSession noNetwork demoState [] = (Ok JFalse, demoState)
  /\ updateFromSession (respond 500) demoState (str "_appwebSessionId_=1")
     = (Ok JFalse, demoState)
  /\ updateFromSession sessionNetwork initialState (str "_appwebSessionId_=1")
     = (Ok JTrue, mkAuthState Client.new [] None (Some (str "alice")))
  /\ updateFromSession (respond 200) demoState (str "_appwebSessionId_=1")
     = (Throw TypeError, demoState).
Proof.
  pose proof (updateFromSession_effect noNetwork demoState []) as (H1 & _).
  pose proof (updateFromSession_effect (respond 500) demoState
                (str "_appwebSessionId_=1")) as (_ & _ & H2 & _).
  pose proof (updateFromSession_effect sessionNetwork initialState
                (str "_appwebSessionId_=1")) as (_ & _ & _ & H3 & _).
  pose proof (updateFromSession_effect (respond 200) demoState
                (str "_appwebSessionId_=1")) as (_ & _ & _ & _ & H4).
  split; [apply H1; reflexivity|]. split.
  { apply (H2 (mkResponse 500 (fun _ => None) []));
      [reflexivity | reflexivity | cbn; lia]. }
  split.
  { apply (H3 (mkResponse 200 (fun _ => None) (str "Logged in as: alice"))
              [] (str "alice") []);
      [reflexivity | reflexivity | reflexivity | reflexivity | intros []
      | repeat constructor | now left]. }
  apply (H4 (mkResponse 200 (fun _ => None) [])); [reflexivity..|].
  intros (pre & post & H). cbn [text] in H. destruct pre; discriminate.
Defined.

(** ** login: the answers to the first request *)

(** X19. [login] while a session of another user is open: when the
    first request is answered with the status 200 and the text names a
    user different from the one asked for, [login] rejects with
    'Already logged in as ...', and the reported user name has by then
    been overwritten with the name from the text; no further request
    is made. *)
Theorem login_already_logged_in (digest : hashInput -> list Z)
    (parseXML : jsstring -> result XmlNode) (fetch : Request -> result Response)
    (st : AuthState) (username password : option jsstring) (rnd : Z)
    (response : Response) (other : jsstring) :
  fetch (loginRequest username) = Ok response ->
  status response = 200 ->
  getUserNameFromLoggedInString (text response) = Ok other ->
  Some other <> username ->
  login digest parseXML fetch st username password rnd
  = (Throw AlreadyLoggedInError,
     set_loggedInUser (Some other) (withIdentity st username password))
  /\ getUserName (snd (login digest parseXML fetch st username password rnd))
     = Some other.
Proof.
  intros Hf Hs Ht Hne.
  assert (H : login digest parseXML fetch st username password rnd
              = (Throw AlreadyLoggedInError,
                 set_loggedInUser (Some other) (withIdentity st username password))).
  { unfold login, loginRequest in *. cbv zeta. rewrite Hf.
    unfold login_onInitialResponse. rewrite Hs, Ht. cbn [Z.eqb Pos.eqb]. cbv zeta.
    unfold looseEq. now rewrite bool_decide_eq_false_2 by exact Hne. }
  split; [exact H | now rewrite H].
Qed.

Lemma login_already_logged_in_witness :
  login Sha1.digest noXML sessionNetwork initialState (Some (str "bob"))
    (Some (str "secret")) 3
  = (Throw AlreadyLoggedInError,
     set_loggedInUser (Some (str "alice"))
       (withIdentity initialState (Some (str "bob")) (Some (str "secret"))))
  /\ getUserName
       (snd (login Sha1.digest noXML sessionNetwork initialState (Some (str "bob"))
               (Some (str "secret")) 3))
     = Some (str "alice").
Proof.
  apply (login_already_logged_in Sha1.digest noXML sessionNetwork initialState
           (Some (str "bob")) (Some (str "secret")) 3
           (mkResponse 200 (fun _ => None) (str "Logged in as: alice")) (str "alice"));
    [reflexivity | reflexivity | reflexivity | discriminate].
Defined.

(** X20. How [login] fails on the first answer, with only the identity
    stored in the SRP client: a rejected request rejects [login] with
    the same reason; a status other than 200 and 403 rejects with
    'Unknown/unhandled status code'; a status 403 whose challenge
    header is absent or empty rejects with the error of
    [setServerInfo] on an info without fields; and a status 403 whose
    header does not decode rejects with the decoder's error. *)
Theorem login_initial_failures (digest : hashInput -> list Z)
    (parseXML : jsstring -> result XmlNode) (fetch : Request -> result Response)
    (st : AuthState) (username password : option jsstring) (rnd : Z) :
  let out := login digest parseXML fetch st username password rnd in
  let st' := withIdentity st username password in
  (forall e, fetch (loginRequest username) = Throw e -> out = (Throw e, st'))
  /\ (forall response,
         fetch (loginRequest username) = Ok response ->
         status response <> 200 -> status response <> 403 ->
         out = (Throw UnknownStatusError, st'))
  /\ (forall response,
         fetch (loginRequest username) = Ok response ->
         status response = 403 ->
         header response (str "X-NI-AUTH-PARAMS") = None
         \/ header response (str "X-NI-AUTH-PARAMS") = Some [] ->
         out = (Throw IncompleteServerInfoError, st'))
  /\ (forall response e,
         fetch (loginRequest username) = Ok response ->
         status response = 403 ->
         decodeServerParamsString (header response (str "X-NI-AUTH-PARAMS"))
         = Throw e ->
         out = (Throw e, st')).
Proof.
  cbv zeta. unfold login, loginRequest, withIdentity. cbv zeta.
  split; [intros e Hf; now rewrite Hf|].
  split.
  { intros response Hf H200 H403. rewrite Hf.
    now rewrite login_initial_other_status by assumption. }
  split.
  - intros response Hf Hs Hh. rewrite Hf. unfold login_onInitialResponse.
    rewrite Hs. cbn [Z.eqb Pos.eqb]. cbv zeta.
    destruct Hh as [-> | ->]; reflexivity.
  - intros response e Hf Hs Hd. rewrite Hf. unfold login_onInitialResponse.
    rewrite Hs. cbn [Z.eqb Pos.eqb]. cbv zeta. now rewrite Hd.
Qed.

Lemma login_initial_failures_witness :
  login Sha1.digest noXML noNetwork initialState (Some (str "alice"))
    (Some (str "secret")) 3
  = (Throw NetworkError,
     withIdentity initialState (Some (str "alice")) (Some (str "secret")))
  /\ login Sha1.digest noXML (respond 500) initialState (Some (str "alice"))
       (Some (str "secret")) 3
     = (Throw UnknownStatusError,
        withIdentity initialState (Some (str "alice")) (Some (str "secret")))
  /\ login Sha1.digest noXML (respond 403) initialState (Some (str "alice"))
       (Some (str "secret")) 3
     = (Throw IncompleteServerInfoError,
        withIdentity initialState (Some (str "alice")) (Some (str "secret"))).
Proof.
  pose proof (login_initial_failures Sha1.digest noXML noNetwork initialState
                (Some (str "alice")) (Some (str "secret")) 3) as (H1 & _).
  pose proof (login_initial_failures Sha1.digest noXML (respond 500) initialState
                (Some (str "alice")) (Some (str "secret")) 3) as (_ & H2 & _).
  pose proof (login_initial_failures Sha1.digest noXML (respond 403) initialState
                (Some (str "alice")) (Some (str "secret")) 3) as (_ & _ & H3 & _).
  split; [apply H1; reflexivity|]. split.
  - apply (H2 (mkResponse 500 (fun _ => None) []));
      [reflexivity | cbn; lia | cbn; lia].
  - apply (H3 (mkResponse 403 (fun _ => None) []));
      [reflexivity | reflexivity | now left].
Defined.

(** ** Permissions *)

Lemma parsePermissions_fold_is_Some (l : list XmlNode) :
  forall (m : gmap jsstring Permission) (k : jsstring),
    is_Some
      (fold_left
         (fun permissions cnode =>
            if tagIs cnode "Permission"
            then assignPermission permissions (Permission_new cnode)
            else permissions) l m !! k)
    <-> is_Some (m !! k)
        \/ (k <> str "__proto__"
            /\ exists c, In c l /\ tagIs c "Permission" = true
                         /\ name (Permission_new c) = k).
Proof.
  induction l as [|c l IH]; intros m k; cbn [fold_left].
  - split; [now left | intros [H|(_ & c & [] & _)]; exact H].
  - rewrite IH. clear IH. split.
    + intros [H|(Hk & c' & Hin & Ht & Hn)].
      * destruct (tagIs c "Permission") eqn:Ht; [|now left].
        unfold assignPermission in H.
        destruct (bool_decide_reflect (name (Permission_new c) = str "__proto__"))
          as [Hp|Hp]; [now left|].
        apply lookup_insert_is_Some in H. destruct H as [<-|[_ H]]; [|now left].
        right. split; [exact Hp|]. exists c. repeat split; [now left | exact Ht].
      * right. split; [exact Hk|]. exists c'. repeat split; [now right | exact Ht | exact Hn].
    + intros [H|(Hk & c' & [<-|Hin] & Ht & Hn)].
      * left. destruct (tagIs c "Permission"); [|exact H].
        unfold assignPermission. destruct (bool_decide _); [exact H|].
        apply lookup_insert_is_Some.
        destruct (decide (name (Permission_new c) = k)); [now left | now right].
      * left. rewrite Ht. unfold assignPermission.
        rewrite bool_decide_eq_false_2 by congruence.
        apply lookup_insert_is_Some. now left.
      * right. split; [exact Hk|]. now exists c'.
Qed.

Lemma parsePermissions_fold_names (l : list XmlNode) :
  forall (m : gmap jsstring Permission),
    (forall k p, m !! k = Some p -> name p = k) ->
    forall k p,
      fold_left
        (fun permissions cnode =>
           if tagIs cnode "Permission"
           then assignPermission permissions (Permission_new cnode)
           else permissions) l m !! k = Some p ->
      name p = k.
Proof.
  induction l as [|c l IH]; intros m Hm k p; cbn [fold_left]; [apply Hm|].
  apply IH. clear k p. intros k p.
  destruct (tagIs c "Permission"); [|apply Hm].
  unfold assignPermission. destruct (bool_decide _); [apply Hm|].
  destruct (decide (name (Permission_new c) = k)) as [<-|Hne].
  - rewrite lookup_insert_eq. now intros [= <-].
  - rewrite lookup_insert_ne by exact Hne. apply Hm.
Qed.

Lemma parsePermissions_ok (root : XmlNode) :
  tagName root = Some (str "Permissions") ->
  exists perms,
    _parsePermissions root = Ok perms
    /\ (forall k, is_Some (perms !! k)
                  <-> k <> str "__proto__" /\ exists c, permissionNode root k c)
    /\ (forall k p, perms !! k = Some p -> name p = k).
Proof.
  intros Htag. unfold _parsePermissions, tagIs at 1.
  rewrite bool_decide_eq_true_2 by exact Htag. cbn [negb].
  eexists. split; [reflexivity|]. split.
  - intros k. rewrite parsePermissions_fold_is_Some. rewrite lookup_empty. split.
    + intros [[p Hp]|H]; [discriminate | exact H].
    + intros H. now right.
  - apply parsePermissions_fold_names. intros k p. rewrite lookup_empty. discriminate.
Qed.

(** X21. What [_parsePermissions] returns: a document whose root is not
    a Permissions element is refused with 'Unknown element type';
    otherwise the result has a property of a given name exactly when
    the name is not '__proto__' and some Permission child of the root
    carries it, and the permission stored under a name has that
    name. *)
Theorem parsePermissions_spec (root : XmlNode) :
  (tagName root <> Some (str "Permissions") ->
   _parsePermissions root = Throw UnknownElementError)
  /\ (tagName root = Some (str "Permissions") ->
      exists perms,
        _parsePermissions root = Ok perms
        /\ (forall k, is_Some (perms !! k)
                      <-> k <> str "__proto__" /\ exists c, permissionNode root k c)
        /\ (forall k p, perms !! k = Some p -> name p = k)).
Proof.
  split; [|apply parsePermissions_ok].
  intros Htag. unfold _parsePermissions, tagIs at 1.
  now rewrite bool_decide_eq_false_2 by exact Htag.
Qed.

Lemma parsePermissions_spec_witness :
  exists perms,
    _parsePermissions permissionsDoc = Ok perms
    /\ (forall k, is_Some (perms !! k)
                  <-> k <> str "__proto__" /\ exists c, permissionNode permissionsDoc k c)
    /\ (forall k p, perms !! k = Some p -> name p = k).
Proof. apply (proj2 (parsePermissions_spec permissionsDoc)). reflexivity. Defined.

(** X22. Logging in while the session of the same user is open, and
    what [hasPermission] answers afterwards: when the first request is
    answered with 200 and the name asked for, and the permission
    request with 200 and a Permissions document in which no permission
    is named 'hasOwnProperty', [login] resolves with true, the reported
    user name is the one asked for, and [hasPermission] is true exactly
    for the names carried by a Permission child of the document (never
    for '__proto__'). *)
Theorem login_same_user_permissions (digest : hashInput -> list Z)
    (parseXML : jsstring -> result XmlNode) (fetch : Request -> result Response)
    (st : AuthState) (user : jsstring) (password : option jsstring) (rnd : Z)
    (r1 r2 : Response) (doc : XmlNode) :
  fetch (loginRequest (Some user)) = Ok r1 ->
  status r1 = 200 ->
  getUserNameFromLoggedInString (text r1) = Ok user ->
  fetch (permissionsRequest (Some user)) = Ok r2 ->
  status r2 = 200 ->
  parseXML (text r2) = Ok doc ->
  tagName doc = Some (str "Permissions") ->
  (forall c, ~ permissionNode doc (str "hasOwnProperty") c) ->
  exists st',
    login digest parseXML fetch st (Some user) password rnd = (Ok JTrue, st')
    /\ getUserName st' = Some user
    /\ forall permName,
         exists answer,
           hasPermission st' permName = Ok answer
           /\ (answer = true
               <-> permName <> str "__proto__"
                   /\ exists c, permissionNode doc permName c).
Proof.
  intros Hf1 Hs1 Ht1 Hf2 Hs2 Hxml Htag Hshadow.
  destruct (parsePermissions_ok doc Htag) as (perms & Hparse & Hkeys & _).
  eexists. split; [|split].
  - unfold login, loginRequest, permissionsRequest in *. cbv zeta. rewrite Hf1.
    unfold login_onInitialResponse. rewrite Hs1, Ht1. cbn [Z.eqb Pos.eqb]. cbv zeta.
    unfold looseEq. rewrite bool_decide_eq_true_2 by reflexivity.
    rewrite Hf2. unfold login_onFinalResponse. rewrite Hs2. cbn [Z.eqb Pos.eqb].
    cbv zeta. rewrite Hxml. cbn [rbind]. rewrite Hparse. reflexivity.
  - reflexivity.
  - intros permName. unfold hasPermission.
    cbn [cachedPermissions set_cachedPermissions].
    destruct (perms !! str "hasOwnProperty") as [p|] eqn:Hown.
    { exfalso. assert (Hs : is_Some (perms !! str "hasOwnProperty")) by now exists p.
      apply Hkeys in Hs. destruct Hs as (_ & c & Hc). now apply (Hshadow c). }
    eexists. split; [reflexivity|].
    rewrite bool_decide_eq_true. apply Hkeys.
Qed.

Lemma login_same_user_permissions_witness :
  exists st',
    login Sha1.digest demoXML sessionNetwork initialState (Some (str "alice"))
      (Some (str "secret")) 3 = (Ok JTrue, st')
    /\ getUserName st' = Some (str "alice")
    /\ forall permName,
         exists answer,
           hasPermission st' permName = Ok answer
           /\ (answer = true
               <-> permName <> str "__proto__"
                   /\ exists c, permissionNode permissionsDoc permName c).
Proof.
  apply (login_same_user_permissions Sha1.digest demoXML sessionNetwork initialState
           (str "alice") (Some (str "secret")) 3
           (mkResponse 200 (fun _ => None) (str "Logged in as: alice"))
           (mkResponse 200 (fun _ => None) (str "Logged in as: alice"))
           permissionsDoc);
    try reflexivity.
  intros c (Hin & _ & Hname). cbn [permissionsDoc childNodes In] in Hin.
  destruct Hin as [<-|[]]. vm_compute in Hname. discriminate.
Defined.

(** ** Utils.bigIntegerToBytes: the width of the result *)

(** X23. Whatever the integer, negative ones included, an array
    returned by [bigIntegerToBytes] for a width that is not negative has
    exactly that many elements. *)
Theorem bigIntegerToBytes_length (n width : Z) (bytes : jsarray) :
  0 <= width ->
  Utils.bigIntegerToBytes n width = Ok bytes ->
  JS.len bytes = width.
Proof.
  intros Hw. unfold Utils.bigIntegerToBytes. cbv zeta.
  destruct (Z.eqb_spec (JS.len (BigInteger.toByteArray n)) width) as [Heq|Hne].
  { now intros [= <-]. }
  destruct (Z.ltb_spec (JS.len (BigInteger.toByteArray n)) width) as [Hlt|Hge].
  { intros [= <-]. unfold JS.len in *. rewrite length_app, repeat_length. lia. }
  destruct (existsb _ _); [discriminate|]. intros [= <-].
  rewrite sliceFrom_drop by (unfold JS.len in *; lia).
  unfold JS.len in *. rewrite length_drop. lia.
Qed.

Lemma bigIntegerToBytes_length_witness :
  Utils.bigIntegerToBytes (-1) 2 = Ok [Num 0; Num (-1)]
  /\ JS.len [Num 0; Num (-1)] = 2.
Proof.
  assert (H : Utils.bigIntegerToBytes (-1) 2 = Ok [Num 0; Num (-1)])
    by (vm_compute; reflexivity).
  split; [exact H|].
  apply (bigIntegerToBytes_length (-1) 2); [lia | exact H].
Defined.

(** ** hasPermission *)

(** X24. [hasPermission] before any permissions were cached answers
    false for every name; and once the cached set comes from a document
    in which a permission is named 'hasOwnProperty', every call throws,
    whatever the name asked for. *)
Theorem hasPermission_edges (st : AuthState) :
  (cachedPermissions st = None ->
   forall permName, hasPermission st permName = Ok false)
  /\ (forall root perms c,
         _parsePermissions root = Ok perms ->
         cachedPermissions st = Some perms ->
         permissionNode root (str "hasOwnProperty") c ->
         forall permName, hasPermission st permName = Throw TypeError).
Proof.
  split.
  - intros Hnone permName. unfold hasPermission. now rewrite Hnone.
  - intros root perms c Hparse Hst Hc permName.
    assert (Htag : tagName root = Some (str "Permissions")).
    { unfold _parsePermissions, tagIs in Hparse.
      destruct (bool_decide_reflect (tagName root = Some (str "Permissions")));
        [assumption | discriminate]. }
    destruct (parsePermissions_ok root Htag) as (perms' & Hparse' & Hkeys & _).
    rewrite Hparse in Hparse'. injection Hparse' as <-.
    assert (Hown : is_Some (perms !! str "hasOwnProperty")).
    { apply Hkeys. split; [discriminate | now exists c]. }
    destruct Hown as [p Hp].
    unfold hasPermission. now rewrite Hst, Hp.
Qed.

Lemma hasPermission_edges_witness :
  hasPermission initialState (str "Reboot") = Ok false
  /\ exists perms,
       _parsePermissions shadowDoc = Ok perms
       /\ hasPermission (set_cachedPermissions perms initialState) (str "Reboot")
          = Throw TypeError
       /\ hasPermission (set_cachedPermissions perms initialState)
            (str "hasOwnProperty")
          = Throw TypeError.
Proof.
  split; [apply (proj1 (hasPermission_edges initialState)); reflexivity|].
  destruct (parsePermissions_ok shadowDoc eq_refl) as (perms & Hparse & _).
  exists perms. split; [exact Hparse|].
  assert (Hnode : permissionNode shadowDoc (str "hasOwnProperty")
                    (mkXmlNode (Some (str "Permission")) []
                       [mkXmlNode (Some (str "Name")) (str "hasOwnProperty") []])).
  { split; [now left|]. split; reflexivity. }
  pose proof (proj2 (hasPermission_edges (set_cachedPermissions perms initialState))
                shadowDoc perms _ Hparse eq_refl Hnode) as Hthrows.
  split; apply Hthrows.
Defined.

(** ** Utils.xorHashStrings on hash strings *)

Lemma parseInt_digits_checked :
  forallb (fun d1 => forallb (fun d2 => forallb (fun d3 => forallb (fun d4 =>
    bool_decide
      (JS.parseInt
         [JS.hexDigit d1; JS.hexDigit d2; JS.hexDigit d3; JS.hexDigit d4] 16
       = Num (((d1 * 16 + d2) * 16 + d3) * 16 + d4)))
    hexDigits) hexDigits) hexDigits) hexDigits = true.
Proof. vm_compute. reflexivity. Qed.

Lemma render_digits_checked :
  forallb (fun d1 => forallb (fun d2 => forallb (fun d3 => forallb (fun d4 =>
    bool_decide
      (JS.substrFrom
         (str "0000"
            ++ JS.toString16 (Num (((d1 * 16 + d2) * 16 + d3) * 16 + d4))) (-4)
       = [JS.hexDigit d1; JS.hexDigit d2; JS.hexDigit d3; JS.hexDigit d4]))
    hexDigits) hexDigits) hexDigits) hexDigits = true.
Proof. vm_compute. reflexivity. Qed.

Lemma in_hexDigits (d : Z) : 0 <= d < 16 -> In d hexDigits.
Proof.
  intros Hd. unfold hexDigits. rewrite <- (Z2Nat.id d) by lia.
  apply in_map, in_seq. lia.
Qed.

Lemma parseInt_digits (d1 d2 d3 d4 : Z) :
  0 <= d1 < 16 -> 0 <= d2 < 16 -> 0 <= d3 < 16 -> 0 <= d4 < 16 ->
  JS.parseInt [JS.hexDigit d1; JS.hexDigit d2; JS.hexDigit d3; JS.hexDigit d4] 16
  = Num (((d1 * 16 + d2) * 16 + d3) * 16 + d4).
Proof.
  intros H1 H2 H3 H4. pose proof parseInt_digits_checked as H.
  rewrite forallb_forall in H. specialize (H d1 (in_hexDigits d1 H1)).
  rewrite forallb_forall in H. specialize (H d2 (in_hexDigits d2 H2)).
  rewrite forallb_forall in H. specialize (H d3 (in_hexDigits d3 H3)).
  rewrite forallb_forall in H. specialize (H d4 (in_hexDigits d4 H4)).
  apply bool_decide_eq_true in H. exact H.
Qed.

Lemma render_digits (d1 d2 d3 d4 : Z) :
  0 <= d1 < 16 -> 0 <= d2 < 16 -> 0 <= d3 < 16 -> 0 <= d4 < 16 ->
  JS.substrFrom
    (str "0000" ++ JS.toString16 (Num (((d1 * 16 + d2) * 16 + d3) * 16 + d4))) (-4)
  = [JS.hexDigit d1; JS.hexDigit d2; JS.hexDigit d3; JS.hexDigit d4].
Proof.
  intros H1 H2 H3 H4. pose proof render_digits_checked as H.
  rewrite forallb_forall in H. specialize (H d1 (in_hexDigits d1 H1)).
  rewrite forallb_forall in H. specialize (H d2 (in_hexDigits d2 H2)).
  rewrite forallb_forall in H. specialize (H d3 (in_hexDigits d3 H3)).
  rewrite forallb_forall in H. specialize (H d4 (in_hexDigits d4 H4)).
  apply bool_decide_eq_true in H. exact H.
Qed.

Lemma parseInt_pairs (x y : jsnum) :
  JS.parseInt (hexPair x ++ hexPair y) 16
  = Num (Base64.byteOf x * 256 + Base64.byteOf y).
Proof.
  pose proof (byteOf_range x). pose proof (byteOf_range y).
  unfold hexPair. cbn [app]. rewrite parseInt_digits by zdiv.
  f_equal. zdiv.
Qed.

Lemma render_pairs (r1 r2 : Z) :
  0 <= r1 < 256 -> 0 <= r2 < 256 ->
  JS.substrFrom (str "0000" ++ JS.toString16 (Num (r1 * 256 + r2))) (-4)
  = hexPair (Num r1) ++ hexPair (Num r2).
Proof.
  intros H1 H2.
  replace (r1 * 256 + r2)
    with (((r1 / 16 * 16 + r1 mod 16) * 16 + r2 / 16) * 16 + r2 mod 16) by zdiv.
  rewrite render_digits by zdiv.
  unfold hexPair. now rewrite !byteOf_small by assumption.
Qed.

Lemma lxor_mod_pow2 (a b c : Z) :
  0 <= c -> Z.lxor a b mod 2 ^ c = Z.lxor (a mod 2 ^ c) (b mod 2 ^ c).
Proof.
  intros Hc. apply Z.bits_inj'. intros i Hi.
  destruct (Z.lt_ge_cases i c).
  - now rewrite Z.lxor_spec, !Z.mod_pow2_bits_low, Z.lxor_spec by lia.
  - now rewrite Z.lxor_spec, !Z.mod_pow2_bits_high by lia.
Qed.

Lemma lxor_bytes (a1 a2 b1 b2 : Z) :
  0 <= a1 < 256 -> 0 <= a2 < 256 -> 0 <= b1 < 256 -> 0 <= b2 < 256 ->
  Z.lxor (a1 * 256 + a2) (b1 * 256 + b2) = Z.lxor a1 b1 * 256 + Z.lxor a2 b2.
Proof.
  intros Ha1 Ha2 Hb1 Hb2.
  set (r := Z.lxor (a1 * 256 + a2) (b1 * 256 + b2)).
  assert (Hd : r / 2 ^ 8 = Z.lxor a1 b1).
  { subst r. rewrite <- Z.shiftr_div_pow2, Z.shiftr_lxor, !Z.shiftr_div_pow2 by lia.
    change (2 ^ 8) with 256. f_equal; zdiv. }
  assert (Hm : r mod 2 ^ 8 = Z.lxor a2 b2).
  { subst r. rewrite lxor_mod_pow2 by lia.
    change (2 ^ 8) with 256. f_equal; zdiv. }
  change (2 ^ 8) with 256 in Hd, Hm.
  rewrite (Z.div_mod r 256) by lia. lia.
Qed.

Lemma lxor_byte_range (a b : Z) :
  0 <= a < 256 -> 0 <= b < 256 -> 0 <= Z.lxor a b < 256.
Proof.
  intros Ha Hb. split; [apply Z.lxor_nonneg; lia|].
  destruct (Z.eq_dec (Z.lxor a b) 0) as [->|Hnz]; [lia|].
  assert (Hpos : 0 < Z.lxor a b) by (pose proof (proj2 (Z.lxor_nonneg a b)); lia).
  apply Z.log2_lt_pow2 with (b := 8) in Hpos. apply Hpos.
  pose proof (Z.log2_lxor a b ltac:(lia) ltac:(lia)) as Hlog.
  assert (Z.log2 a < 8).
  { destruct (Z.eq_dec a 0) as [->|]; [cbn; lia|].
    apply Z.log2_lt_pow2; lia. }
  assert (Z.log2 b < 8).
  { destruct (Z.eq_dec b 0) as [->|]; [cbn; lia|].
    apply Z.log2_lt_pow2; lia. }
  lia.
Qed.

Lemma bitxor_small (v w : Z) :
  0 <= v < 65536 -> 0 <= w < 65536 ->
  JS.bitxor (Num v) (Num w) = Num (Z.lxor v w).
Proof.
  intros Hv Hw. unfold JS.bitxor. cbn [JS.ToInt32].
  rewrite (Z.mod_small (v + 2 ^ 31)), (Z.mod_small (w + 2 ^ 31)) by lia.
  do 2 f_equal; lia.
Qed.

Lemma xor_chunk (x1 x2 y1 y2 : jsnum) :
  JS.substrFrom
    (str "0000"
       ++ JS.toString16
            (JS.bitxor (JS.parseInt (hexPair x1 ++ hexPair x2) 16)
               (JS.parseInt (hexPair y1 ++ hexPair y2) 16))) (-4)
  = Utils.byteArrayToHashString (xorBytes [x1; x2] [y1; y2]).
Proof.
  pose proof (byteOf_range x1) as Hx1. pose proof (byteOf_range x2) as Hx2.
  pose proof (byteOf_range y1) as Hy1. pose proof (byteOf_range y2) as Hy2.
  pose proof (lxor_byte_range _ _ Hx1 Hy1) as H1.
  pose proof (lxor_byte_range _ _ Hx2 Hy2) as H2.
  rewrite !parseInt_pairs.
  rewrite bitxor_small by lia.
  rewrite lxor_bytes by assumption.
  rewrite render_pairs by assumption.
  rewrite byteArrayToHashString_pairs. cbn [xorBytes map concat].
  now rewrite app_nil_r.
Qed.

Lemma xorHashStrings_loop_bytes (count : nat) :
  forall (a b : jsarray) (prea preb res : jsstring) (fuel : nat),
    length a = (2 * count)%nat -> length b = (2 * count)%nat ->
    JS.len prea = JS.len preb ->
    (count <= fuel)%nat ->
    Utils.xorHashStrings_loop fuel
      (prea ++ concat (map hexPair a)) (preb ++ concat (map hexPair b))
      (JS.len prea) res
    = res ++ Utils.byteArrayToHashString (xorBytes a b).
Proof.
  induction count as [|count IH]; intros a b prea preb res fuel Ha Hb Hpre Hfuel.
  - destruct a; [|discriminate]. destruct b; [|discriminate].
    cbn [map concat xorBytes]. rewrite !app_nil_r.
    destruct fuel; [reflexivity|]. cbn [Utils.xorHashStrings_loop].
    now rewrite Z.ltb_irrefl.
  - destruct a as [|x1 [|x2 a]]; try (cbn in Ha; lia).
    destruct b as [|y1 [|y2 b]]; try (cbn in Hb; lia).
    destruct fuel as [|fuel]; [lia|].
    cbn [Utils.xorHashStrings_loop map concat].
    assert (Hlt : (JS.len prea
                   <? JS.len (prea ++ hexPair x1 ++ hexPair x2 ++ concat (map hexPair a)))
                  = true).
    { apply Z.ltb_lt. unfold JS.len. rewrite !length_app. cbn [hexPair length]. lia. }
    rewrite Hlt. cbv zeta.
    rewrite (substr_app prea) by lia.
    assert (Hsb : JS.substr
                    (preb ++ hexPair y1 ++ hexPair y2 ++ concat (map hexPair b))
                    (JS.len prea) 4
                  = take (Z.to_nat 4)
                      (hexPair y1 ++ hexPair y2 ++ concat (map hexPair b)))
      by (rewrite Hpre; apply substr_app; lia).
    rewrite Hsb.
    change (take (Z.to_nat 4) (hexPair x1 ++ hexPair x2 ++ concat (map hexPair a)))
      with (hexPair x1 ++ hexPair x2).
    change (take (Z.to_nat 4) (hexPair y1 ++ hexPair y2 ++ concat (map hexPair b)))
      with (hexPair y1 ++ hexPair y2).
    rewrite xor_chunk.
    replace (JS.len prea + 4) with (JS.len (prea ++ hexPair x1 ++ hexPair x2))
      by (unfold JS.len; rewrite !length_app; cbn [hexPair length]; lia).
    replace (prea ++ hexPair x1 ++ hexPair x2 ++ concat (map hexPair a))
      with ((prea ++ hexPair x1 ++ hexPair x2) ++ concat (map hexPair a))
      by (now rewrite <- !app_assoc).
    replace (preb ++ hexPair y1 ++ hexPair y2 ++ concat (map hexPair b))
      with ((preb ++ hexPair y1 ++ hexPair y2) ++ concat (map hexPair b))
      by (now rewrite <- !app_assoc).
    rewrite (IH a b) by
      (try (cbn in Ha, Hb; lia);
       unfold JS.len in *; rewrite !length_app; cbn [hexPair length]; lia).
    rewrite <- app_assoc. f_equal.
    change (xorBytes (x1 :: x2 :: a) (y1 :: y2 :: b))
      with (xorBytes [x1; x2] [y1; y2] ++ xorBytes a b).
    now rewrite byteArrayToHashString_app.
Qed.

Lemma xorHashStrings_bytes (a b : jsarray) :
  length a = length b -> Nat.Even (length a) ->
  Utils.xorHashStrings (Utils.byteArrayToHashString a) (Utils.byteArrayToHashString b)
  = Ok (Utils.byteArrayToHashString (xorBytes a b)).
Proof.
  intros Hab [count Hcount]. unfold Utils.xorHashStrings.
  replace (JS.len (Utils.byteArrayToHashString a)
           =? JS.len (Utils.byteArrayToHashString b)) with true
    by (symmetry; apply Z.eqb_eq; unfold JS.len;
        rewrite !byteArrayToHashString_length; lia).
  cbn [negb]. f_equal.
  rewrite byteArrayToHashString_length.
  rewrite (byteArrayToHashString_pairs a), (byteArrayToHashString_pairs b).
  apply (xorHashStrings_loop_bytes count a b [] [] []); [lia | lia | reflexivity | lia].
Qed.

Lemma xorBytes_length (a b : jsarray) :
  length a = length b -> length (xorBytes a b) = length a.
Proof.
  revert b. induction a as [|x a IH]; intros [|y b] H; cbn in *; try lia.
  now rewrite IH by lia.
Qed.

Lemma xorBytes_mask (a b : jsarray) : maskBytes (xorBytes a b) = xorBytes a b.
Proof.
  revert b. induction a as [|x a IH]; intros [|y b]; cbn [xorBytes maskBytes map];
    try reflexivity.
  fold (maskBytes (xorBytes a b)). rewrite IH. f_equal. f_equal.
  apply byteOf_small, lxor_byte_range; apply byteOf_range.
Qed.

(** X25. [xorHashStrings] on hash strings is the exclusive or of the
    bytes: for two arrays of the same even number of elements, the
    function applied to their hash strings returns the hash string of
    the array of the element-wise exclusive ors, so the result has the
    length of the arguments and reads back as that array. *)
Theorem xorHashStrings_bytewise (a b : jsarray) :
  length a = length b -> Nat.Even (length a) ->
  Utils.xorHashStrings (Utils.byteArrayToHashString a) (Utils.byteArrayToHashString b)
  = Ok (Utils.byteArrayToHashString (xorBytes a b))
  /\ length (Utils.byteArrayToHashString (xorBytes a b))
     = length (Utils.byteArrayToHashString a)
  /\ Utils.hashStringToByteArray (Utils.byteArrayToHashString (xorBytes a b))
     = xorBytes a b.
Proof.
  intros Hab Heven. split; [now apply xorHashStrings_bytes|]. split.
  - now rewrite !byteArrayToHashString_length, xorBytes_length.
  - rewrite hashStringToByteArray_hashString. apply xorBytes_mask.
Qed.

Lemma xorHashStrings_bytewise_witness :
  Utils.xorHashStrings (str "a7a9e7e5") (str "30a85174") = Ok (str "9701b691").
Proof.
  pose proof (xorHashStrings_bytewise
                [Num 167; Num 169; Num 231; Num 229]
                [Num 48; Num 168; Num 81; Num 116]
                eq_refl (ex_intro _ 2%nat eq_refl)) as (H & _).
  exact H.
Defined.

(** ** The client's proof *)

(** X26. The client's proof is the M1 of SRP-6a: when the integers fit
    their widths and the digests have one even length, [SRP.Mc] returns
    the digest of (H(N) xor H(g)), H(username), the salt, A and B on
    128 bytes each, and K, in this order. *)
Theorem Mc_structure (digest : hashInput -> list Z) (N g : Z)
    (username : option jsstring) (salt : jsarray) (A B : Z) (K : jsarray) :
  0 <= N < 256 ^ 128 -> 0 <= g < 256 ->
  0 <= A < 256 ^ 128 -> 0 <= B < 256 ^ 128 ->
  length (digest (HashBytes (bytesFrom N 0 128)))
  = length (digest (HashBytes (bytesFrom g 0 1))) ->
  Nat.Even (length (digest (HashBytes (bytesFrom N 0 128)))) ->
  SRP.Mc digest N g username salt A B K
  = Ok (SRP.SHA1 digest
          (HashBytes
             (xorBytes (map Num (digest (HashBytes (bytesFrom N 0 128))))
                (map Num (digest (HashBytes (bytesFrom g 0 1))))
              ++ maskBytes (map Num (digest (HashString (orEmpty username))))
              ++ salt ++ bytesFrom A 0 128 ++ bytesFrom B 0 128 ++ K))).
Proof.
  intros HN Hg HA HB Hlen Heven. unfold SRP.Mc. cbv zeta.
  rewrite (bigIntegerToBytes_fits N 128), (bigIntegerToBytes_fits g 1),
    (bigIntegerToBytes_fits A 128), (bigIntegerToBytes_fits B 128) by lia.
  cbn [rbind]. change (Z.to_nat 128) with 128%nat. change (Z.to_nat 1) with 1%nat.
  unfold SRP.SHA1 at 1 2.
  rewrite xorHashStrings_bytes by (rewrite !length_map; assumption).
  cbn [rbind]. unfold SRP.SHA1.
  now rewrite !hashStringToByteArray_hashString, xorBytes_mask.
Qed.

Lemma Mc_structure_witness :
  SRP.Mc Sha1.digest 23 5 (Some (str "alice")) demoSalt 10 7 []
  = Ok (SRP.SHA1 Sha1.digest
          (HashBytes
             (xorBytes (map Num (Sha1.digest (HashBytes (bytesFrom 23 0 128))))
                (map Num (Sha1.digest (HashBytes (bytesFrom 5 0 1))))
              ++ maskBytes
                   (map Num (Sha1.digest (HashString (orEmpty (Some (str "alice"))))))
              ++ demoSalt ++ bytesFrom 10 0 128 ++ bytesFrom 7 0 128 ++ []))).
Proof.
  apply Mc_structure; try lia.
  - now rewrite !Sha1_digest_length.
  - rewrite Sha1_digest_length. now exists 10%nat.
Defined.

(** ** login: the answers to the proof *)

(** X27. [login] through the challenge: when the first request is
    answered with 403 and a challenge the client can answer, the proof
    is posted, and then a status 403 rejects with 'Login failed!' while
    a status 200 with a permissions document resolves with true, caches
    the permissions and reports the user name asked for. In both cases
    the SRP client holds the session key computed for the proof, also
    when the server refused it, and the cached permissions of before
    stay in place on a refusal. *)
Theorem login_challenge_outcomes (digest : hashInput -> list Z)
    (parseXML : jsstring -> result XmlNode) (fetch : Request -> result Response)
    (st : AuthState) (username password : option jsstring) (rnd : Z)
    (r1 r2 : Response) (info : ServerInfo) (c1 c2 : Client.t)
    (clientParams : ClientParams) (a64 : jsstring) :
  fetch (loginRequest username) = Ok r1 ->
  status r1 = 403 ->
  decodeServerParamsString (header r1 (str "X-NI-AUTH-PARAMS")) = Ok info ->
  SRP.setServerInfo (SRP.setIdentity (srpClient st) username password) info = Ok c1 ->
  snd (SRP.generatePublicKeyAndProof digest c1 rnd) = Ok (c2, clientParams) ->
  Utils.bigIntToBase64 (clientPublicKey clientParams) 128 = Ok a64 ->
  fetch (proofRequest clientParams a64 info) = Ok r2 ->
  let out := login digest parseXML fetch st username password rnd in
  (status r2 = 403 ->
   out = (Throw AuthenticationFailedError,
          mkAuthState c2 (loggedInUser st) (cachedPermissions st) (_loggedInUser st)))
  /\ (forall doc perms,
         status r2 = 200 -> parseXML (text r2) = Ok doc ->
         _parsePermissions doc = Ok perms ->
         out = (Ok JTrue, mkAuthState c2 (loggedInUser st) (Some perms) username))
  /\ is_Some (Client.sharedKey c2).
Proof.
  intros Hf1 Hs1 Hdec Hset Hgen H64 Hf2. cbv zeta.
  pose proof (login_challenge digest fetch (withIdentity st username password)
                username rnd r1 info c1 c2 clientParams a64 Hs1 Hdec Hset Hgen H64)
    as Hfirst.
  unfold proofRequest in Hf2. rewrite Hf2 in Hfirst.
  pose proof (login_chain digest parseXML fetch st _ username password rnd r1 r2
                Hf1 Hfirst) as Hlogin.
  split; [|split].
  - intros Hs2. rewrite Hlogin. now rewrite login_final_status_403.
  - intros doc perms Hs2 Hxml Hparse. rewrite Hlogin.
    now rewrite (login_final_status_200 parseXML _ username r2 doc perms).
  - destruct (setServerInfo_ok _ _ _ Hset) as (N & g & s & B & -> & _).
    match type of Hgen with
    | snd (SRP.generatePublicKeyAndProof _ ?c' _) = _ =>
        apply (steps_ok_inv digest c' N g s B rnd eq_refl eq_refl eq_refl eq_refl)
          in Hgen
    end.
    destruct Hgen as (_ & _ & u & k & K & M & _ & _ & _ & _ & _ & _ & -> & _).
    now exists K.
Qed.

Lemma login_challenge_outcomes_witness :
  exists c2,
    login Sha1.digest noXML rejectingNetwork demoState (Some (str "alice"))
      (Some (str "secret")) 3
    = (Throw AuthenticationFailedError,
       mkAuthState c2 [] (Some demoPermissions) (Some (str "alice")))
    /\ is_Some (Client.sharedKey c2).
Proof.
  set (user := Some (str "alice")). set (pass := Some (str "secret")).
  let r := eval vm_compute in
             (decodeServerParamsString (header demoChallenge (str "X-NI-AUTH-PARAMS"))) in
  match r with
  | Ok ?info =>
      assert (Hdecode : decodeServerParamsString
                          (header demoChallenge (str "X-NI-AUTH-PARAMS")) = Ok info)
        by (vm_compute; reflexivity);
      match info with
      | mkServerInfo (Some ?N) (Some ?g) (Some ?s) (Some ?B) _ =>
          set (c1 := Client.mk user pass (Some N) (Some g) (Some s) (Some B) None);
          assert (Hinfo : SRP.setServerInfo
                            (SRP.setIdentity (srpClient demoState) user pass) info
                          = Ok c1)
            by reflexivity;
          let ru := eval vm_compute in (SRP.u Sha1.digest (SRP.A N g 3) B) in
          let rk := eval vm_compute in (SRP.k Sha1.digest N g) in
          match constr:((ru, rk)) with
          | (Ok ?u, Ok ?k) =>
              assert (Hu : SRP.u Sha1.digest (SRP.A N g 3) B = Ok u)
                by (vm_compute; reflexivity);
              assert (Hk : SRP.k Sha1.digest N g = Ok k)
                by (vm_compute; reflexivity);
              destruct (generatePublicKeyAndProof_fits Sha1.digest c1 N g s B 3 u k
                          eq_refl eq_refl eq_refl eq_refl
                          ltac:(split; apply Z.ltb_lt; vm_compute; reflexivity)
                          ltac:(lia)
                          ltac:(split; [lia | apply Z.ltb_lt; vm_compute; reflexivity])
                          ltac:(vm_compute; reflexivity)
                          ltac:(vm_compute; discriminate)
                          Hu ltac:(discriminate) Hk ltac:(discriminate))
                as (K & M & Hrun);
              let r64 := eval vm_compute in (Utils.bigIntToBase64 (SRP.A N g 3) 128) in
              match r64 with
              | Ok ?a64 =>
                  assert (H64 : Utils.bigIntToBase64 (SRP.A N g 3) 128 = Ok a64)
                    by (vm_compute; reflexivity);
                  pose proof (login_challenge_outcomes Sha1.digest noXML
                                rejectingNetwork demoState user pass 3
                                demoChallenge (mkResponse 403 (fun _ => None) [])
                                info c1 (withSharedKey c1 K)
                                (mkClientParams (SRP.A N g 3) M) a64
                                eq_refl eq_refl Hdecode Hinfo
                                ltac:(rewrite Hrun; reflexivity) H64 eq_refl)
                    as (Hrefused & _ & Hkey)
              end
          end
      end
  end.
  exists (withSharedKey c1 K). split; [|exact Hkey].
  apply Hrefused. reflexivity.
Defined.

(** ** updatePermissionsCache *)

(** X28. [updatePermissionsCache] asks for the permissions of the user
    in [loggedInUser] and never looks at the status of the answer: a
    rejected request, a text that does not parse and a document whose
    root is not a Permissions element each reject and leave the state
    as it was; every other answer, whatever its status, replaces the
    cached permissions by the parsed ones and resolves with true. *)
Theorem updatePermissionsCache_effect (parseXML : jsstring -> result XmlNode)
    (fetch : Request -> result Response) (st : AuthState) :
  let out := updatePermissionsCache parseXML fetch st in
  let request := permissionsRequest (Some (loggedInUser st)) in
  (forall e, fetch request = Throw e -> out = (Throw e, st))
  /\ (forall response e,
         fetch request = Ok response -> parseXML (text response) = Throw e ->
         out = (Throw e, st))
  /\ (forall response doc,
         fetch request = Ok response -> parseXML (text response) = Ok doc ->
         tagName doc <> Some (str "Permissions") ->
         out = (Throw UnknownElementError, st))
  /\ (forall response doc,
         fetch request = Ok response -> parseXML (text response) = Ok doc ->
         tagName doc = Some (str "Permissions") ->
         exists perms,
           _parsePermissions doc = Ok perms
           /\ out = (Ok JTrue,
                     mkAuthState (srpClient st) (loggedInUser st) (Some perms)
                       (_loggedInUser st))).
Proof.
  cbv zeta. unfold updatePermissionsCache, getAggregateUserPermissions,
    permissionsRequest.
  split; [intros e Hf; now rewrite Hf|].
  split; [intros response e Hf Hx; rewrite Hf; cbn [rbind]; now rewrite Hx|].
  split.
  - intros response doc Hf Hx Htag. rewrite Hf. cbn [rbind]. rewrite Hx. cbn [rbind].
    unfold _parsePermissions, tagIs.
    now rewrite bool_decide_eq_false_2 by exact Htag.
  - intros response doc Hf Hx Htag. rewrite Hf. cbn [rbind]. rewrite Hx. cbn [rbind].
    destruct (parsePermissions_ok doc Htag) as (perms & Hparse & _).
    exists perms. split; [exact Hparse|]. now rewrite Hparse.
Qed.

Lemma updatePermissionsCache_effect_witness :
  updatePermissionsCache noXML noNetwork demoState = (Throw NetworkError, demoState)
  /\ updatePermissionsCache noXML (respond 200) demoState
     = (Throw TypeError, demoState)
  /\ exists perms,
       _parsePermissions permissionsDoc = Ok perms
       /\ updatePermissionsCache demoXML (respond 500) initialState
          = (Ok JTrue, mkAuthState Client.new [] (Some perms) (Some [])).
Proof.
  pose proof (updatePermissionsCache_effect noXML noNetwork demoState) as (H1 & _).
  pose proof (updatePermissionsCache_effect noXML (respond 200) demoState)
    as (_ & H2 & _).
  pose proof (updatePermissionsCache_effect demoXML (respond 500) initialState)
    as (_ & _ & _ & H3).
  split; [apply H1; reflexivity|]. split.
  - apply (H2 (mkResponse 200 (fun _ => None) [])); reflexivity.
  - apply (H3 (mkResponse 500 (fun _ => None) []) permissionsDoc); reflexivity.
Defined.
